(** * IAFD-Ebisu point-of-sale backend: sync and approval engine

    A shallow embedding of [posapp/models.py], [posapp/serializers.py],
    [posapp/permissions.py] and [posapp/views.py], and the properties of the
    synchronisation / approval core proved (or refuted) over it.

    Conventions of the embedding.
    - Money ([DecimalField(max_digits=10, decimal_places=2)]) is an integer
      number of cents in [Z]; timestamps are [Z]; UUIDs (the primary keys of
      [Sale] and [Product]) are numbers in [N].
    - A table with a primary key is a [gmap] from the key to the row; the
      [sale_items] table is a list in insertion order, which is the order of
      its [AutoField] id and hence of [Meta.ordering = ['sale', 'id']] within
      one sale.
    - [PositiveIntegerField] columns ([Product.id] and [SaleItem.quantity])
      are [N] in a stored row.
    - Text is a [string] of the code points below 256.
    - A query or an attribute access that names a field of [Product] by a
      string is resolved against the fields [models.py] declares.  The
      serializers and [PendingSalesView] name a field [local_id]; [Product]
      declares [id] and no [local_id], so those queries raise [FieldError]
      and that attribute access raises [AttributeError].  The queries on
      [Sale] and the other queries on [Product] name declared fields and are
      written with the filter they resolve to.
    - The database runs in Django's default autocommit mode: the application
      opens no transaction of its own, so every [save()] is committed when it
      returns, also when the request later fails.  An exception therefore
      carries the store reached so far.
    - All clock readings of one request return the same instant [now]. *)

From stdpp Require Import gmap strings list fin_maps sorting.
From Stdlib Require Import Ascii ZArith Lia.

Open Scope Z_scope.

(** ** Python helpers *)

(** [str.isspace()] on one character: tab to carriage return, the four
    separators, the space, NEL and the no-break space. *)
Definition is_space (a : ascii) : bool :=
  let n := nat_of_ascii a in
  ((n =? 32) || ((9 <=? n) && (n <=? 13)) || ((28 <=? n) && (n <=? 31))
   || (n =? 133) || (n =? 160))%nat.

Fixpoint lstrip (s : string) : string :=
  match s with
  | EmptyString => EmptyString
  | String a s' => if is_space a then lstrip s' else s
  end.

Fixpoint rstrip (s : string) : string :=
  match s with
  | EmptyString => EmptyString
  | String a s' =>
      match rstrip s' with
      | EmptyString => if is_space a then EmptyString else String a EmptyString
      | r => String a r
      end
  end.

Definition strip (s : string) : string := rstrip (lstrip s).

(** [(v or '').strip() or None] *)
Definition strip_or_None (v : option string) : option string :=
  match strip (default EmptyString v) with
  | EmptyString => None
  | s => Some s
  end.

(** ** models.py *)

Module Product.
(** [server_id], the primary key, is the key of the table; [id] is the
    number the device gave the product. *)
Record t := mk {
  business : Z;
  id : N;
  name : string;
  description : option string;
  qr_code : option string;
  image : option string;
  price : Z;
  stock : Z;
  updated_at : Z;
  active : bool
}.

Definition with_id (v : N) (p : t) : t :=
  mk (business p) v (name p) (description p) (qr_code p) (image p)
     (price p) (stock p) (updated_at p) (active p).
Definition with_business (v : Z) (p : t) : t :=
  mk v (id p) (name p) (description p) (qr_code p) (image p)
     (price p) (stock p) (updated_at p) (active p).
Definition with_name (v : string) (p : t) : t :=
  mk (business p) (id p) v (description p) (qr_code p) (image p)
     (price p) (stock p) (updated_at p) (active p).
Definition with_description (v : option string) (p : t) : t :=
  mk (business p) (id p) (name p) v (qr_code p) (image p)
     (price p) (stock p) (updated_at p) (active p).
Definition with_qr_code (v : option string) (p : t) : t :=
  mk (business p) (id p) (name p) (description p) v (image p)
     (price p) (stock p) (updated_at p) (active p).
Definition with_image (v : option string) (p : t) : t :=
  mk (business p) (id p) (name p) (description p) (qr_code p) v
     (price p) (stock p) (updated_at p) (active p).
Definition with_price (v : Z) (p : t) : t :=
  mk (business p) (id p) (name p) (description p) (qr_code p) (image p)
     v (stock p) (updated_at p) (active p).
Definition with_stock (v : Z) (p : t) : t :=
  mk (business p) (id p) (name p) (description p) (qr_code p) (image p)
     (price p) v (updated_at p) (active p).
Definition with_updated_at (v : Z) (p : t) : t :=
  mk (business p) (id p) (name p) (description p) (qr_code p) (image p)
     (price p) (stock p) v (active p).
End Product.

Module Sale.
(** [uuid] is the key of the table. *)
Record t := mk {
  business : Z;
  total : Z;
  created_at : Z;
  updated_at : Z;
  synced_from_device : bool;
  active : bool;
  created_by : option Z;
  pending_approval : bool
}.

Definition with_created_at (v : Z) (s : t) : t :=
  mk (business s) (total s) v (updated_at s) (synced_from_device s)
     (active s) (created_by s) (pending_approval s).
Definition with_updated_at (v : Z) (s : t) : t :=
  mk (business s) (total s) (created_at s) v (synced_from_device s)
     (active s) (created_by s) (pending_approval s).
Definition with_active (v : bool) (s : t) : t :=
  mk (business s) (total s) (created_at s) (updated_at s)
     (synced_from_device s) v (created_by s) (pending_approval s).
Definition with_pending_approval (v : bool) (s : t) : t :=
  mk (business s) (total s) (created_at s) (updated_at s)
     (synced_from_device s) (active s) (created_by s) v.
End Sale.

Module SaleItem.
Record t := mk {
  sale : N;
  product : N;
  quantity : N;
  total_price : Z
}.
End SaleItem.

(** The database and the server clock. *)
Record Store := mkStore {
  products : gmap N Product.t;
  sales : gmap N Sale.t;
  sale_items : list SaleItem.t;
  now : Z
}.

Definition set_products (v : gmap N Product.t) (st : Store) : Store :=
  mkStore v (sales st) (sale_items st) (now st).
Definition set_sales (v : gmap N Sale.t) (st : Store) : Store :=
  mkStore (products st) v (sale_items st) (now st).
Definition set_sale_items (v : list SaleItem.t) (st : Store) : Store :=
  mkStore (products st) (sales st) v (now st).

(** ** Effects: a state monad whose exceptions keep the store *)

Inductive Exception :=
  | DoesNotExist
  | MultipleObjectsReturned
  | IntegrityError
  | ValidationError (msg : string)
  | FieldError
  | AttributeError
  | TypeError
  | ValueError
  | OverflowError
  | OSError.

Definition Db (A : Type) : Type := Store → Store * (Exception + A).

Definition ret {A} (a : A) : Db A := λ st, (st, inr a).
Definition raise {A} (e : Exception) : Db A := λ st, (st, inl e).
Definition bind {A B} (m : Db A) (k : A → Db B) : Db B :=
  λ st, match m st with
        | (st', inr a) => k a st'
        | (st', inl e) => (st', inl e)
        end.
(** [try: ... except Exception as e:] *)
Definition try {A} (m : Db A) : Db (Exception + A) :=
  λ st, (fst (m st), inr (snd (m st))).
Definition read {A} (f : Store → A) : Db A := λ st, (st, inr (f st)).
Definition write (f : Store → Store) : Db unit := λ st, (f st, inr tt).

Notation "'do' x <- m ; k" := (bind m (λ x, k))
  (at level 10, x name, m at level 100, k at level 200).
Notation "'do' ' p <- m ; k" := (bind m (λ x, match x with p => k end))
  (at level 10, p pattern, m at level 100, k at level 200).
Notation "m ;; k" := (bind m (λ _, k))
  (at level 100, k at level 200, right associativity).

(** [timezone.now()] *)
Definition timezone_now : Db Z := read now.

(** [Model.objects.get(...)] on the rows that pass the filter. *)
Definition objects_get {A} (rows : list A) : Db A :=
  match rows with
  | [] => raise DoesNotExist
  | [r] => ret r
  | _ => raise MultipleObjectsReturned
  end.

(** *** Product *)

Definition Product_objects_filter (f : Product.t → bool) (st : Store)
  : list (N * Product.t) :=
  List.filter (λ r, f r.2) (map_to_list (products st)).

Definition Product_objects_get (f : Product.t → bool) : Db (N * Product.t) :=
  do rows <- read (Product_objects_filter f); objects_get rows.

(** [item.product]: the row behind a foreign key. *)
Definition Product_by_pk (pk : N) : Db (N * Product.t) :=
  do tbl <- read products;
  match tbl !! pk with
  | Some p => ret (pk, p)
  | None => raise DoesNotExist
  end.

(** **** Fields named by a string *)

(** A value given to a keyword of a query, or read from an attribute. *)
Inductive Value :=
  | VKey (k : N)
  | VInt (n : Z)
  | VBool (b : bool)
  | VText (s : option string).

#[global] Instance Value_eq_dec : EqDecision Value.
Proof. solve_decision. Defined.

(** The fields that [class Product] declares, each with the value an
    instance holds in it. *)
Definition Product_fields : list (string * (N * Product.t → Value)) :=
  [("server_id", λ r, VKey r.1);
   ("id", λ r, VInt (Z.of_N (Product.id r.2)));
   ("business", λ r, VInt (Product.business r.2));
   ("name", λ r, VText (Some (Product.name r.2)));
   ("description", λ r, VText (Product.description r.2));
   ("qr_code", λ r, VText (Product.qr_code r.2));
   ("image", λ r, VText (Product.image r.2));
   ("price", λ r, VInt (Product.price r.2));
   ("stock", λ r, VInt (Product.stock r.2));
   ("updated_at", λ r, VInt (Product.updated_at r.2));
   ("active", λ r, VBool (Product.active r.2))].

(** What a name resolves to: a declared field, [pk] for the primary key, or
    [business_id] for the column of the foreign key [business].  Any other
    name, [local_id] among them, resolves to nothing. *)
Definition Product_field (name : string) : option (N * Product.t → Value) :=
  let name :=
    if bool_decide (name = "pk") then "server_id"
    else if bool_decide (name = "business_id") then "business"
    else name in
  (λ found, found.2.2) <$> list_find (λ field, field.1 = name) Product_fields.

(** The test that the keywords of a [filter] or a [get] build, one exact
    lookup per keyword; a keyword that is no field raises
    [FieldError] ("Cannot resolve keyword ... into field"). *)
Fixpoint Product_lookups (kwargs : list (string * Value))
  : Db (N * Product.t → bool) :=
  match kwargs with
  | [] => ret (λ _, true)
  | (name, v) :: kwargs' =>
      match Product_field name with
      | None => raise FieldError
      | Some field =>
          do test <- Product_lookups kwargs';
          ret (λ r, bool_decide (field r = v) && test r)
      end
  end.

(** [Product.objects.get] with keywords *)
Definition Product_objects_get_by (kwargs : list (string * Value))
  : Db (N * Product.t) :=
  do test <- Product_lookups kwargs;
  do rows <- read (λ st, List.filter test (map_to_list (products st)));
  objects_get rows.

(** [getattr(product, name)]: an instance has the attributes its class
    declares. *)
Definition Product_getattr (name : string) (r : N * Product.t) : Db Value :=
  match Product_field name with
  | Some field => ret (field r)
  | None => raise AttributeError
  end.

(** [Product.objects.filter(business=...).order_by('-id').first()], reduced to
    the [id] it is used for. *)
Definition last_local_id (b : Z) (st : Store) : option N :=
  match Product_objects_filter (λ p, Product.business p =? b) st with
  | [] => None
  | r :: rows =>
      Some (foldr (λ x acc, N.max (Product.id x.2) acc)
                  (Product.id r.2) rows)
  end.

(** [unique_together = [['business', 'qr_code'], ['business', 'id']]], checked
    by the database against every other row; a NULL [qr_code] never
    conflicts. *)
Definition same_qr (a b : option string) : bool :=
  match a, b with
  | Some x, Some y => bool_decide (x = y)
  | _, _ => false
  end.

Definition product_conflict (pk : N) (p : Product.t) (r : N * Product.t) : bool :=
  negb (r.1 =? pk)%N
  && (Product.business r.2 =? Product.business p)
  && ((Product.id r.2 =? Product.id p)%N
      || same_qr (Product.qr_code r.2) (Product.qr_code p)).

Definition product_unique (pk : N) (p : Product.t) (tbl : gmap N Product.t) : bool :=
  forallb (λ r, negb (product_conflict pk p r)) (map_to_list tbl).

(** [models.Model.save] for a product: INSERT or UPDATE of the row [pk]. *)
Definition Product_super_save (inst : N * Product.t) : Db (N * Product.t) :=
  do tbl <- read products;
  if product_unique inst.1 inst.2 tbl
  then write (set_products (<[inst.1 := inst.2]> tbl));; ret inst
  else raise IntegrityError.

(** [Product.save] *)
Definition Product_save (inst : N * Product.t) : Db (N * Product.t) :=
  do t <- timezone_now;
  let p := Product.with_updated_at t inst.2 in
  do p <- (if (Product.id p =? 0)%N
           then
             do last <- read (last_local_id (Product.business p));
             ret (Product.with_id
                    (match last with None => 1 | Some l => l + 1 end)%N p)
           else ret p);
  Product_super_save (inst.1, p).

(** [uuid.uuid4()] as the default of a primary key: a key not yet in use. *)
Definition uuid4 (used : gset N) : N := fresh used.

Module ProductDefaults.
(** The [defaults] dictionary of [Product.objects.update_or_create]. *)
Record t := mk {
  name : string;
  description : option string;
  qr_code : option string;
  price : Z;
  stock : Z;
  updated_at : Z;
  active : bool
}.
End ProductDefaults.

(** [for k, v in defaults.items(): setattr(obj, k, v)], for the keys that
    [ProductSyncSerializer.create] puts into [defaults]. *)
Definition Product_setattr (d : ProductDefaults.t) (p : Product.t) : Product.t :=
  Product.mk (Product.business p) (Product.id p)
    (ProductDefaults.name d) (ProductDefaults.description d)
    (ProductDefaults.qr_code d) (Product.image p) (ProductDefaults.price d)
    (ProductDefaults.stock d) (ProductDefaults.updated_at d)
    (ProductDefaults.active d).

(** [Product(...)] with keywords: each keyword sets the field it names; a keyword that
    is no field, or a value of another type than the field, is a
    [TypeError].  A negative [id] is kept by Python and refused by the CHECK
    constraint of the [PositiveIntegerField] column when the row is inserted:
    [None], which the caller turns into the [IntegrityError]. *)
Definition Product_set (name : string) (v : Value) (r : N * Product.t)
  : Exception + option (N * Product.t) :=
  let field (names : list string) := bool_decide (name ∈ names) in
  match v with
  | VKey k =>
      if field ["server_id"; "pk"] then inr (Some (k, r.2)) else inl TypeError
  | VInt n =>
      if field ["id"] then
        inr (if n <? 0 then None else Some (r.1, Product.with_id (Z.to_N n) r.2))
      else if field ["business"; "business_id"] then
        inr (Some (r.1, Product.with_business n r.2))
      else if field ["price"] then inr (Some (r.1, Product.with_price n r.2))
      else if field ["stock"] then inr (Some (r.1, Product.with_stock n r.2))
      else if field ["updated_at"] then
        inr (Some (r.1, Product.with_updated_at n r.2))
      else inl TypeError
  | VBool b =>
      if field ["active"] then
        inr (Some (r.1, Product.mk (Product.business r.2) (Product.id r.2)
                          (Product.name r.2) (Product.description r.2)
                          (Product.qr_code r.2) (Product.image r.2)
                          (Product.price r.2) (Product.stock r.2)
                          (Product.updated_at r.2) b))
      else inl TypeError
  | VText s =>
      if field ["name"] then
        match s with
        | Some s => inr (Some (r.1, Product.with_name s r.2))
        | None => inr None (* NOT NULL *)
        end
      else if field ["description"] then
        inr (Some (r.1, Product.with_description s r.2))
      else if field ["qr_code"] then inr (Some (r.1, Product.with_qr_code s r.2))
      else if field ["image"] then inr (Some (r.1, Product.with_image s r.2))
      else inl TypeError
  end.

Fixpoint Product_init (kwargs : list (string * Value)) (r : N * Product.t)
  : Exception + option (N * Product.t) :=
  match kwargs with
  | [] => inr (Some r)
  | (name, v) :: kwargs' =>
      match Product_set name v r with
      | inr (Some r') => Product_init kwargs' r'
      | inr None =>
          match Product_init kwargs' r with
          | inl e => inl e
          | inr _ => inr None
          end
      | inl e => inl e
      end
  end.

(** [Product.objects.create] with the keywords and the defaults of an
    upsert: the instance gets a fresh
    [server_id] and the defaults of the columns, then the keywords, then the
    [defaults] of the upsert, and is saved. *)
Definition Product_objects_create (kwargs : list (string * Value))
    (d : ProductDefaults.t) : Db (N * Product.t) :=
  do pk <- read (λ st, uuid4 (dom (products st)));
  match Product_init kwargs
          (pk, Product.mk 0 0 EmptyString None None None 0 0 0 true) with
  | inl e => raise e
  | inr None => raise IntegrityError
  | inr (Some r) => Product_save (r.1, Product_setattr d r.2)
  end.

(** [Product.objects.update_or_create] with keywords and defaults, following
    Django's [get_or_create]: look the row up, create it when absent, and on
    an [IntegrityError] of the insert look it up once more before giving
    up. *)
Definition Product_objects_update_or_create (kwargs : list (string * Value))
    (d : ProductDefaults.t) : Db ((N * Product.t) * bool) :=
  let lookup := Product_objects_get_by kwargs in
  do found <- try lookup;
  do '(inst, created) <-
    match found with
    | inr inst => ret (inst, false)
    | inl DoesNotExist =>
        do made <- try (Product_objects_create kwargs d);
        match made with
        | inr inst => ret (inst, true)
        | inl IntegrityError =>
            do again <- try lookup;
            match again with
            | inr inst => ret (inst, false)
            | inl DoesNotExist => raise IntegrityError
            | inl e => raise e
            end
        | inl e => raise e
        end
    | inl e => raise e
    end;
  if created : bool then ret (inst, true)
  else
    do inst' <- Product_save (inst.1, Product_setattr d inst.2);
    ret (inst', false).

(** *** Sale *)

(** Stable insertion sort for [Meta.ordering = ['-created_at']].  Rows of
    equal [created_at] stay in the order of the table, which is one of the
    orders the database may return them in; the properties below state the
    order of a query by [newer_or_equal] only. *)
Fixpoint insert_desc (r : N * Sale.t) (l : list (N * Sale.t)) : list (N * Sale.t) :=
  match l with
  | [] => [r]
  | x :: l' =>
      if Sale.created_at x.2 <? Sale.created_at r.2
      then r :: x :: l'
      else x :: insert_desc r l'
  end.

Definition order_by_created_at_desc (l : list (N * Sale.t)) : list (N * Sale.t) :=
  foldr insert_desc [] l.

Definition Sale_objects_filter (f : N * Sale.t → bool) (st : Store)
  : list (N * Sale.t) :=
  order_by_created_at_desc (List.filter f (map_to_list (sales st))).

(** [Sale.objects.get(uuid=..., **more)]: [uuid] is the primary key, so at
    most one row qualifies. *)
Definition Sale_objects_get (uuid : N) (f : Sale.t → bool) : Db (N * Sale.t) :=
  do tbl <- read sales;
  match tbl !! uuid with
  | Some s => if f s then ret (uuid, s) else raise DoesNotExist
  | None => raise DoesNotExist
  end.

(** [Sale.save]: stamps [updated_at], then INSERT or UPDATE.  [created_at] is
    [auto_now_add], set on insertion.  With [force_insert] (as in
    [objects.create]) an existing primary key is an [IntegrityError]. *)
Definition Sale_save (force_insert : bool) (inst : N * Sale.t) : Db (N * Sale.t) :=
  do t <- timezone_now;
  let s := Sale.with_updated_at t inst.2 in
  do tbl <- read sales;
  match tbl !! inst.1 with
  | Some _ =>
      if force_insert then raise IntegrityError
      else write (set_sales (<[inst.1 := s]> tbl));; ret (inst.1, s)
  | None =>
      let s := Sale.with_created_at t s in
      write (set_sales (<[inst.1 := s]> tbl));; ret (inst.1, s)
  end.

Module SaleDefaults.
(** The [defaults] dictionary of [Sale.objects.update_or_create]. *)
Record t := mk {
  total : Z;
  synced_from_device : bool;
  active : bool;
  created_by : option Z;
  pending_approval : bool
}.
End SaleDefaults.

Definition Sale_setattr (d : SaleDefaults.t) (s : Sale.t) : Sale.t :=
  Sale.mk (Sale.business s) (SaleDefaults.total d) (Sale.created_at s)
    (Sale.updated_at s) (SaleDefaults.synced_from_device d)
    (SaleDefaults.active d) (SaleDefaults.created_by d)
    (SaleDefaults.pending_approval d).

Definition Sale_objects_update_or_create (uuid : N) (business_id : Z)
    (d : SaleDefaults.t) : Db ((N * Sale.t) * bool) :=
  let lookup := Sale_objects_get uuid (λ s, Sale.business s =? business_id) in
  do found <- try lookup;
  do '(inst, created) <-
    match found with
    | inr inst => ret (inst, false)
    | inl DoesNotExist =>
        do made <- try (Sale_save true
                          (uuid, Sale_setattr d
                                   (Sale.mk business_id 0 0 0 false true None false)));
        match made with
        | inr inst => ret (inst, true)
        | inl IntegrityError =>
            do again <- try lookup;
            match again with
            | inr inst => ret (inst, false)
            | inl DoesNotExist => raise IntegrityError
            | inl e => raise e
            end
        | inl e => raise e
        end
    | inl e => raise e
    end;
  if created : bool then ret (inst, true)
  else
    do inst' <- Sale_save false (inst.1, Sale_setattr d inst.2);
    ret (inst', false).

(** *** SaleItem *)

(** [sale.items.all()] *)
Definition Sale_items_all (uuid : N) (st : Store) : list SaleItem.t :=
  List.filter (λ i, (SaleItem.sale i =? uuid)%N) (sale_items st).

(** The digits a [DecimalField(max_digits=10, decimal_places=2)] can hold. *)
Definition decimal_10_2 (cents : Z) : bool := Z.abs cents <? 10 ^ 10.

(** [SaleItem.objects.create(sale=..., product=..., quantity=...,
    total_price=...)].  [SaleItem.save] runs [full_clean] first: the field
    validators, [SaleItem.clean] and [unique_together = [['sale',
    'product']]].  The largest quantity the column takes depends on the
    database backend, which the repository does not fix, and is left
    open. *)
Definition SaleItem_objects_create (sale product : N) (quantity total_price : Z)
  : Db SaleItem.t :=
  do rows <- read (Sale_items_all sale);
  if negb (decimal_10_2 total_price) then
    raise (ValidationError "total_price")
  else if quantity <=? 0 then
    raise (ValidationError "La cantidad debe ser mayor a 0")
  else if total_price <=? 0 then
    raise (ValidationError "El precio total debe ser mayor a 0")
  else if existsb (λ i, (SaleItem.product i =? product)%N) rows then
    raise (ValidationError "unique_together")
  else
    let item := SaleItem.mk sale product (Z.to_N quantity) total_price in
    write (λ st, set_sale_items (sale_items st ++ [item]) st);;
    ret item.

(** ** permissions.py *)

Module UserProfile.
Record t := mk { business_id : Z; role : string }.
End UserProfile.

Module User.
Record t := mk { pk : Z; profile : option UserProfile.t }.
End User.

(** [request.user]; [None] is the anonymous user. *)
Record Request := mkRequest { user : option User.t }.

Definition request_profile (request : Request) : option UserProfile.t :=
  match user request with
  | Some u => User.profile u
  | None => None
  end.

(** The business is represented by its id. *)
Definition get_business_for_request (request : Request) : option Z :=
  UserProfile.business_id <$> request_profile request.

Definition IsInBusiness (request : Request) : bool :=
  bool_decide (is_Some (request_profile request)).

Definition has_role (r : string) (request : Request) : bool :=
  match request_profile request with
  | Some pr => bool_decide (UserProfile.role pr = r)
  | None => false
  end.

Definition IsAdmin (request : Request) : bool := has_role "admin" request.

(** ** Responses *)

Inductive Body :=
  | NoBody
  | Error (msg : string)
  | Message (msg : string)
  | Success
  | ApprovedCount (approved_count : nat)
  | RejectedCount (rejected_count : nat) (rejected_uuids : list N)
  | InvalidData
  | Failure (e : Exception)
  | ProductsSynced (synced_count : nat) (sync_timestamp : Z)
  | SalesSynced (synced_count : nat) (synced : list (N * Sale.t)) (sync_timestamp : Z)
  | SaleData (s : N * Sale.t).

Inductive Response :=
  | Resp (status : Z) (data : Body)
  | Forbidden                (* refused by [permission_classes] *)
  | Unhandled (e : Exception). (* an exception that left the handler *)

Definition View : Type := Store → Store * Response.

(** Dispatch of a view: the permission classes, then the handler. *)
Definition dispatch (permitted : bool) (handler : Db Response) : View :=
  λ st,
    if permitted then
      match handler st with
      | (st', inr r) => (st', r)
      | (st', inl e) => (st', Unhandled e)
      end
    else (st, Forbidden).

(** ** serializers.py *)

Module ProductSyncItem.
(** One entry of [ProductSyncItemSerializer]. *)
Record t := mk {
  id : Z;
  name : string;
  description : option string;
  qr_code : option string;
  price : Z;
  stock : Z;
  updated_at : Z;
  active : option bool;
  image_base64 : option string
}.
End ProductSyncItem.

(** [ProhibitNullCharactersValidator] *)
Fixpoint has_nul (s : string) : bool :=
  match s with
  | EmptyString => false
  | String a s' => (nat_of_ascii a =? 0)%nat || has_nul s'
  end.

(** [serializers.CharField.run_validation] on a text: [None] is the
    [ValidationError].  The value is trimmed; a blank value is refused unless
    [allow_blank]; a value that is not blank may not hold a NUL character nor
    be longer than [max_length]. *)
Definition CharField (max_length : option nat) (allow_blank : bool)
    (value : string) : option string :=
  let s := strip value in
  if bool_decide (s = EmptyString) then
    if allow_blank then Some EmptyString else None
  else if has_nul s then None
  else
    match max_length with
    | Some n => if (String.length s <=? n)%nat then Some s else None
    | None => Some s
    end.

(** A [CharField(allow_blank=True, allow_null=True, required=False)]. *)
Definition optional_CharField (value : option string) : bool :=
  match value with
  | Some s => bool_decide (is_Some (CharField None true s))
  | None => true
  end.

(** Field validation of [ProductSyncItemSerializer]: [name] is a
    [CharField(max_length=255)], the other texts are optional, [price] has
    [validate_price], and [stock] has [min_value=0]. *)
Definition ProductSyncItem_is_valid (item : ProductSyncItem.t) : bool :=
  bool_decide (is_Some (CharField (Some 255%nat) false (ProductSyncItem.name item)))
  && optional_CharField (ProductSyncItem.description item)
  && optional_CharField (ProductSyncItem.qr_code item)
  && decimal_10_2 (ProductSyncItem.price item)
  && negb (ProductSyncItem.price item <=? 0)
  && (0 <=? ProductSyncItem.stock item)
  && optional_CharField (ProductSyncItem.image_base64 item).

Definition ProductSyncItem_validated (item : ProductSyncItem.t) : ProductSyncItem.t :=
  ProductSyncItem.mk (ProductSyncItem.id item)
    (strip (ProductSyncItem.name item))
    (strip <$> ProductSyncItem.description item)
    (strip <$> ProductSyncItem.qr_code item)
    (ProductSyncItem.price item) (ProductSyncItem.stock item)
    (ProductSyncItem.updated_at item)
    (Some (default true (ProductSyncItem.active item)))
    (strip <$> ProductSyncItem.image_base64 item).

(** [ProductSyncSerializer.is_valid], with [validate_products]. *)
Definition ProductSyncSerializer_is_valid (data : list ProductSyncItem.t) : bool :=
  forallb ProductSyncItem_is_valid data
  && negb (bool_decide (data = [])).

Section ProductSync.
(** [base64.b64decode]; [None] when it raises. *)
Variable b64decode : string → option string.

(** The body of the loop of [ProductSyncSerializer.create]. *)
Definition ProductSync_item (business_id : Z) (item : ProductSyncItem.t)
  : Db (N * Product.t) :=
  let image_base64 := ProductSyncItem.image_base64 item in
  let local_id := ProductSyncItem.id item in
  let qr_final := strip_or_None (ProductSyncItem.qr_code item) in
  do '(product, created) <-
    Product_objects_update_or_create
      [("business_id", VInt business_id); ("local_id", VInt local_id)]
      (ProductDefaults.mk
         (ProductSyncItem.name item)
         (strip_or_None (ProductSyncItem.description item))
         qr_final
         (ProductSyncItem.price item)
         (ProductSyncItem.stock item)
         (ProductSyncItem.updated_at item)
         (default true (ProductSyncItem.active item)));
  match image_base64 with
  | Some b64 =>
      if negb (bool_decide (strip b64 = EmptyString)) then
        match b64decode b64 with
        | Some data =>
            if negb (bool_decide (data = EmptyString)) then
              (* product.image.save(..., save=True), inside try/except *)
              do saved <- try (Product_save
                                 (product.1, Product.with_image (Some data) product.2));
              match saved with
              | inr product' => ret product'
              | inl _ => ret (product.1, Product.with_image (Some data) product.2)
              end
            else ret product
        | None => ret product
        end
      else ret product
  | None => ret product
  end.

Fixpoint ProductSync_loop (business_id : Z) (items : list ProductSyncItem.t)
  : Db (list (N * Product.t)) :=
  match items with
  | [] => ret []
  | item :: items' =>
      do product <- ProductSync_item business_id item;
      do synced <- ProductSync_loop business_id items';
      ret (product :: synced)
  end.

(** [ProductSyncSerializer.create] *)
Definition ProductSyncSerializer_create (request : Request)
    (validated_data : list ProductSyncItem.t) : Db (list (N * Product.t)) :=
  match request_profile request with
  | None => raise DoesNotExist (* no [profile]; excluded by [IsInBusiness] *)
  | Some profile =>
      let business_id := UserProfile.business_id profile in
      if business_id =? 0 then
        raise (ValidationError "Usuario sin negocio asignado")
      else ProductSync_loop business_id validated_data
  end.

(** [ProductSyncView.post] *)
Definition ProductSyncView_post (request : Request)
    (data : list ProductSyncItem.t) : View :=
  dispatch (IsInBusiness request)
    (if negb (ProductSyncSerializer_is_valid data) then
       ret (Resp 400 InvalidData)
     else
       do result <- try (ProductSyncSerializer_create request
                           (map ProductSyncItem_validated data));
       match result with
       | inr synced =>
           do t <- timezone_now;
           ret (Resp 201 (ProductsSynced (List.length synced) t))
       | inl e => ret (Resp 500 (Failure e))
       end).
End ProductSync.

Module SaleItemData.
(** One entry of [SaleItemCreateSerializer]. *)
Record t := mk { product_id : Z; quantity : Z; total_price : Z }.
End SaleItemData.

Module SaleSyncItem.
(** One entry of [SaleSyncItemSerializer]. *)
Record t := mk { uuid : N; total : Z; items_data : list SaleItemData.t }.
End SaleSyncItem.

(** [SaleItemCreateSerializer.validate_product_id]: [true] when the value is
    accepted, [false] when a [ValidationError] is recorded. *)
Definition validate_product_id (request : Request) (value : Z) : Db bool :=
  match get_business_for_request request with
  | None => ret false
  | Some business_id =>
      if business_id =? 0 then ret false
      else
        do found <- try (Product_objects_get_by
                           [("local_id", VInt value); ("active", VBool true);
                            ("business_id", VInt business_id)]);
        match found with
        | inr _ => ret true
        | inl DoesNotExist => ret false
        | inl e => raise e
        end
  end.

(** Field validation of [SaleItemCreateSerializer]: the model fields
    [quantity] ([PositiveIntegerField]) and [total_price], and
    [validate_product_id]. *)
Definition SaleItemData_is_valid (request : Request) (item : SaleItemData.t)
  : Db bool :=
  do known <- validate_product_id request (SaleItemData.product_id item);
  ret (known
       && (0 <=? SaleItemData.quantity item)
       && decimal_10_2 (SaleItemData.total_price item)).

(** Every entry of a list is validated; the errors are collected. *)
Fixpoint all_valid {A} (check : A → Db bool) (l : list A) : Db bool :=
  match l with
  | [] => ret true
  | x :: l' =>
      do ok <- check x;
      do oks <- all_valid check l';
      ret (ok && oks)
  end.

(** Field validation of [SaleSyncItemSerializer], with [validate_total]. *)
Definition SaleSyncItem_is_valid (request : Request) (sale_data : SaleSyncItem.t)
  : Db bool :=
  do items_ok <- all_valid (SaleItemData_is_valid request)
                   (SaleSyncItem.items_data sale_data);
  ret (decimal_10_2 (SaleSyncItem.total sale_data)
       && negb (SaleSyncItem.total sale_data <=? 0)
       && items_ok).

(** [SaleSyncSerializer.is_valid], with [validate_sales]. *)
Definition SaleSyncSerializer_is_valid (request : Request)
    (data : list SaleSyncItem.t) : Db bool :=
  do sales_ok <- all_valid (SaleSyncItem_is_valid request) data;
  ret (sales_ok && negb (bool_decide (data = []))).

(** [for item_data in items_data: ...] of [SaleSyncSerializer.create] *)
Fixpoint SaleSync_create_items (sale : N) (business_id : Z)
    (items_data : list SaleItemData.t) : Db unit :=
  match items_data with
  | [] => ret tt
  | item_data :: items_data' =>
      let product_id := SaleItemData.product_id item_data in
      do product <- Product_objects_get_by
                      [("local_id", VInt product_id);
                       ("business_id", VInt business_id)];
      SaleItem_objects_create sale product.1
        (SaleItemData.quantity item_data) (SaleItemData.total_price item_data);;
      SaleSync_create_items sale business_id items_data'
  end.

(** [for item in sale.items.all(): ...] of [SaleSyncSerializer.create]: the
    stock is reduced when it suffices, and nothing happens otherwise. *)
Fixpoint SaleSync_reduce_stock (items : list SaleItem.t) : Db unit :=
  match items with
  | [] => ret tt
  | item :: items' =>
      do p <- Product_by_pk (SaleItem.product item);
      (if Z.of_N (SaleItem.quantity item) <=? Product.stock p.2 then
         Product_save
           (p.1, Product.with_stock
                   (Product.stock p.2 - Z.of_N (SaleItem.quantity item)) p.2);;
         ret tt
       else ret tt);;
      SaleSync_reduce_stock items'
  end.

(** The body of the loop over [sales_data] of [SaleSyncSerializer.create]. *)
Definition SaleSync_sale (request_user : option Z) (business_id : Z)
    (is_worker : bool) (sale_data : SaleSyncItem.t) : Db (N * Sale.t) :=
  let sale_uuid := SaleSyncItem.uuid sale_data in
  let items_data := SaleSyncItem.items_data sale_data in
  do '(sale, created) <-
    Sale_objects_update_or_create sale_uuid business_id
      (SaleDefaults.mk (SaleSyncItem.total sale_data) true true
         request_user is_worker);
  (if created : bool then
     SaleSync_create_items sale.1 business_id items_data;;
     if negb is_worker then
       do items <- read (Sale_items_all sale.1);
       SaleSync_reduce_stock items
     else ret tt
   else ret tt);;
  ret sale.

Fixpoint SaleSync_loop (request_user : option Z) (business_id : Z)
    (is_worker : bool) (sales_data : list SaleSyncItem.t)
  : Db (list (N * Sale.t)) :=
  match sales_data with
  | [] => ret []
  | sale_data :: sales_data' =>
      do sale <- SaleSync_sale request_user business_id is_worker sale_data;
      do synced_sales <- SaleSync_loop request_user business_id is_worker
                           sales_data';
      ret (sale :: synced_sales)
  end.

(** [SaleSyncSerializer.create] *)
Definition SaleSyncSerializer_create (request : Request)
    (sales_data : list SaleSyncItem.t) : Db (list (N * Sale.t)) :=
  match request_profile request with
  | None => raise DoesNotExist (* no [profile]; excluded by [IsInBusiness] *)
  | Some profile =>
      let business_id := UserProfile.business_id profile in
      if business_id =? 0 then
        raise (ValidationError "Usuario sin negocio asignado")
      else
        let is_worker := has_role "worker" request in
        SaleSync_loop (User.pk <$> user request) business_id is_worker
          sales_data
  end.

(** [SaleSerializer]: the serializer of the direct sale API. *)
Module SaleData.
Record t := mk {
  total : Z;
  synced_from_device : bool;
  active : bool;
  items_data : list SaleItemData.t
}.
End SaleData.

Definition sum_total_price (items_data : list SaleItemData.t) : Z :=
  foldr (λ item acc, SaleItemData.total_price item + acc) 0 items_data.

(** [SaleSerializer.validate]: [true] when [attrs] is returned, [false] when
    the [ValidationError] is raised.  Amounts have two decimal places, so a
    difference above [0.01] is a difference of more than one cent. *)
Definition SaleSerializer_validate (attrs : SaleData.t) : bool :=
  let items_data := SaleData.items_data attrs in
  if negb (bool_decide (items_data = [])) then
    let calculated_total := sum_total_price items_data in
    negb (1 <? Z.abs (calculated_total - SaleData.total attrs))
  else true.

(** [SaleSerializer.create] *)
Definition SaleSerializer_create (request : Request) (validated_data : SaleData.t)
  : Db (N * Sale.t) :=
  let items_data := SaleData.items_data validated_data in
  match request_profile request with
  | None => raise (ValidationError "Usuario sin negocio asignado")
  | Some profile =>
      let business_id := UserProfile.business_id profile in
      if business_id =? 0 then
        raise (ValidationError "Usuario sin negocio asignado")
      else
        do uuid <- read (λ st, uuid4 (dom (sales st)));
        do sale <- Sale_save true
                     (uuid, Sale.mk business_id (SaleData.total validated_data)
                              0 0 (SaleData.synced_from_device validated_data)
                              (SaleData.active validated_data) None false);
        (fix items (l : list SaleItemData.t) : Db unit :=
           match l with
           | [] => ret tt
           | item_data :: l' =>
               let product_id := SaleItemData.product_id item_data in
               do product <- Product_objects_get_by
                               [("local_id", VInt product_id);
                                ("business_id", VInt business_id)];
               SaleItem_objects_create sale.1 product.1
                 (SaleItemData.quantity item_data)
                 (SaleItemData.total_price item_data);;
               items l'
           end) items_data;;
        ret sale
  end.

(** ** views.py *)

(** [SaleSyncView.post]; [is_valid] runs outside the [try]. *)
Definition SaleSyncView_post (request : Request) (data : list SaleSyncItem.t)
  : View :=
  dispatch (IsInBusiness request)
    (do valid <- SaleSyncSerializer_is_valid request data;
     if negb valid then ret (Resp 400 InvalidData)
     else
       do result <- try (SaleSyncSerializer_create request data);
       match result with
       | inr synced_sales =>
           do t <- timezone_now;
           ret (Resp 201 (SalesSynced (List.length synced_sales) synced_sales t))
       | inl e => ret (Resp 500 (Failure e))
       end).

(** The filter [active=True, business=business, pending_approval=True]. *)
Definition is_pending (business : Z) (s : Sale.t) : bool :=
  Sale.active s && (Sale.business s =? business) && Sale.pending_approval s.

(** The loop over the items of a sale that [ApproveSaleView.post] and
    [ApproveAllPendingView.post] both contain; [Some r] is the early
    [return]. *)
Fixpoint approve_items (items : list SaleItem.t) : Db (option Response) :=
  match items with
  | [] => ret None
  | item :: items' =>
      do product <- Product_by_pk (SaleItem.product item);
      if Z.of_N (SaleItem.quantity item) <=? Product.stock product.2 then
        Product_save
          (product.1,
           Product.with_stock
             (Product.stock product.2 - Z.of_N (SaleItem.quantity item))
             product.2);;
        approve_items items'
      else
        ret (Some (Resp 400
                     (Error ("Stock insuficiente para "
                             +:+ Product.name product.2))))
  end.

(** [ApproveSaleView.post] *)
Definition ApproveSaleView_post (request : Request) (uuid : N) : View :=
  dispatch (IsInBusiness request && IsAdmin request)
    match get_business_for_request request with
    | None => ret (Resp 403 (Error "Sin negocio"))
    | Some business =>
        do found <- try (Sale_objects_get uuid (is_pending business));
        match found with
        | inl DoesNotExist =>
            ret (Resp 404 (Error "Venta no encontrada o ya aprobada"))
        | inl e => raise e
        | inr sale =>
            do items <- read (Sale_items_all sale.1);
            do early <- approve_items items;
            match early with
            | Some r => ret r
            | None =>
                Sale_save false (sale.1, Sale.with_pending_approval false sale.2);;
                ret (Resp 200 Success)
            end
        end
    end.

(** The first loop of [ApproveAllPendingView.post]. *)
Fixpoint approve_all_stock (sales : list (N * Sale.t)) : Db (option Response) :=
  match sales with
  | [] => ret None
  | sale :: sales' =>
      do items <- read (Sale_items_all sale.1);
      do early <- approve_items items;
      match early with
      | Some r => ret (Some r)
      | None => approve_all_stock sales'
      end
  end.

(** The second loop of [ApproveAllPendingView.post]. *)
Fixpoint approve_all_flags (sales : list (N * Sale.t)) : Db unit :=
  match sales with
  | [] => ret tt
  | sale :: sales' =>
      Sale_save false (sale.1, Sale.with_pending_approval false sale.2);;
      approve_all_flags sales'
  end.

(** [ApproveAllPendingView.post] *)
Definition ApproveAllPendingView_post (request : Request) : View :=
  dispatch (IsInBusiness request && IsAdmin request)
    match get_business_for_request request with
    | None => ret (Resp 403 (Error "Sin negocio"))
    | Some business =>
        do sales <- read (Sale_objects_filter (λ r, is_pending business r.2));
        do early <- approve_all_stock sales;
        match early with
        | Some r => ret r
        | None =>
            approve_all_flags sales;;
            ret (Resp 200 (ApprovedCount (List.length sales)))
        end
    end.

(** [RejectAllPendingView.post]; [QuerySet.update] writes the column without
    calling [Sale.save]. *)
Definition RejectAllPendingView_post (request : Request) : View :=
  dispatch (IsInBusiness request && IsAdmin request)
    match get_business_for_request request with
    | None => ret (Resp 403 (Error "Sin negocio"))
    | Some business =>
        do rejected <- read (Sale_objects_filter (λ r, is_pending business r.2));
        let uuids := map fst rejected in
        write (λ st,
                 set_sales
                   ((λ s, if is_pending business s
                          then Sale.with_active false s else s) <$> sales st) st);;
        ret (Resp 200 (RejectedCount (List.length rejected) uuids))
    end.

(** [RejectSaleView.post] *)
Definition RejectSaleView_post (request : Request) (uuid : N) : View :=
  dispatch (IsInBusiness request && IsAdmin request)
    match get_business_for_request request with
    | None => ret (Resp 403 (Error "Sin negocio"))
    | Some business =>
        do found <- try (Sale_objects_get uuid (is_pending business));
        match found with
        | inl DoesNotExist =>
            ret (Resp 404 (Error "Venta no encontrada o ya procesada"))
        | inl e => raise e
        | inr sale =>
            Sale_save false (sale.1, Sale.with_active false sale.2);;
            ret (Resp 204 NoBody)
        end
    end.

(** [SaleViewSet.get_queryset], as a predicate on the rows; the argument
    [include_inactive] is the query parameter compared with ['true']. *)
Definition SaleViewSet_get_queryset (request : Request) (include_inactive : bool)
    (s : Sale.t) : bool :=
  match get_business_for_request request with
  | None => false
  | Some business =>
      (Sale.business s =? business)
      && negb (Sale.pending_approval s)
      && (if negb (include_inactive && has_role "admin" request)
          then Sale.active s else true)
      && (if has_role "worker" request
          then bool_decide (Sale.created_by s = User.pk <$> user request)
          else true)
  end.

(** [SaleViewSet.reactivate] *)
Definition SaleViewSet_reactivate (request : Request) (uuid : N) : View :=
  dispatch (IsInBusiness request)
    (if negb (has_role "admin" request) then
       ret (Resp 403 (Error "Solo administradores pueden reactivar ventas"))
     else
       do found <- try (Sale_objects_get uuid
                          (λ s, bool_decide
                                  (Some (Sale.business s)
                                   = get_business_for_request request)));
       match found with
       | inl DoesNotExist => ret (Resp 404 (Error "Venta no encontrada"))
       | inl e => raise e
       | inr sale =>
           if Sale.active sale.2 then
             ret (Resp 200 (Message "La venta ya está activa"))
           else
             do sale' <- Sale_save false (sale.1, Sale.with_active true sale.2);
             ret (Resp 200 (SaleData sale'))
       end).

(** The loop of [SaleViewSet.destroy] that restores the stock. *)
Fixpoint restore_stock (items : list SaleItem.t) : Db unit :=
  match items with
  | [] => ret tt
  | item :: items' =>
      do product <- Product_by_pk (SaleItem.product item);
      Product_save
        (product.1,
         Product.with_stock
           (Product.stock product.2 + Z.of_N (SaleItem.quantity item))
           product.2);;
      restore_stock items'
  end.

(** [SaleViewSet.destroy]; [get_object] answers 404 outside the queryset. *)
Definition SaleViewSet_destroy (request : Request) (include_inactive : bool)
    (uuid : N) : View :=
  dispatch (IsInBusiness request)
    (do found <- try (Sale_objects_get uuid
                        (SaleViewSet_get_queryset request include_inactive));
     match found with
     | inl DoesNotExist => ret (Resp 404 NoBody)
     | inl e => raise e
     | inr instance =>
         do items <- read (Sale_items_all instance.1);
         restore_stock items;;
         Sale_save false (instance.1, Sale.with_active false instance.2);;
         ret (Resp 204 NoBody)
     end).

(** * Vocabulary of the properties *)

(** ** A Hoare logic for [Db] *)

Definition hoare {A} (P : Store → Prop) (m : Db A)
    (Q : Exception + A → Store → Prop) : Prop :=
  ∀ st, P st → Q (m st).2 (m st).1.

(** [m] keeps the invariant [I], whatever it returns or raises. *)
Definition preserves {A} (I : Store → Prop) (m : Db A) : Prop :=
  hoare I m (λ _, I).

(** ** Invariants and effects on the tables *)

(** Invariants that do not look at one of the tables. *)
Definition sales_blind (I : Store → Prop) : Prop :=
  ∀ st v, I st → I (set_sales v st).
Definition items_blind (I : Store → Prop) : Prop :=
  ∀ st v, I st → I (set_sale_items v st).

(** No product has a negative stock. *)
Definition stock_nonneg (st : Store) : Prop :=
  map_Forall (λ _ p, 0 ≤ Product.stock p) (products st).

(** The quantity that the line items [items] take from the product [pk]. *)
Definition sold (items : list SaleItem.t) (pk : N) : Z :=
  foldr (λ i acc, (if (SaleItem.product i =? pk)%N
                   then Z.of_N (SaleItem.quantity i) else 0) + acc) 0 items.

(** Between [st] and [st'] every product lost exactly what [items] take from
    it. *)
Definition stock_reduced_by (items : list SaleItem.t) (st st' : Store) : Prop :=
  ∀ pk p, products st !! pk = Some p →
    ∃ p', products st' !! pk = Some p'
          ∧ Product.stock p' = Product.stock p - sold items pk.

(** The line items of the sales [l], in the order in which the first loop of
    [ApproveAllPendingView.post] visits them. *)
Definition items_of_sales (l : list (N * Sale.t)) (st : Store) : list SaleItem.t :=
  concat (map (λ sale, Sale_items_all sale.1 st) l).

(** Every item of [items] found enough stock when the approval loop reached
    it: what [st] holds of its product, less what the items before it had
    taken, is at least its quantity. *)
Definition sufficed (items : list SaleItem.t) (st : Store) : Prop :=
  ∀ pre i post, items = pre ++ i :: post →
    ∃ p, products st !! SaleItem.product i = Some p
         ∧ Z.of_N (SaleItem.quantity i)
           ≤ Product.stock p - sold pre (SaleItem.product i).

(** Referential integrity of [SaleItem.sale]: every line item belongs to a
    stored sale. *)
Definition sale_items_fk (st : Store) : Prop :=
  Forall (λ i, is_Some (sales st !! SaleItem.sale i)) (sale_items st).

#[global] Instance stock_nonneg_dec (st : Store) : Decision (stock_nonneg st).
Proof. unfold stock_nonneg. apply _. Defined.

#[global] Instance sale_items_fk_dec (st : Store) : Decision (sale_items_fk st).
Proof. unfold sale_items_fk. apply _. Defined.

(** ** Sequences of requests *)

(** The operations of the core, as the requests a client can send; [Tick] is
    time passing between two requests. *)
Inductive Op :=
  | ProductSync (request : Request) (data : list ProductSyncItem.t)
  | SaleSync (request : Request) (data : list SaleSyncItem.t)
  | Approve (request : Request) (uuid : N)
  | ApproveAll (request : Request)
  | Reject (request : Request) (uuid : N)
  | RejectAll (request : Request)
  | Destroy (request : Request) (include_inactive : bool) (uuid : N)
  | Reactivate (request : Request) (uuid : N)
  | Tick (dt : Z).

Section Run.
Variable b64decode : string → option string.

(** The view that serves an operation. *)
Definition run (op : Op) : View :=
  match op with
  | ProductSync request data => ProductSyncView_post b64decode request data
  | SaleSync request data => SaleSyncView_post request data
  | Approve request uuid => ApproveSaleView_post request uuid
  | ApproveAll request => ApproveAllPendingView_post request
  | Reject request uuid => RejectSaleView_post request uuid
  | RejectAll request => RejectAllPendingView_post request
  | Destroy request include_inactive uuid =>
      SaleViewSet_destroy request include_inactive uuid
  | Reactivate request uuid => SaleViewSet_reactivate request uuid
  | Tick dt =>
      λ st, (mkStore (products st) (sales st) (sale_items st)
               (now st + Z.abs dt), Resp 200 NoBody)
  end.

(** The stores after each operation of a sequence. *)
Fixpoint history (st : Store) (ops : list Op) : list Store :=
  match ops with
  | [] => []
  | op :: ops' => let st' := (run op st).1 in st' :: history st' ops'
  end.
End Run.

(** ** A small shop, for the examples *)

Definition admin_request : Request :=
  mkRequest (Some (User.mk 1 (Some (UserProfile.mk 1 "admin")))).

Definition worker_request : Request :=
  mkRequest (Some (User.mk 2 (Some (UserProfile.mk 1 "worker")))).

Definition shop_product (local_id : N) (name : string) (stock : Z) : Product.t :=
  Product.mk 1 local_id name None None None 100 stock 0 true.

(** Business 1 at time 1000, with 5 of product 1 and 1 of product 2, and no
    sale yet. *)
Definition shop : Store :=
  mkStore (<[10%N := shop_product 1 "pan" 5]>
             (<[11%N := shop_product 2 "sal" 1]> ∅))
          ∅ [] 1000.

(** A pushed sale of two of product 1 and three of product 2. *)
Definition big_sale : SaleSyncItem.t :=
  SaleSyncItem.mk 77 5000 [SaleItemData.mk 1 2 2500; SaleItemData.mk 2 3 2500].

(** A pushed sale of two of product 1. *)
Definition small_sale : SaleSyncItem.t :=
  SaleSyncItem.mk 78 2500 [SaleItemData.mk 1 2 2500].

(** A pushed sale of total 100.00 without line items. *)
Definition bare_sale : SaleSyncItem.t := SaleSyncItem.mk 79 10000 [].

(** A pushed product that claims to have been updated at time 5. *)
Definition old_product : ProductSyncItem.t :=
  ProductSyncItem.mk 1 "pan" None None 250 7 5 None None.

Definition no_decode : string → option string := λ _, None.

(** A sale of the worker that waits for approval, created at time 1000. *)
Definition pending_sale (total : Z) : Sale.t :=
  Sale.mk 1 total 1000 1000 true true (Some 2) true.

(** The shop with the pending sale 77: two of product 1 and three of product
    2, more than the shop has of product 2; and the same shop after an admin
    rejected that sale. *)
Definition shop_pending : Store :=
  mkStore (products shop) (<[77%N := pending_sale 5000]> ∅)
    [SaleItem.mk 77 10 2 2500; SaleItem.mk 77 11 3 2500] 1000.
Definition shop_rejected : Store :=
  (RejectSaleView_post admin_request 77 shop_pending).1.

(** The shop with the pending sale 78, two of product 1; and the same shop
    after an admin approved that sale. *)
Definition shop_small_pending : Store :=
  mkStore (products shop) (<[78%N := pending_sale 2500]> ∅)
    [SaleItem.mk 78 10 2 2500] 1000.
Definition shop_approved : Store :=
  (ApproveSaleView_post admin_request 78 shop_small_pending).1.

(** ** Operations, their senders and their answers *)

(** The request that carries an operation. *)
Definition op_request (op : Op) : option Request :=
  match op with
  | ProductSync request _ | SaleSync request _ | Approve request _
  | ApproveAll request | Reject request _ | RejectAll request
  | Destroy request _ _ | Reactivate request _ => Some request
  | Tick _ => None
  end.

(** The sale that an operation names in its URL. *)
Definition op_sale (op : Op) : option N :=
  match op with
  | Approve _ uuid | Reject _ uuid | Destroy _ _ uuid | Reactivate _ uuid =>
      Some uuid
  | _ => None
  end.

(** The operations of the approval workflow. *)
Definition is_moderation (op : Op) : bool :=
  match op with
  | Approve _ _ | ApproveAll _ | Reject _ _ | RejectAll _ | Reactivate _ _ => true
  | _ => false
  end.

(** The answers that refuse a request: by the permission classes, or with
    status 403 or 404. *)
Definition is_refusal (response : Response) : bool :=
  match response with
  | Forbidden => true
  | Resp status _ => (status =? 403) || (status =? 404)
  | Unhandled _ => false
  end.

(** ** Listings *)

(** [a] was created no earlier than [b]. *)
Definition newer_or_equal (a b : N * Sale.t) : Prop :=
  Sale.created_at b.2 ≤ Sale.created_at a.2.

(** The rows of [SaleViewSet.get_queryset], which ends with
    [order_by('-created_at')]; [include_inactive] is the query parameter
    compared with ['true']. *)
Definition SaleViewSet_queryset (request : Request) (include_inactive : bool)
    (st : Store) : list (N * Sale.t) :=
  Sale_objects_filter
    (λ r, SaleViewSet_get_queryset request include_inactive r.2) st.

(** Invariants that do not look at the product table. *)
Definition products_blind (I : Store → Prop) : Prop :=
  ∀ st v, I st → I (set_products v st).

(** Between [st] and [st'] every product gained exactly what [items] had
    taken from it. *)
Definition stock_restored_by (items : list SaleItem.t) (st st' : Store) : Prop :=
  ∀ pk p, products st !! pk = Some p →
    ∃ p', products st' !! pk = Some p'
          ∧ Product.stock p' = Product.stock p + sold items pk.

(** ** Integrity of the store *)

(** Invariants that survive any write to the sale table that keeps its
    keys. *)
Definition sales_growing (I : Store → Prop) : Prop :=
  ∀ st v, dom (sales st) ⊆ dom v → I st → I (set_sales v st).

(** Invariants that do not look at the clock. *)
Definition clock_blind (I : Store → Prop) : Prop :=
  ∀ st t, I st → I (mkStore (products st) (sales st) (sale_items st) t).

(** The foreign keys of [SaleItem]: the sale and the product of every line
    item are stored. *)
Definition items_refer (st : Store) : Prop :=
  Forall (λ i, is_Some (sales st !! SaleItem.sale i)
               ∧ is_Some (products st !! SaleItem.product i))
         (sale_items st).

(** [SaleItem.clean] and [unique_together = [['sale', 'product']]]: every
    stored quantity is positive and no sale has two line items of one
    product. *)
Definition items_clean (st : Store) : Prop :=
  Forall (λ i, (0 < SaleItem.quantity i)%N) (sale_items st)
  ∧ ∀ uuid, NoDup (SaleItem.product <$> Sale_items_all uuid st).

(** [unique_together = [['business', 'qr_code'], ['business', 'id']]] of
    [Product]: two different rows never conflict. *)
Definition products_unique (st : Store) : Prop :=
  ∀ pk1 p1 pk2 p2,
    products st !! pk1 = Some p1 → products st !! pk2 = Some p2 →
    product_conflict pk1 p1 (pk2, p2) = false.

(** Nothing of [st] is missing in [st']: the sales and products of [st] are
    still stored, and the line items of [st'] are those of [st], unchanged
    and in the same order, followed by new ones. *)
Definition keeps_rows (st st' : Store) : Prop :=
  dom (sales st) ⊆ dom (sales st')
  ∧ dom (products st) ⊆ dom (products st')
  ∧ sale_items st `prefix_of` sale_items st'.

(** ** What validation accepts *)

(** The user of the request belongs to a business, so that
    [validate_product_id] gets as far as its query. *)
Definition has_business (request : Request) : bool :=
  match get_business_for_request request with
  | Some business => negb (business =? 0)
  | None => false
  end.

(** The pushed sale has a line item. *)
Definition has_item (sale_data : SaleSyncItem.t) : bool :=
  negb (bool_decide (SaleSyncItem.items_data sale_data = [])).

(** A pushed sale without line items whose total passes
    [SaleSyncItemSerializer]. *)
Definition bare_record (sale_data : SaleSyncItem.t) : bool :=
  bool_decide (SaleSyncItem.items_data sale_data = [])
  && (0 <? SaleSyncItem.total sale_data)
  && decimal_10_2 (SaleSyncItem.total sale_data).

(** What a sale push may change between [st] and [st']: the products, the
    line items and the clock are those of [st], and no sale of [st] has lost
    its key. *)
Definition sales_only (st st' : Store) : Prop :=
  products st' = products st ∧ sale_items st' = sale_items st
  ∧ now st' = now st ∧ dom (sales st) ⊆ dom (sales st').

(** The uuid is free, or is the key of a sale of the business. *)
Definition uuid_available (business : Z) (st : Store) (uuid : N) : Prop :=
  ∀ s, sales st !! uuid = Some s → Sale.business s = business.

(** The row that the upsert of a pushed sale stores under its uuid at time
    [t]: the row [old] it found, or a new row of the business, with the
    [defaults] of [SaleSyncSerializer.create]. *)
Definition upserted (request_user : option Z) (business : Z) (is_worker : bool)
    (t : Z) (sale_data : SaleSyncItem.t) (old : option Sale.t) : Sale.t :=
  let d := SaleDefaults.mk (SaleSyncItem.total sale_data) true true
             request_user is_worker in
  match old with
  | Some s => Sale.with_updated_at t (Sale_setattr d s)
  | None =>
      Sale.with_created_at t
        (Sale.with_updated_at t
           (Sale_setattr d (Sale.mk business 0 0 0 false true None false)))
  end.

(** ** Local ids *)

(** The local id [Product.save] gives to a product that comes without one. *)
Definition next_local_id (business : Z) (st : Store) : N :=
  match last_local_id business st with None => 1 | Some l => l + 1 end.

(** The products of a business that carry the id of a pushed product. *)
Definition product_rows (business : Z) (st : Store) (item : ProductSyncItem.t)
  : list (N * Product.t) :=
  Product_objects_filter
    (λ p, (Product.business p =? business)
          && (Z.of_N (Product.id p) =? ProductSyncItem.id item)) st.

(** The pushed product carries a local id, and the business stores exactly
    one product under it. *)
Definition product_known (business : Z) (st : Store) (item : ProductSyncItem.t)
  : bool :=
  negb (ProductSyncItem.id item =? 0)
  && bool_decide (List.length (product_rows business st item) = 1%nat).

(** [st'] stores the products of [st] under the same keys, each with the
    business and the local id it had. *)
Definition same_catalogue (st st' : Store) : Prop :=
  ∀ pk,
    match products st !! pk, products st' !! pk with
    | Some p, Some p' =>
        Product.business p' = Product.business p
        ∧ Product.id p' = Product.id p
    | None, None => True
    | _, _ => False
    end.

Definition local_ids_positive (st : Store) : Prop :=
  ∀ pk p, products st !! pk = Some p → Product.id p ≠ 0%N.

(** ** The summary of the pending sales *)

(** A Python number of [PendingSalesView.get]: the [int] a sum starts from,
    or the [float] it becomes once an amount is added. *)
Inductive Number (float : Type) :=
  | Int (n : Z)
  | Float (x : float).
Arguments Int {float} n.
Arguments Float {float} x.

Module PendingEntry.
(** A value of the dictionary [agg]. *)
Record t (float : Type) := mk {
  product : N * Product.t;
  quantity_sold : Z;
  partial_amount : Number float
}.
Arguments mk {float}.
Arguments product {float}.
Arguments quantity_sold {float}.
Arguments partial_amount {float}.
End PendingEntry.

Module PendingRow.
(** An entry of ['products'] in the response. *)
Record t (float : Type) := mk {
  product_id : Value;
  product_name : Value;
  quantity_sold : Z;
  partial_amount : Number float
}.
Arguments mk {float}.
Arguments product_id {float}.
Arguments product_name {float}.
Arguments quantity_sold {float}.
Arguments partial_amount {float}.
End PendingRow.

Module PendingSummary.
(** The body of the response. *)
Record t (float : Type) := mk {
  products : list (PendingRow.t float);
  total : Number float
}.
Arguments mk {float}.
Arguments products {float}.
Arguments total {float}.
End PendingSummary.

Section PendingSales.
(** Python's [float]: the conversions [float(Decimal)] and [float(int)], and
    the addition of two floats. *)
Variable float : Type.
Variable float_of_decimal : Z → float.
Variable float_of_int : Z → float.
Variable float_add : float → float → float.

(** [n += x] for a float [x]. *)
Definition add_float (n : Number float) (x : float) : Number float :=
  match n with
  | Int k => Float (float_add (float_of_int k) x)
  | Float y => Float (float_add y x)
  end.

(** The body of the inner loop on the dictionary [agg], which keeps the order
    in which its keys were inserted:
    [if pid not in agg: agg[pid] = {...}] and the two [+=]. *)
Fixpoint agg_add (pid : Value) (p : N * Product.t) (quantity : N) (amount : Z)
    (agg : list (Value * PendingEntry.t float))
  : list (Value * PendingEntry.t float) :=
  match agg with
  | [] =>
      [(pid, PendingEntry.mk p (0 + Z.of_N quantity)
               (add_float (Int 0) (float_of_decimal amount)))]
  | (k, e) :: agg' =>
      if bool_decide (k = pid)
      then (k, PendingEntry.mk (PendingEntry.product e)
                 (PendingEntry.quantity_sold e + Z.of_N quantity)
                 (add_float (PendingEntry.partial_amount e)
                    (float_of_decimal amount))) :: agg'
      else (k, e) :: agg_add pid p quantity amount agg'
  end.

(** [for item in sale.items.all(): ...], with [pid = p.local_id]. *)
Fixpoint pending_items (items : list SaleItem.t)
    (agg : list (Value * PendingEntry.t float))
  : Db (list (Value * PendingEntry.t float)) :=
  match items with
  | [] => ret agg
  | item :: items' =>
      do p <- Product_by_pk (SaleItem.product item);
      do pid <- Product_getattr "local_id" p;
      pending_items items'
        (agg_add pid p (SaleItem.quantity item) (SaleItem.total_price item) agg)
  end.

(** [for sale in sales: ...] *)
Fixpoint pending_sales (sales : list (N * Sale.t))
    (agg : list (Value * PendingEntry.t float)) (total_amount : Number float)
  : Db (list (Value * PendingEntry.t float) * Number float) :=
  match sales with
  | [] => ret (agg, total_amount)
  | sale :: sales' =>
      let total_amount :=
        add_float total_amount (float_of_decimal (Sale.total sale.2)) in
      do items <- read (Sale_items_all sale.1);
      do agg <- pending_items items agg;
      pending_sales sales' agg total_amount
  end.

(** [for pid, data in agg.items(): products.append({...})], with
    [p.local_id] and [p.name]. *)
Fixpoint pending_rows (agg : list (Value * PendingEntry.t float))
  : Db (list (PendingRow.t float)) :=
  match agg with
  | [] => ret []
  | entry :: agg' =>
      let p := PendingEntry.product entry.2 in
      do product_id <- Product_getattr "local_id" p;
      do product_name <- Product_getattr "name" p;
      do rows <- pending_rows agg';
      ret (PendingRow.mk product_id product_name
             (PendingEntry.quantity_sold entry.2)
             (PendingEntry.partial_amount entry.2) :: rows)
  end.

(** [PendingSalesView.get]; [None] is the refusal by [permission_classes]. *)
Definition PendingSalesView_get (request : Request)
  : Store → Store * option (Exception + PendingSummary.t float) :=
  λ st,
    if IsInBusiness request && IsAdmin request then
      let handler :=
        match get_business_for_request request with
        | None => ret (PendingSummary.mk [] (Int 0))
        | Some business =>
            do sales <- read (Sale_objects_filter (λ r, is_pending business r.2));
            do '(agg, total_amount) <- pending_sales sales [] (Int 0);
            do rows <- pending_rows agg;
            ret (PendingSummary.mk rows total_amount)
        end in
      ((handler st).1, Some (handler st).2)
    else (st, None).
End PendingSales.

(** ** ProductViewSet *)

(** [instance.active = ...] on a product. *)
Definition Product_with_active (v : bool) (p : Product.t) : Product.t :=
  Product.mk (Product.business p) (Product.id p) (Product.name p)
    (Product.description p) (Product.qr_code p) (Product.image p)
    (Product.price p) (Product.stock p) (Product.updated_at p) v.

(** [ProductViewSet.get_queryset], as the filter it builds.  [updated_after]
    is what becomes of the query parameter of that name: [None] when it is
    missing or empty, else the result of parsing it with
    [datetime.fromisoformat] or [datetime.fromtimestamp(float(...))], a time
    or the exception the parser raises.  The view swallows [ValueError] and
    [TypeError] and lets any other exception pass. *)
Definition ProductViewSet_get_queryset (request : Request)
    (updated_after : option (Exception + Z)) : Db (Product.t → bool) :=
  match get_business_for_request request with
  | None => ret (λ _, false)
  | Some business =>
      let queryset p := Product.active p && (Product.business p =? business) in
      match updated_after with
      | None => ret queryset
      | Some (inr t) => ret (λ p, queryset p && (t <=? Product.updated_at p))
      | Some (inl ValueError) | Some (inl TypeError) => ret queryset
      | Some (inl e) => raise e
      end
  end.

(** [ProductViewSet.destroy]; [get_object] looks the [id] of the URL up in
    the queryset ([lookup_field = 'id']) and answers 404 outside it. *)
Definition ProductViewSet_destroy (request : Request)
    (updated_after : option (Exception + Z)) (id : Z) : View :=
  dispatch (IsInBusiness request)
    (do queryset <- ProductViewSet_get_queryset request updated_after;
     do found <- try (Product_objects_get
                        (λ p, queryset p && (Z.of_N (Product.id p) =? id)));
     match found with
     | inl DoesNotExist => ret (Resp 404 NoBody)
     | inl e => raise e
     | inr instance =>
         Product_save (instance.1, Product_with_active false instance.2);;
         ret (Resp 204 NoBody)
     end).

(** The parsing of the query parameter leaves [get_queryset] without an
    exception. *)
Definition parses (updated_after : option (Exception + Z)) : bool :=
  match updated_after with
  | Some (inl ValueError) | Some (inl TypeError) => true
  | Some (inl _) => false
  | _ => true
  end.

(** ** More of the small shop *)

(** A request without a user, and the admin of another business. *)
Definition anonymous_request : Request := mkRequest None.

Definition outsider_request : Request :=
  mkRequest (Some (User.mk 3 (Some (UserProfile.mk 2 "admin")))).

(** The shop with two pending sales: 78, the newer one, and 77. *)
Definition shop_two_pending : Store :=
  mkStore (products shop)
    (<[78%N := pending_sale 2500]>
       (<[77%N := Sale.mk 1 5000 900 900 true true (Some 2) true]> ∅))
    [SaleItem.mk 77 10 2 2500; SaleItem.mk 77 11 3 2500;
     SaleItem.mk 78 10 2 2500] 1000.

(** The shop after an admin deleted product 1. *)
Definition shop_destroyed : Store :=
  (ProductViewSet_destroy admin_request None 1 shop).1.

(** A pushed product that comes without a local id. *)
Definition new_product : ProductSyncItem.t :=
  ProductSyncItem.mk 0 "ajo" None None 300 4 5 None None.

#[global] Instance items_refer_dec (st : Store) : Decision (items_refer st).
Proof. unfold items_refer. apply _. Defined.


(** * Properties *)


(** ** What one [save] does to the store *)

Lemma Product_save_result inst st :
  (∃ e, Product_save inst st = (st, inl e))
  ∨ (∃ lid,
       let p' := Product.with_id lid
                   (Product.with_updated_at (now st) inst.2) in
       Product_save inst st
       = (set_products (<[inst.1 := p']> (products st)) st, inr (inst.1, p'))).
Proof.
  destruct inst as [pk p]. unfold Product_save, bind, timezone_now, read. simpl.
  set (q := Product.with_updated_at (now st) p).
  assert (Hsuper : ∀ r : Product.t,
            (∃ e, Product_super_save (pk, r) st = (st, inl e))
            ∨ Product_super_save (pk, r) st
              = (set_products (<[pk := r]> (products st)) st, inr (pk, r))).
  { intros r. unfold Product_super_save, bind, read, write, ret, raise. simpl.
    destruct (product_unique pk r (products st)); [right | left; eauto]; done. }
  destruct (Product.id p =? 0)%N; simpl.
  - destruct (Hsuper (Product.with_id
                        match last_local_id (Product.business p) st with
                        | Some l => (l + 1)%N
                        | None => 1%N
                        end q)) as [[e He] | He].
    + left. exists e. exact He.
    + right. eexists. exact He.
  - destruct (Hsuper q) as [[e He] | He].
    + left. exists e. exact He.
    + right. exists (Product.id p). destruct p; exact He.
Qed.

Lemma Sale_save_result inst st :
  let s' := match sales st !! inst.1 with
            | Some _ => Sale.with_updated_at (now st) inst.2
            | None => Sale.with_created_at (now st)
                        (Sale.with_updated_at (now st) inst.2)
            end in
  Sale_save false inst st
  = (set_sales (<[inst.1 := s']> (sales st)) st, inr (inst.1, s')).
Proof.
  destruct inst as [u s].
  unfold Sale_save, bind, timezone_now, read, write, ret. simpl.
  destruct (sales st !! u); reflexivity.
Qed.

(** ** Rules of the Hoare logic *)

Section Hoare.
Context {A B : Type}.
Implicit Types (P I : Store → Prop).

Lemma hoare_bind P (m : Db A) (k : A → Db B) Q R :
  hoare P m Q →
  (∀ a, hoare (Q (inr a)) (k a) R) →
  (∀ e st, Q (inl e) st → R (inl e) st) →
  hoare P (bind m k) R.
Proof.
  intros Hm Hk He st HP. specialize (Hm st HP). unfold bind.
  destruct (m st) as [st1 [e | a]]; simpl in *; [by apply He | by apply Hk].
Qed.

Lemma hoare_weaken P P' (m : Db A) (Q Q' : Exception + A → Store → Prop) :
  hoare P' m Q' → (∀ st, P st → P' st) → (∀ r st, Q' r st → Q r st) →
  hoare P m Q.
Proof. intros Hm HP HQ st Hst. apply HQ, Hm, HP, Hst. Qed.

Lemma preserves_bind I (m : Db A) (k : A → Db B) :
  preserves I m → (∀ a, preserves I (k a)) → preserves I (bind m k).
Proof. intros Hm Hk. eapply hoare_bind; [exact Hm | exact Hk | done]. Qed.

Lemma preserves_ret I (a : A) : preserves I (ret a).
Proof. by intros st. Qed.

Lemma preserves_raise I e : preserves I (@raise A e).
Proof. by intros st. Qed.

Lemma preserves_read I (f : Store → A) : preserves I (read f).
Proof. by intros st. Qed.

Lemma preserves_try I (m : Db A) : preserves I m → preserves I (try m).
Proof. intros Hm st HI. exact (Hm st HI). Qed.

Lemma preserves_objects_get I (rows : list A) : preserves I (objects_get rows).
Proof. intros st HI. by destruct rows as [| ? [| ? ?]]. Qed.
End Hoare.

Lemma hoare_pre_pure {A} (P : Store → Prop) (φ : Prop) (m : Db A) Q :
  (φ → hoare P m Q) → hoare (λ st, P st ∧ φ) m Q.
Proof. intros H st [HP Hφ]. by apply H. Qed.

Lemma hoare_pre {A} (P P' : Store → Prop) (m : Db A) Q :
  hoare P' m Q → (∀ st, P st → P' st) → hoare P m Q.
Proof. intros H HP st Hst. apply H, HP, Hst. Qed.

Lemma preserves_write I (f : Store → Store) :
  (∀ st, I st → I (f st)) → preserves I (write f).
Proof. intros Hf st HI. by apply Hf. Qed.

Lemma preserves_dispatch I permitted (handler : Db Response) st :
  preserves I handler → I st → I (dispatch permitted handler st).1.
Proof.
  intros Hh HI. unfold dispatch. destruct permitted; [| done].
  specialize (Hh st HI). by destruct (handler st) as [st' [e | r]].
Qed.

(** One syntax-directed step of a proof that a computation keeps an
    invariant. *)
Ltac pres_step :=
  lazymatch goal with
  | |- preserves _ (bind _ _) => apply preserves_bind; [| intros ?]
  | |- preserves _ (ret _) => apply preserves_ret
  | |- preserves _ (raise _) => apply preserves_raise
  | |- preserves _ (read _) => apply preserves_read
  | |- preserves _ timezone_now => apply preserves_read
  | |- preserves _ (try _) => apply preserves_try
  | |- preserves _ (objects_get _) => apply preserves_objects_get
  | |- preserves _ (match ?x with _ => _ end) => destruct x
  end.

Ltac pres :=
  try lazymatch goal with
      | |- hoare ?I ?m (λ _, ?I) => change (preserves I m)
      end;
  repeat pres_step.

(** ** What the queries and the writes of one table keep *)

Section Frames.
Variable I : Store → Prop.

Lemma preserves_Product_objects_get f : preserves I (Product_objects_get f).
Proof. unfold Product_objects_get. pres. Qed.

Lemma preserves_Product_by_pk pk : preserves I (Product_by_pk pk).
Proof. unfold Product_by_pk. pres. Qed.

Lemma preserves_Product_lookups kwargs : preserves I (Product_lookups kwargs).
Proof. induction kwargs as [| [name v] kwargs IH]; simpl; pres. exact IH. Qed.

Lemma preserves_Product_objects_get_by kwargs :
  preserves I (Product_objects_get_by kwargs).
Proof.
  unfold Product_objects_get_by. pres. apply preserves_Product_lookups.
Qed.

Lemma preserves_Product_getattr name r : preserves I (Product_getattr name r).
Proof. unfold Product_getattr. pres. Qed.

Lemma preserves_Sale_objects_get uuid f : preserves I (Sale_objects_get uuid f).
Proof. unfold Sale_objects_get. pres. Qed.

Lemma preserves_validate_product_id request value :
  preserves I (validate_product_id request value).
Proof.
  unfold validate_product_id. pres; apply preserves_Product_objects_get_by.
Qed.

Lemma preserves_all_valid {A} (check : A → Db bool) l :
  (∀ x, preserves I (check x)) → preserves I (all_valid check l).
Proof. intros Hc. induction l as [| x l IH]; simpl; pres; auto. Qed.

Lemma preserves_SaleSyncSerializer_is_valid request data :
  preserves I (SaleSyncSerializer_is_valid request data).
Proof.
  unfold SaleSyncSerializer_is_valid. pres.
  apply preserves_all_valid. intros sale_data.
  unfold SaleSyncItem_is_valid. pres.
  apply preserves_all_valid. intros item.
  unfold SaleItemData_is_valid. pres. apply preserves_validate_product_id.
Qed.

Section SalesBlind.
Hypothesis Hsales : sales_blind I.

Lemma preserves_Sale_save force_insert inst :
  preserves I (Sale_save force_insert inst).
Proof.
  unfold Sale_save. pres; apply preserves_write; intros; apply Hsales; assumption.
Qed.

Lemma preserves_Sale_objects_update_or_create uuid business_id d :
  preserves I (Sale_objects_update_or_create uuid business_id d).
Proof.
  unfold Sale_objects_update_or_create.
  pres; auto using preserves_Sale_objects_get, preserves_Sale_save.
Qed.

Lemma preserves_approve_all_flags l : preserves I (approve_all_flags l).
Proof. induction l; simpl; pres; auto using preserves_Sale_save. Qed.
End SalesBlind.

Section ItemsBlind.
Hypothesis Hitems : items_blind I.

Lemma preserves_SaleItem_objects_create sale product quantity total_price :
  preserves I (SaleItem_objects_create sale product quantity total_price).
Proof.
  unfold SaleItem_objects_create. pres.
  apply preserves_write. intros; apply Hitems; assumption.
Qed.

Lemma preserves_SaleSync_create_items sale business_id items_data :
  preserves I (SaleSync_create_items sale business_id items_data).
Proof.
  induction items_data; simpl; pres;
    auto using preserves_Product_objects_get_by,
               preserves_SaleItem_objects_create.
Qed.
End ItemsBlind.
End Frames.

(** ** Stock is never negative *)

Lemma stock_nonneg_sales_blind : sales_blind stock_nonneg.
Proof. intros st v H. exact H. Qed.

Lemma stock_nonneg_items_blind : items_blind stock_nonneg.
Proof. intros st v H. exact H. Qed.

(** Saving a product whose stock is not negative keeps the invariant, and the
    instance that comes back has the stock that was saved. *)
Lemma Product_save_nonneg inst :
  0 ≤ Product.stock inst.2 →
  hoare stock_nonneg (Product_save inst)
    (λ r st, stock_nonneg st
             ∧ ∀ inst', r = inr inst' → 0 ≤ Product.stock inst'.2).
Proof.
  intros Hstock st Hst.
  destruct (Product_save_result inst st) as [[e ->] | [lid ->]];
    unfold stock_nonneg; simpl.
  - split; [done | intros ? [=]].
  - split.
    + intros pk p. destruct (decide (inst.1 = pk)) as [-> | Hne].
      * rewrite lookup_insert_eq. intros [= <-]. exact Hstock.
      * rewrite lookup_insert_ne by done. apply Hst.
    + intros ? [= <-]. exact Hstock.
Qed.

Lemma preserves_Product_save_nonneg inst :
  0 ≤ Product.stock inst.2 → preserves stock_nonneg (Product_save inst).
Proof.
  intros H. eapply hoare_weaken; [apply (Product_save_nonneg inst H) | done |].
  by intros r st [? _].
Qed.

Lemma Product_by_pk_nonneg pk :
  hoare stock_nonneg (Product_by_pk pk)
    (λ r st, stock_nonneg st ∧ ∀ inst, r = inr inst → 0 ≤ Product.stock inst.2).
Proof.
  intros st Hst. unfold Product_by_pk, bind, read, ret, raise. simpl.
  destruct (products st !! pk) as [p |] eqn:Hp; simpl.
  - split; [done | intros ? [= <-]; exact (Hst _ _ Hp)].
  - split; [done | intros ? [=]].
Qed.

Lemma preserves_SaleSync_reduce_stock items :
  preserves stock_nonneg (SaleSync_reduce_stock items).
Proof.
  induction items as [| item items IH]; simpl; [apply preserves_ret |].
  eapply hoare_bind; [apply Product_by_pk_nonneg | | by intros ? ? [? _]].
  intros p. apply hoare_pre_pure. intros Hp. specialize (Hp p eq_refl).
  apply preserves_bind; [| intros _; exact IH].
  destruct (Z.leb_spec (Z.of_N (SaleItem.quantity item)) (Product.stock p.2));
    pres.
  apply preserves_Product_save_nonneg. simpl. lia.
Qed.

Lemma preserves_approve_items items :
  preserves stock_nonneg (approve_items items).
Proof.
  induction items as [| item items IH]; simpl; [apply preserves_ret |].
  eapply hoare_bind; [apply Product_by_pk_nonneg | | by intros ? ? [? _]].
  intros p. apply hoare_pre_pure. intros Hp. specialize (Hp p eq_refl).
  destruct (Z.leb_spec (Z.of_N (SaleItem.quantity item)) (Product.stock p.2));
    pres; [| exact IH].
  apply preserves_Product_save_nonneg. simpl. lia.
Qed.

Lemma preserves_approve_all_stock l :
  preserves stock_nonneg (approve_all_stock l).
Proof.
  induction l; simpl; pres; auto using preserves_approve_items.
Qed.

(** [SaleViewSet.destroy] adds a stored quantity, which is not negative, to a
    stock that is not negative. *)
Lemma preserves_restore_stock items :
  preserves stock_nonneg (restore_stock items).
Proof.
  induction items as [| item items IH]; simpl; [apply preserves_ret |].
  eapply hoare_bind; [apply Product_by_pk_nonneg | | by intros ? ? [? _]].
  intros p. apply hoare_pre_pure. intros Hp. specialize (Hp p eq_refl).
  pres; [| exact IH].
  apply preserves_Product_save_nonneg. simpl. lia.
Qed.

Lemma hoare_try {A} (P : Store → Prop) (m : Db A) Q :
  hoare P m Q →
  hoare P (try m) (λ r st, ∃ r0, r = inr r0 ∧ Q r0 st).
Proof. intros Hm st HP. exists (m st).2. split; [done | by apply Hm]. Qed.

(** What [update_or_create] returns was written by a [Product.save] of a row
    carrying the [defaults]. *)
Section UpdateOrCreate.
Variable I : Store → Prop.
Variable G : N * Product.t → Store → Prop.
Variable d : ProductDefaults.t.
Hypothesis Hsave : ∀ pk p,
hoare I (Product_save (pk, Product_setattr d p))
  (λ r st, I st ∧ ∀ inst, r = inr inst → G inst st).

Lemma Product_objects_create_hoare kwargs :
hoare I (Product_objects_create kwargs d)
  (λ r st, I st ∧ ∀ inst, r = inr inst → G inst st).
Proof.
unfold Product_objects_create.
eapply hoare_bind; [apply preserves_read | | by intros ? ? ?; split; [| intros ? [=]]].
intros pk.
destruct (Product_init kwargs _) as [e | [r |]];
  [by intros st Hst; split; [| intros ? [=]] | apply Hsave
  | by intros st Hst; split; [| intros ? [=]]].
Qed.

Lemma Product_objects_update_or_create_hoare kwargs :
hoare I (Product_objects_update_or_create kwargs d)
  (λ r st, I st ∧ ∀ inst c, r = inr (inst, c) → G inst st).
Proof.
unfold Product_objects_update_or_create.
set (lookup := Product_objects_get_by _).
assert (Hlookup : preserves I (try lookup))
  by apply preserves_try, preserves_Product_objects_get_by.
set (Q := λ (r : Exception + (N * Product.t) * bool) st,
            I st ∧ ∀ inst : N * Product.t, r = inr (inst, true) → G inst st).
assert (Hfail : ∀ e, hoare I (raise e) Q)
  by (intros e st Hst; split; [done | intros ? [=]]).
assert (Hold : ∀ inst, hoare I (ret (inst, false)) Q)
  by (intros i st Hst; split; [done | intros ? [=]]).
eapply hoare_bind; [exact Hlookup | | by intros ? ? ?; split; [| intros ? ? [=]]].
intros found.
eapply hoare_bind with (Q := Q).
- destruct found as [[] | inst]; try apply Hfail; [| apply Hold].
  eapply hoare_bind;
    [apply hoare_try, Product_objects_create_hoare | |
     by intros ? ? (? & [=] & _)].
  intros [e | inst].
  + eapply hoare_pre with (P' := I); [| by intros st (r0 & _ & Hst & _)].
    destruct e; try apply Hfail.
    eapply hoare_bind; [exact Hlookup | | by intros ? ? ?; split; [| intros ? [=]]].
    intros [[] | inst]; try apply Hfail. apply Hold.
  + intros st (r0 & [= <-] & Hst & Hmade). split; [done |].
    intros ? [= <-]. by apply Hmade.
- intros [inst created]. destruct created.
  + intros st [Hst Hi]. split; [done |]. intros ? ? [= <- <-]. by apply Hi.
  + eapply hoare_pre with (P' := I); [| by intros st [Hst _]].
    eapply hoare_bind; [apply Hsave | |
                        by intros ? ? [? _]; split; [| intros ? ? [=]]].
    intros inst' st [Hst Hi]. split; [done |]. intros ? ? [= <- <-].
    by apply Hi.
- intros e st [Hst _]. split; [done | intros ? ? [=]].
Qed.
End UpdateOrCreate.

Lemma Product_objects_update_or_create_nonneg kwargs d :
  0 ≤ ProductDefaults.stock d →
  hoare stock_nonneg (Product_objects_update_or_create kwargs d)
    (λ r st, stock_nonneg st
             ∧ ∀ inst c, r = inr (inst, c) → 0 ≤ Product.stock inst.2).
Proof.
  intros Hd.
  apply (Product_objects_update_or_create_hoare stock_nonneg
           (λ inst _, 0 ≤ Product.stock inst.2)).
  intros pk p. by apply Product_save_nonneg.
Qed.

Section ProductSyncInvariant.
Variable b64decode : string → option string.

Lemma preserves_ProductSync_item business_id item :
  0 ≤ ProductSyncItem.stock item →
  preserves stock_nonneg (ProductSync_item b64decode business_id item).
Proof.
  intros Hstock. unfold ProductSync_item.
  eapply hoare_bind;
    [by apply Product_objects_update_or_create_nonneg | | by intros ? ? [? _]].
  intros [product created]. apply hoare_pre_pure. intros Hp.
  specialize (Hp product created eq_refl).
  pres. apply preserves_Product_save_nonneg. exact Hp.
Qed.

Lemma preserves_ProductSync_loop business_id items :
  Forall (λ item, 0 ≤ ProductSyncItem.stock item) items →
  preserves stock_nonneg (ProductSync_loop b64decode business_id items).
Proof.
  induction 1; simpl; pres; auto using preserves_ProductSync_item.
Qed.

Lemma ProductSyncSerializer_is_valid_stock data :
  ProductSyncSerializer_is_valid data = true →
  Forall (λ item, 0 ≤ ProductSyncItem.stock item)
         (map ProductSyncItem_validated data).
Proof.
  unfold ProductSyncSerializer_is_valid. intros [Hall _]%andb_prop.
  rewrite forallb_forall in Hall. apply Forall_forall.
  intros item' Hin%list_elem_of_In.
  apply in_map_iff in Hin as [item [<- Hin]]. specialize (Hall item Hin).
  unfold ProductSyncItem_is_valid in Hall. simpl.
  apply andb_prop in Hall as [[_ Hs]%andb_prop _]. lia.
Qed.

Lemma preserves_ProductSyncView_post request data st :
  stock_nonneg st →
  stock_nonneg (ProductSyncView_post b64decode request data st).1.
Proof.
  unfold ProductSyncView_post. apply preserves_dispatch.
  destruct (ProductSyncSerializer_is_valid data) eqn:Hvalid; simpl; pres.
  unfold ProductSyncSerializer_create. pres.
  apply preserves_ProductSync_loop.
  by apply ProductSyncSerializer_is_valid_stock.
Qed.
End ProductSyncInvariant.

Lemma preserves_SaleSync_sale request_user business_id is_worker sale_data :
  preserves stock_nonneg
    (SaleSync_sale request_user business_id is_worker sale_data).
Proof.
  unfold SaleSync_sale. pres;
    auto using preserves_Sale_objects_update_or_create,
               preserves_SaleSync_create_items, preserves_SaleSync_reduce_stock,
               stock_nonneg_sales_blind, stock_nonneg_items_blind.
Qed.

Lemma preserves_SaleSync_loop request_user business_id is_worker sales_data :
  preserves stock_nonneg
    (SaleSync_loop request_user business_id is_worker sales_data).
Proof.
  induction sales_data; simpl; pres; auto using preserves_SaleSync_sale.
Qed.

Lemma preserves_SaleSyncView_post request data st :
  stock_nonneg st → stock_nonneg (SaleSyncView_post request data st).1.
Proof.
  unfold SaleSyncView_post. apply preserves_dispatch.
  pres; auto using preserves_SaleSyncSerializer_is_valid.
  unfold SaleSyncSerializer_create. pres. apply preserves_SaleSync_loop.
Qed.

Lemma preserves_ApproveSaleView_post request uuid st :
  stock_nonneg st → stock_nonneg (ApproveSaleView_post request uuid st).1.
Proof.
  unfold ApproveSaleView_post. apply preserves_dispatch.
  pres; auto using preserves_Sale_objects_get, preserves_approve_items,
                   preserves_Sale_save, stock_nonneg_sales_blind.
Qed.

Lemma preserves_ApproveAllPendingView_post request st :
  stock_nonneg st → stock_nonneg (ApproveAllPendingView_post request st).1.
Proof.
  unfold ApproveAllPendingView_post. apply preserves_dispatch.
  pres; auto using preserves_approve_all_stock, preserves_approve_all_flags,
                   stock_nonneg_sales_blind.
Qed.

Lemma preserves_RejectAllPendingView_post request st :
  stock_nonneg st → stock_nonneg (RejectAllPendingView_post request st).1.
Proof.
  unfold RejectAllPendingView_post. apply preserves_dispatch.
  pres. apply preserves_write. intros; by apply stock_nonneg_sales_blind.
Qed.

Lemma preserves_RejectSaleView_post request uuid st :
  stock_nonneg st → stock_nonneg (RejectSaleView_post request uuid st).1.
Proof.
  unfold RejectSaleView_post. apply preserves_dispatch.
  pres; auto using preserves_Sale_objects_get, preserves_Sale_save,
                   stock_nonneg_sales_blind.
Qed.

Lemma preserves_SaleViewSet_reactivate request uuid st :
  stock_nonneg st → stock_nonneg (SaleViewSet_reactivate request uuid st).1.
Proof.
  unfold SaleViewSet_reactivate. apply preserves_dispatch.
  pres; auto using preserves_Sale_objects_get, preserves_Sale_save,
                   stock_nonneg_sales_blind.
Qed.

Lemma preserves_SaleViewSet_destroy request include_inactive uuid st :
  stock_nonneg st →
  stock_nonneg (SaleViewSet_destroy request include_inactive uuid st).1.
Proof.
  unfold SaleViewSet_destroy. apply preserves_dispatch.
  pres; auto using preserves_Sale_objects_get, preserves_restore_stock,
                   preserves_Sale_save, stock_nonneg_sales_blind.
Qed.

Section RunFacts.
Variable b64decode : string → option string.

Lemma run_stock_nonneg op st : stock_nonneg st → stock_nonneg (run b64decode op st).1.
Proof.
  destruct op; simpl;
    auto using preserves_ProductSyncView_post, preserves_SaleSyncView_post,
               preserves_ApproveSaleView_post,
               preserves_ApproveAllPendingView_post,
               preserves_RejectSaleView_post,
               preserves_RejectAllPendingView_post,
               preserves_SaleViewSet_destroy, preserves_SaleViewSet_reactivate.
Qed.

End RunFacts.

(** ** Queries *)

Lemma elem_of_insert_desc r x l : x ∈ insert_desc r l ↔ x = r ∨ x ∈ l.
Proof.
  induction l as [| y l IH]; simpl.
  - rewrite list_elem_of_singleton, elem_of_nil. tauto.
  - destruct (Sale.created_at y.2 <? Sale.created_at r.2);
      rewrite !elem_of_cons; [done |]. rewrite IH. tauto.
Qed.

Lemma elem_of_order_by_created_at_desc x l :
  x ∈ order_by_created_at_desc l ↔ x ∈ l.
Proof.
  induction l as [| y l IH]; simpl; [done |].
  rewrite elem_of_insert_desc, IH, elem_of_cons. tauto.
Qed.

Lemma elem_of_Sale_objects_filter f st uuid s :
  (uuid, s) ∈ Sale_objects_filter f st ↔ sales st !! uuid = Some s ∧ f (uuid, s) = true.
Proof.
  unfold Sale_objects_filter.
  rewrite elem_of_order_by_created_at_desc, list_elem_of_In, filter_In.
  rewrite <- list_elem_of_In, elem_of_map_to_list. tauto.
Qed.

Lemma has_role_IsInBusiness r request :
  has_role r request = true → IsInBusiness request = true.
Proof.
  unfold has_role, IsInBusiness. destruct (request_profile request); [| done].
  intros _. apply bool_decide_eq_true. eauto.
Qed.

(** ** Reactivation *)

(** C10. For an admin and a sale of the admin's business: when the sale is
    inactive, [reactivate] stores the sale with [active = true] (and the
    time of the save), leaves every other field, every product and every line
    item as they were, and asks nothing about [pending_approval], so that a
    rejected pending sale is again among the active pending sales of the
    business; when the sale is active already, the store is left untouched and
    the answer says that the sale is already active. *)
Theorem reactivate_inactive_sale (request : Request) (uuid : N) (s : Sale.t)
    (st : Store) :
  has_role "admin" request = true →
  sales st !! uuid = Some s →
  get_business_for_request request = Some (Sale.business s) →
  let st' := (SaleViewSet_reactivate request uuid st).1 in
  let response := (SaleViewSet_reactivate request uuid st).2 in
  let s' := Sale.with_updated_at (now st) (Sale.with_active true s) in
  products st' = products st
  ∧ sale_items st' = sale_items st
  ∧ (Sale.active s = true →
     st' = st ∧ response = Resp 200 (Message "La venta ya está activa"))
  ∧ (Sale.active s = false →
     sales st' = <[uuid := s']> (sales st)
     ∧ response = Resp 200 (SaleData (uuid, s'))
     ∧ Sale.active s' = true
     ∧ Sale.pending_approval s' = Sale.pending_approval s
     ∧ (Sale.pending_approval s = true →
        (uuid, s') ∈ Sale_objects_filter
                       (λ r, is_pending (Sale.business s) r.2) st')).
Proof.
  intros Hadmin Hs Hb.
  assert (Hrun : SaleViewSet_reactivate request uuid st
                 = if Sale.active s
                   then (st, Resp 200 (Message "La venta ya está activa"))
                   else (set_sales
                           (<[uuid := Sale.with_updated_at (now st)
                                        (Sale.with_active true s)]> (sales st)) st,
                         Resp 200
                           (SaleData (uuid, Sale.with_updated_at (now st)
                                              (Sale.with_active true s))))).
  { unfold SaleViewSet_reactivate, dispatch.
    rewrite (has_role_IsInBusiness _ _ Hadmin), Hadmin. simpl.
    unfold bind at 1. unfold try, Sale_objects_get, bind, read, ret. simpl.
    rewrite Hs, Hb, bool_decide_eq_true_2 by done. simpl.
    destruct (Sale.active s); [done |].
    pose proof (Sale_save_result (uuid, Sale.with_active true s) st) as Hsave.
    simpl in Hsave. rewrite Hs in Hsave. unfold bind. by rewrite Hsave. }
  rewrite Hrun. destruct (Sale.active s) eqn:Hact; simpl.
  - repeat split; done.
  - repeat split; try done.
    intros Hpend. apply elem_of_Sale_objects_filter. simpl. split.
    + apply lookup_insert_eq.
    + unfold is_pending. simpl. rewrite Hpend, Z.eqb_refl. done.
Qed.

(** ** Running a computation step by step *)

Lemma bind_inr {A B} (m : Db A) (k : A → Db B) st st' a :
  m st = (st', inr a) → bind m k st = k a st'.
Proof. intros H. unfold bind. by rewrite H. Qed.

Lemma bind_inl {A B} (m : Db A) (k : A → Db B) st st' e :
  m st = (st', inl e) → bind m k st = (st', inl e).
Proof. intros H. unfold bind. by rewrite H. Qed.

Lemma try_run {A} (m : Db A) st st' r :
  m st = (st', r) → try m st = (st', inr r).
Proof. intros H. unfold try. by rewrite H. Qed.

Lemma bind_inv {A B} (m : Db A) (k : A → Db B) st st' r :
  bind m k st = (st', r) →
  (∃ st1 a, m st = (st1, inr a) ∧ k a st1 = (st', r))
  ∨ (∃ e, m st = (st', inl e) ∧ r = inl e).
Proof.
  unfold bind. destruct (m st) as [st1 [e | a]]; intros H.
  - right. exists e. by injection H as <- <-.
  - left. eauto.
Qed.

Lemma bind_inv_inr {A B} (m : Db A) (k : A → Db B) st st' b :
  bind m k st = (st', inr b) →
  ∃ st1 a, m st = (st1, inr a) ∧ k a st1 = (st', inr b).
Proof. intros [H | (e & _ & [=])]%bind_inv; exact H. Qed.

Lemma bind_ext {A B} (m : Db A) (k k' : A → Db B) st :
  (∀ a st', k a st' = k' a st') → bind m k st = bind m k' st.
Proof. intros H. unfold bind. by destruct (m st) as [st' [e | a]]. Qed.

Lemma bind_ext_l {A B} (m m' : Db A) (k : A → Db B) st :
  m st = m' st → bind m k st = bind m' k st.
Proof. intros H. unfold bind. by rewrite H. Qed.

(** A computation that keeps every invariant leaves the store as it is. *)
Lemma preserves_all_unchanged {A} (m : Db A) st :
  (∀ I, preserves I m) → (m st).1 = st.
Proof. intros H. by apply (H (λ s, s = st)). Qed.

Lemma Sale_objects_get_run uuid f st :
  Sale_objects_get uuid f st
  = (st, match sales st !! uuid with
         | Some s => if f s then inr (uuid, s) else inl DoesNotExist
         | None => inl DoesNotExist
         end).
Proof.
  unfold Sale_objects_get, bind, read. simpl.
  destruct (sales st !! uuid) as [s |]; [destruct (f s) |]; reflexivity.
Qed.

Lemma Product_objects_get_run f st :
  Product_objects_get f st
  = (st, match Product_objects_filter f st with
         | [] => inl DoesNotExist
         | [r] => inr r
         | _ => inl MultipleObjectsReturned
         end).
Proof.
  unfold Product_objects_get. erewrite bind_inr; [| reflexivity].
  by destruct (Product_objects_filter f st) as [| r [| ? ?]].
Qed.

Lemma Product_by_pk_inv pk st st' inst :
  Product_by_pk pk st = (st', inr inst) →
  st' = st ∧ inst.1 = pk ∧ products st !! pk = Some inst.2.
Proof.
  unfold Product_by_pk, bind, read. simpl.
  destruct (products st !! pk); intros [= <- <-]; done.
Qed.

Lemma Product_save_inv inst st st' inst' :
  Product_save inst st = (st', inr inst') →
  ∃ lid,
    inst' = (inst.1, Product.with_id lid
                       (Product.with_updated_at (now st) inst.2))
    ∧ st' = set_products (<[inst.1 := inst'.2]> (products st)) st.
Proof.
  destruct (Product_save_result inst st) as [[e ->] | [lid ->]]; [done |].
  intros [= <- <-]. by exists lid.
Qed.

(** ** The upsert of a sale *)

(** The row exists for the business: the update branch runs, and the row is
    overwritten with the [defaults]. *)
Lemma Sale_objects_update_or_create_existing uuid business_id d st s :
  sales st !! uuid = Some s →
  Sale.business s = business_id →
  let s' := Sale.with_updated_at (now st) (Sale_setattr d s) in
  Sale_objects_update_or_create uuid business_id d st
  = (set_sales (<[uuid := s']> (sales st)) st, inr ((uuid, s'), false)).
Proof.
  intros Hs Hb. unfold Sale_objects_update_or_create.
  erewrite bind_inr; [| apply try_run, Sale_objects_get_run].
  rewrite Hs, Hb, Z.eqb_refl.
  erewrite bind_inr; [| reflexivity]. simpl.
  erewrite bind_inr; [| apply Sale_save_result]. simpl. by rewrite Hs.
Qed.

Lemma Sale_save_insert_existing inst st :
  is_Some (sales st !! inst.1) →
  Sale_save true inst st = (st, inl IntegrityError).
Proof.
  intros [s Hs]. unfold Sale_save, bind, timezone_now, read. simpl.
  by rewrite Hs.
Qed.

(** The uuid is the primary key of a sale of another business: the insert
    fails and nothing is written. *)
Lemma Sale_objects_update_or_create_foreign uuid business_id d st s :
  sales st !! uuid = Some s →
  Sale.business s ≠ business_id →
  Sale_objects_update_or_create uuid business_id d st = (st, inl IntegrityError).
Proof.
  intros Hs Hb. apply Z.eqb_neq in Hb. unfold Sale_objects_update_or_create.
  erewrite bind_inr; [| apply try_run, Sale_objects_get_run].
  rewrite Hs, Hb.
  erewrite bind_inl; [reflexivity |].
  erewrite bind_inr; [| apply try_run, Sale_save_insert_existing; simpl; eauto].
  lazy beta iota.
  erewrite bind_inr; [| apply try_run, Sale_objects_get_run].
  by rewrite Hs, Hb.
Qed.

Lemma Sale_save_insert_new uuid s st :
  sales st !! uuid = None →
  let s' := Sale.with_created_at (now st) (Sale.with_updated_at (now st) s) in
  Sale_save true (uuid, s) st
  = (set_sales (<[uuid := s']> (sales st)) st, inr (uuid, s')).
Proof.
  intros Hs. unfold Sale_save, bind, timezone_now, read, write, ret. simpl.
  by rewrite Hs.
Qed.

Lemma Sale_objects_update_or_create_new uuid business_id d st :
  sales st !! uuid = None →
  let s' := Sale.with_created_at (now st)
              (Sale.with_updated_at (now st)
                 (Sale_setattr d
                    (Sale.mk business_id 0 0 0 false true None false))) in
  Sale_objects_update_or_create uuid business_id d st
  = (set_sales (<[uuid := s']> (sales st)) st, inr ((uuid, s'), true)).
Proof.
  intros Hs. unfold Sale_objects_update_or_create.
  erewrite bind_inr; [| apply try_run, Sale_objects_get_run].
  rewrite Hs.
  erewrite bind_inr;
    [| erewrite bind_inr; [| by apply try_run, Sale_save_insert_new];
       reflexivity].
  reflexivity.
Qed.

Lemma Sale_items_all_new uuid st :
  sale_items_fk st → sales st !! uuid = None → Sale_items_all uuid st = [].
Proof.
  intros Hfk Hnew. unfold Sale_items_all.
  destruct (List.filter _ _) as [| i l] eqn:Hfilter; [done |].
  assert (Hin : In i (List.filter (λ i, (SaleItem.sale i =? uuid)%N) (sale_items st)))
    by (rewrite Hfilter; by left).
  apply filter_In in Hin as [Hin Heq%N.eqb_eq].
  unfold sale_items_fk in Hfk. rewrite Forall_forall in Hfk.
  destruct (Hfk i) as [s Hs]; [by apply list_elem_of_In |]. congruence.
Qed.


(** ** Queries that name [local_id] *)

(** [class Product] declares no field [local_id]: a query with that keyword
    raises [FieldError] before it reads a row. *)
Lemma Product_objects_get_by_local_id v kwargs st :
  Product_objects_get_by (("local_id", v) :: kwargs) st = (st, inl FieldError).
Proof. reflexivity. Qed.

Lemma validate_product_id_run request value st :
  validate_product_id request value st
  = (st, if has_business request then inl FieldError else inr false).
Proof.
  unfold validate_product_id, has_business.
  destruct (get_business_for_request request) as [business_id |]; [| done].
  destruct (business_id =? 0); [done |].
  simpl negb. cbv iota.
  erewrite bind_inr; [| apply try_run, Product_objects_get_by_local_id].
  reflexivity.
Qed.

Lemma SaleItemData_is_valid_run request item st :
  SaleItemData_is_valid request item st
  = (st, if has_business request then inl FieldError else inr false).
Proof.
  unfold SaleItemData_is_valid, bind. rewrite validate_product_id_run.
  by destruct (has_business request).
Qed.

Lemma all_valid_items_run request items st :
  all_valid (SaleItemData_is_valid request) items st
  = (st, if has_business request && negb (bool_decide (items = []))
         then inl FieldError else inr (bool_decide (items = []))).
Proof.
  induction items as [| item items IH]; [by rewrite andb_false_r |].
  simpl all_valid. unfold bind at 1. rewrite SaleItemData_is_valid_run.
  destruct (has_business request); [done |].
  unfold bind. rewrite IH. reflexivity.
Qed.

Lemma SaleSyncItem_is_valid_run request sale_data st :
  SaleSyncItem_is_valid request sale_data st
  = (st, if has_business request && has_item sale_data then inl FieldError
         else inr (bare_record sale_data)).
Proof.
  unfold SaleSyncItem_is_valid, bind, has_item, bare_record.
  rewrite all_valid_items_run.
  destruct (has_business request && _); [done |]. unfold ret. do 2 f_equal.
  rewrite Z.leb_antisym, negb_involutive.
  destruct (bool_decide _), (0 <? _), (decimal_10_2 _); reflexivity.
Qed.

Lemma all_valid_sales_run request data st :
  all_valid (SaleSyncItem_is_valid request) data st
  = (st, if has_business request && existsb has_item data then inl FieldError
         else inr (forallb bare_record data)).
Proof.
  induction data as [| sale_data data IH]; [by rewrite andb_false_r |].
  simpl all_valid. unfold bind at 1. rewrite SaleSyncItem_is_valid_run.
  simpl existsb. simpl forallb.
  destruct (has_business request); simpl andb.
  - destruct (has_item sale_data); [done |]. simpl.
    unfold bind. rewrite IH. simpl. by destruct (existsb has_item data).
  - unfold bind. rewrite IH. reflexivity.
Qed.

(** What [is_valid] answers for a sale push: [FieldError] as soon as the user
    has a business and a pushed sale has a line item; otherwise the push is
    valid when it is not empty and every record is a bare one. *)
Lemma SaleSyncSerializer_is_valid_run request data st :
  SaleSyncSerializer_is_valid request data st
  = (st, if has_business request && existsb has_item data then inl FieldError
         else inr (forallb bare_record data && negb (bool_decide (data = [])))).
Proof.
  unfold SaleSyncSerializer_is_valid, bind. rewrite all_valid_sales_run.
  by destruct (has_business request && _).
Qed.

Lemma has_business_IsInBusiness request :
  has_business request = true → IsInBusiness request = true.
Proof.
  unfold has_business, get_business_for_request, IsInBusiness.
  destruct (request_profile request); [| done]. intros _.
  apply bool_decide_eq_true. eauto.
Qed.

Lemma has_business_profile request :
  has_business request = true ↔
  ∃ profile, request_profile request = Some profile
             ∧ UserProfile.business_id profile ≠ 0.
Proof.
  unfold has_business, get_business_for_request.
  destruct (request_profile request) as [profile |]; simpl.
  - rewrite negb_true_iff, Z.eqb_neq. split; [eauto |].
    by intros (? & [= <-] & ?).
  - split; [done |]. by intros (? & ? & ?).
Qed.

(** A sale push in which a record has a line item ends in [FieldError],
    raised by [is_valid] outside the [try] of the view, and writes nothing. *)
Lemma SaleSyncView_post_with_item request data st :
  has_business request = true →
  existsb has_item data = true →
  SaleSyncView_post request data st = (st, Unhandled FieldError).
Proof.
  intros Hb Hitem. unfold SaleSyncView_post, dispatch.
  rewrite (has_business_IsInBusiness _ Hb).
  unfold bind. rewrite SaleSyncSerializer_is_valid_run, Hb, Hitem. reflexivity.
Qed.

(** ** The body of the loop of a sale push *)

Lemma SaleSync_create_items_run sale business_id items_data st :
  SaleSync_create_items sale business_id items_data st
  = (st, match items_data with [] => inr tt | _ :: _ => inl FieldError end).
Proof. by destruct items_data. Qed.

(** The uuid is new. *)
Lemma SaleSync_sale_new request_user business_id is_worker sale_data st :
  sales st !! SaleSyncItem.uuid sale_data = None →
  Sale_items_all (SaleSyncItem.uuid sale_data) st = [] →
  let uuid := SaleSyncItem.uuid sale_data in
  let s := upserted request_user business_id is_worker (now st) sale_data None in
  SaleSync_sale request_user business_id is_worker sale_data st
  = (set_sales (<[uuid := s]> (sales st)) st,
     if has_item sale_data then inl FieldError else inr (uuid, s)).
Proof.
  intros Hnew Hitems. unfold SaleSync_sale.
  erewrite bind_inr; [| by apply Sale_objects_update_or_create_new].
  cbv beta iota. unfold has_item.
  destruct (SaleSyncItem.items_data sale_data) as [| item items_data] eqn:Hdata.
  - simpl bool_decide. simpl negb. cbv iota.
    erewrite bind_inr; [reflexivity |].
    erewrite bind_inr; [| reflexivity]. simpl.
    destruct is_worker; simpl; [done |].
    unfold bind, read. simpl.
    change (Sale_items_all (SaleSyncItem.uuid sale_data) _)
      with (Sale_items_all (SaleSyncItem.uuid sale_data) st).
    by rewrite Hitems.
  - erewrite bind_inl; [reflexivity |].
    erewrite bind_inl; reflexivity.
Qed.

(** The uuid is the key of a sale of the business. *)
Lemma SaleSync_sale_existing request_user business_id is_worker sale_data st s :
  sales st !! SaleSyncItem.uuid sale_data = Some s →
  Sale.business s = business_id →
  let uuid := SaleSyncItem.uuid sale_data in
  let s' := upserted request_user business_id is_worker (now st) sale_data
              (Some s) in
  SaleSync_sale request_user business_id is_worker sale_data st
  = (set_sales (<[uuid := s']> (sales st)) st, inr (uuid, s')).
Proof.
  intros Hs Hb. unfold SaleSync_sale.
  erewrite bind_inr; [| by apply Sale_objects_update_or_create_existing].
  reflexivity.
Qed.

(** The uuid is the key of a sale of another business. *)
Lemma SaleSync_sale_foreign request_user business_id is_worker sale_data st s :
  sales st !! SaleSyncItem.uuid sale_data = Some s →
  Sale.business s ≠ business_id →
  SaleSync_sale request_user business_id is_worker sale_data st
  = (st, inl IntegrityError).
Proof.
  intros Hs Hb. unfold SaleSync_sale.
  erewrite bind_inl; [reflexivity |].
  by eapply Sale_objects_update_or_create_foreign.
Qed.

(** ** What a sale push leaves alone *)

Lemma sales_only_refl st : sales_only st st.
Proof. by repeat split. Qed.

Lemma sales_only_trans st1 st2 st3 :
  sales_only st1 st2 → sales_only st2 st3 → sales_only st1 st3.
Proof.
  intros (? & ? & ? & ?) (? & ? & ? & ?).
  repeat split; [congruence .. | set_solver].
Qed.

Lemma sales_only_insert uuid s st :
  sales_only st (set_sales (<[uuid := s]> (sales st)) st).
Proof. repeat split. simpl. set_solver. Qed.

Lemma sales_only_fk st st' :
  sales_only st st' → sale_items_fk st → sale_items_fk st'.
Proof.
  intros (_ & Hitems & _ & Hdom). unfold sale_items_fk. rewrite Hitems.
  intros Hfk. eapply Forall_impl; [exact Hfk |].
  intros i Hi. apply elem_of_dom, Hdom, elem_of_dom, Hi.
Qed.

Lemma SaleSync_sale_sales_only request_user business_id is_worker sale_data st :
  sale_items_fk st →
  sales_only st (SaleSync_sale request_user business_id is_worker sale_data st).1.
Proof.
  intros Hfk.
  destruct (sales st !! SaleSyncItem.uuid sale_data) as [s |] eqn:Hs.
  - destruct (decide (Sale.business s = business_id)) as [Hb | Hb].
    + erewrite SaleSync_sale_existing by done. apply sales_only_insert.
    + erewrite SaleSync_sale_foreign by done. apply sales_only_refl.
  - rewrite SaleSync_sale_new by eauto using Sale_items_all_new.
    apply sales_only_insert.
Qed.

Lemma SaleSync_loop_sales_only request_user business_id is_worker sales_data st :
  sale_items_fk st →
  sales_only st
    (SaleSync_loop request_user business_id is_worker sales_data st).1.
Proof.
  revert st. induction sales_data as [| sale_data sales_data IH]; intros st Hfk.
  { apply sales_only_refl. }
  pose proof (SaleSync_sale_sales_only request_user business_id is_worker
                sale_data st Hfk) as Hstep.
  simpl SaleSync_loop. unfold bind at 1.
  destruct (SaleSync_sale _ _ _ sale_data st) as [st1 [e | sale]]; [done |].
  simpl in Hstep.
  specialize (IH st1 (sales_only_fk _ _ Hstep Hfk)).
  unfold bind. 
  destruct (SaleSync_loop _ _ _ sales_data st1) as [st2 [e | synced]];
    simpl in *; eauto using sales_only_trans.
Qed.

Lemma SaleSyncSerializer_create_sales_only request data st :
  sale_items_fk st → sales_only st (SaleSyncSerializer_create request data st).1.
Proof.
  intros Hfk. unfold SaleSyncSerializer_create.
  destruct (request_profile request) as [profile |]; [| apply sales_only_refl].
  destruct (_ =? 0); [apply sales_only_refl |].
  by apply SaleSync_loop_sales_only.
Qed.

(** A sale push writes to the table of sales only, and deletes none. *)
Lemma SaleSyncView_post_sales_only request data st :
  sale_items_fk st → sales_only st (SaleSyncView_post request data st).1.
Proof.
  intros Hfk. unfold SaleSyncView_post, dispatch.
  destruct (IsInBusiness request); [| apply sales_only_refl].
  unfold bind at 1. rewrite SaleSyncSerializer_is_valid_run.
  destruct (has_business request && _); [apply sales_only_refl |].
  destruct (negb _); [apply sales_only_refl |].
  pose proof (SaleSyncSerializer_create_sales_only request data st Hfk) as H.
  unfold bind, try, timezone_now, read, ret.
  destruct (SaleSyncSerializer_create request data st) as [st' [e | synced]];
    exact H.
Qed.

(** ** A push of sales without line items *)

Lemma upserted_total request_user business is_worker t sale_data old :
  Sale.total (upserted request_user business is_worker t sale_data old)
  = SaleSyncItem.total sale_data.
Proof. by destruct old. Qed.

Lemma bare_record_no_item sale_data :
  bare_record sale_data = true → has_item sale_data = false.
Proof.
  unfold bare_record, has_item.
  intros [[Hnil _]%andb_prop _]%andb_prop. by rewrite Hnil.
Qed.

(** One record without line items, whose uuid is free or belongs to the
    business: the row is created or overwritten. *)
Lemma SaleSync_sale_bare request_user business_id is_worker sale_data st :
  sale_items_fk st →
  bare_record sale_data = true →
  uuid_available business_id st (SaleSyncItem.uuid sale_data) →
  let uuid := SaleSyncItem.uuid sale_data in
  let s := upserted request_user business_id is_worker (now st) sale_data
             (sales st !! uuid) in
  SaleSync_sale request_user business_id is_worker sale_data st
  = (set_sales (<[uuid := s]> (sales st)) st, inr (uuid, s)).
Proof.
  intros Hfk Hbare Hfree. simpl.
  destruct (sales st !! SaleSyncItem.uuid sale_data) as [s |] eqn:Hs.
  - by apply SaleSync_sale_existing, Hfree.
  - rewrite SaleSync_sale_new by eauto using Sale_items_all_new.
    by rewrite bare_record_no_item.
Qed.

Lemma SaleSync_loop_bare request_user business_id is_worker sales_data st :
  sale_items_fk st →
  Forall (λ sale_data, bare_record sale_data = true) sales_data →
  NoDup (SaleSyncItem.uuid <$> sales_data) →
  Forall (λ sale_data,
            uuid_available business_id st (SaleSyncItem.uuid sale_data))
         sales_data →
  let row sale_data :=
    upserted request_user business_id is_worker (now st) sale_data
      (sales st !! SaleSyncItem.uuid sale_data) in
  ∃ st',
    SaleSync_loop request_user business_id is_worker sales_data st
    = (st', inr ((λ sale_data, (SaleSyncItem.uuid sale_data, row sale_data))
                   <$> sales_data))
    ∧ sales_only st st'
    ∧ (∀ sale_data, sale_data ∈ sales_data →
         sales st' !! SaleSyncItem.uuid sale_data = Some (row sale_data))
    ∧ (∀ uuid, uuid ∉ SaleSyncItem.uuid <$> sales_data →
         sales st' !! uuid = sales st !! uuid).
Proof.
  revert st. induction sales_data as [| sale_data sales_data IH];
    intros st Hfk Hbare Hdup Hfree row.
  { exists st. split; [done |]. split; [apply sales_only_refl |].
    split; [| done]. by intros ? ?%elem_of_nil. }
  apply Forall_cons in Hbare as [Hbare Hbares].
  apply Forall_cons in Hfree as [Hfree Hfrees].
  rewrite fmap_cons in Hdup. apply NoDup_cons in Hdup as [Hnotin Hdup].
  pose proof (SaleSync_sale_bare request_user business_id is_worker sale_data st
                Hfk Hbare Hfree) as Hstep. simpl in Hstep.
  set (st1 := set_sales (<[SaleSyncItem.uuid sale_data := row sale_data]>
                           (sales st)) st) in *.
  assert (Hother : ∀ d, d ∈ sales_data →
            sales st1 !! SaleSyncItem.uuid d = sales st !! SaleSyncItem.uuid d).
  { intros d Hd. simpl. apply lookup_insert_ne. intros Heq. apply Hnotin.
    rewrite Heq. by apply list_elem_of_fmap_2. }
  destruct (IH st1) as (st' & Hrun & Honly & Hin & Hout).
  - eapply sales_only_fk; [apply sales_only_insert | done].
  - done.
  - done.
  - rewrite Forall_forall in Hfrees. apply Forall_forall. intros d Hd s.
    rewrite (Hother d Hd). by apply Hfrees.
  - exists st'. split; [| split; [| split]].
    + simpl SaleSync_loop. erewrite bind_inr; [| exact Hstep].
      erewrite bind_inr; [| exact Hrun]. unfold ret. rewrite fmap_cons.
      do 3 f_equal. apply list_fmap_ext. intros _ d Hd%list_elem_of_lookup_2.
      unfold row. by rewrite (Hother d Hd).
    + eapply sales_only_trans; [apply sales_only_insert | exact Honly].
    + intros d [-> | Hd]%elem_of_cons.
      * rewrite Hout by done. apply lookup_insert_eq.
      * rewrite (Hin d Hd). unfold row. by rewrite (Hother d Hd).
    + intros uuid [Hne Hnotin']%not_elem_of_cons.
      rewrite (Hout uuid Hnotin'). simpl. by apply lookup_insert_ne.
Qed.

(** The push through the view: [201], with the rows as they were stored. *)
Lemma SaleSyncView_post_bare request profile data st :
  request_profile request = Some profile →
  UserProfile.business_id profile ≠ 0 →
  sale_items_fk st →
  data ≠ [] →
  Forall (λ sale_data, bare_record sale_data = true) data →
  NoDup (SaleSyncItem.uuid <$> data) →
  Forall (λ sale_data,
            uuid_available (UserProfile.business_id profile) st
              (SaleSyncItem.uuid sale_data)) data →
  let row sale_data :=
    upserted (User.pk <$> user request) (UserProfile.business_id profile)
      (has_role "worker" request) (now st) sale_data
      (sales st !! SaleSyncItem.uuid sale_data) in
  ∃ st',
    SaleSyncView_post request data st
    = (st', Resp 201 (SalesSynced (List.length data)
                        ((λ sale_data, (SaleSyncItem.uuid sale_data, row sale_data))
                           <$> data) (now st)))
    ∧ sales_only st st'
    ∧ (∀ sale_data, sale_data ∈ data →
         sales st' !! SaleSyncItem.uuid sale_data = Some (row sale_data))
    ∧ (∀ uuid, uuid ∉ SaleSyncItem.uuid <$> data →
         sales st' !! uuid = sales st !! uuid).
Proof.
  intros Hprofile Hbusiness Hfk Hdata Hbare Hdup Hfree row.
  destruct (SaleSync_loop_bare (User.pk <$> user request)
              (UserProfile.business_id profile) (has_role "worker" request)
              data st Hfk Hbare Hdup Hfree)
    as (st' & Hrun & Honly & Hin & Hout).
  exists st'. split; [| done].
  unfold SaleSyncView_post, dispatch, IsInBusiness. rewrite Hprofile.
  rewrite bool_decide_eq_true_2 by eauto.
  unfold bind at 1. rewrite SaleSyncSerializer_is_valid_run.
  assert (existsb has_item data = false) as ->.
  { apply not_true_is_false. intros (d & Hd & Hitem)%existsb_exists.
    rewrite Forall_forall in Hbare.
    rewrite bare_record_no_item in Hitem; [done |].
    by apply Hbare, list_elem_of_In. }
  rewrite andb_false_r.
  assert (forallb bare_record data = true) as ->.
  { apply forallb_forall. intros d Hd. rewrite Forall_forall in Hbare.
    by apply Hbare, list_elem_of_In. }
  rewrite bool_decide_eq_false_2 by done. cbn [negb andb].
  erewrite bind_inr.
  2:{ apply try_run. unfold SaleSyncSerializer_create. rewrite Hprofile.
      apply Z.eqb_neq in Hbusiness. rewrite Hbusiness. exact Hrun. }
  destruct Honly as (_ & _ & Hnow & _).
  unfold bind, timezone_now, read, ret. simpl. rewrite Hnow.
  by rewrite length_fmap.
Qed.

(** ** What the two pushes and the save of a product do *)

(** C2. At the spec's own example -- a first push of one sale with the item
    [{product_id: 1, quantity: 2}] -- the endpoint creates nothing, for the
    worker and for the admin alike: [validate_product_id] queries
    [Product] by [local_id], a field the model does not declare, and the
    [FieldError] leaves the handler.  No sale is stored, with either value of
    [pending_approval], and the stock of product 1 stays 5. *)
Theorem sale_sync_first_push_raises_field_error :
  SaleSyncView_post worker_request [small_sale] shop
  = (shop, Unhandled FieldError)
  ∧ SaleSyncView_post admin_request [small_sale] shop
    = (shop, Unhandled FieldError)
  ∧ sales shop !! SaleSyncItem.uuid small_sale = None
  ∧ Product.stock <$> products shop !! 10%N = Some 5.
Proof. repeat split; vm_compute; reflexivity. Qed.

(** C3. Replaying a sale push that contains a uuid which is already stored,
    any number of times: the line items of that sale are those it had, and no
    product has changed, so no stock is reduced again.  The other records of
    the push may be new. *)
Theorem sale_sync_replay_is_idempotent (request : Request)
    (data : list SaleSyncItem.t) (sale_data : SaleSyncItem.t) (st : Store)
    (n : nat) :
  sale_items_fk st →
  sale_data ∈ data →
  is_Some (sales st !! SaleSyncItem.uuid sale_data) →
  let st' := Nat.iter n (λ st, (SaleSyncView_post request data st).1) st in
  Sale_items_all (SaleSyncItem.uuid sale_data) st'
  = Sale_items_all (SaleSyncItem.uuid sale_data) st
  ∧ products st' = products st
  ∧ is_Some (sales st' !! SaleSyncItem.uuid sale_data).
Proof.
  intros Hfk _ Hstored. simpl.
  assert (Honly : sales_only st
            (Nat.iter n (λ st, (SaleSyncView_post request data st).1) st)).
  { induction n as [| n IH]; simpl; [apply sales_only_refl |].
    eapply sales_only_trans; [exact IH |].
    apply SaleSyncView_post_sales_only. by eapply sales_only_fk. }
  destruct Honly as (Hproducts & Hitems & _ & Hdom).
  split; [| split; [done |]].
  - unfold Sale_items_all. by rewrite Hitems.
  - by apply elem_of_dom, Hdom, elem_of_dom.
Qed.



(** C8. An admin pushes a sale of three of product 2 while the shop has one:
    the push reports no insufficient stock. It ends in the [FieldError] of the
    query by [local_id], as every push with a line item does, and the loop of
    [SaleSyncSerializer.create] that reduces the stock is not reached.  The
    approval of the same line items reports the shortage. *)
Theorem sale_sync_reports_no_shortage :
  SaleSyncView_post admin_request [big_sale] shop = (shop, Unhandled FieldError)
  ∧ (ApproveSaleView_post admin_request 77 shop_pending).2
    = Resp 400 (Error "Stock insuficiente para sal").
Proof. split; vm_compute; reflexivity. Qed.

(** C9. A worker replays the push of sale 78, which an admin has approved:
    the push ends in the [FieldError] of the query by [local_id], before the
    upsert, and the sale stays approved. *)
Theorem sale_sync_replay_raises_field_error :
  Sale.pending_approval <$> sales shop_approved !! 78%N = Some false
  ∧ SaleSyncView_post worker_request [small_sale] shop_approved
    = (shop_approved, Unhandled FieldError).
Proof. split; vm_compute; reflexivity. Qed.

(** ** Counterexamples to the claims as they are written *)



(** ** The product push *)

(** The upsert of a pushed product names [local_id] after [business_id]: the
    query raises [FieldError] before the table is read, and [get_or_create]
    lets it through. *)
Lemma Product_objects_update_or_create_local_id business local_id d st :
  Product_objects_update_or_create
    [("business_id", business); ("local_id", local_id)] d st
  = (st, inl FieldError).
Proof. reflexivity. Qed.

Section ProductSyncRuns.
Variable b64decode : string → option string.

Lemma ProductSync_item_run business_id item st :
  ProductSync_item b64decode business_id item st = (st, inl FieldError).
Proof. reflexivity. Qed.

Lemma ProductSync_loop_run business_id items st :
  ProductSync_loop b64decode business_id items st
  = (st, match items with [] => inr [] | _ :: _ => inl FieldError end).
Proof. by destruct items. Qed.

Lemma ProductSyncSerializer_create_unchanged request validated_data st :
  (ProductSyncSerializer_create b64decode request validated_data st).1 = st.
Proof.
  unfold ProductSyncSerializer_create.
  destruct (request_profile request); [| done].
  destruct (_ =? 0); [done |]. by rewrite ProductSync_loop_run.
Qed.

(** A product push writes nothing. *)
Lemma ProductSyncView_post_unchanged request data st :
  (ProductSyncView_post b64decode request data st).1 = st.
Proof.
  unfold ProductSyncView_post, dispatch.
  destruct (IsInBusiness request); [| done].
  destruct (negb _); [done |].
  pose proof (ProductSyncSerializer_create_unchanged request
                (map ProductSyncItem_validated data) st) as H.
  unfold bind, try, timezone_now, read, ret.
  destruct (ProductSyncSerializer_create _ _ _ st) as [st' [e | synced]];
    simpl in *; by subst.
Qed.

(** What a product push answers. *)
Lemma ProductSyncView_post_answer request data st :
  (ProductSyncView_post b64decode request data st).2
  = if negb (IsInBusiness request) then Forbidden
    else if negb (ProductSyncSerializer_is_valid data) then Resp 400 InvalidData
    else if has_business request then Resp 500 (Failure FieldError)
    else Resp 500 (Failure (ValidationError "Usuario sin negocio asignado")).
Proof.
  unfold ProductSyncView_post, dispatch, IsInBusiness, has_business,
    get_business_for_request, ProductSyncSerializer_create.
  destruct (request_profile request) as [profile |]; simpl; [| done].
  destruct (ProductSyncSerializer_is_valid data) eqn:Hvalid; simpl; [| done].
  destruct (UserProfile.business_id profile =? 0); simpl; [done |].
  unfold bind, try. rewrite ProductSync_loop_run.
  destruct data; [done |]. reflexivity.
Qed.
End ProductSyncRuns.

(** ** Approval stops at the first item that lacks stock *)

Lemma sold_app l1 l2 pk : sold (l1 ++ l2) pk = sold l1 pk + sold l2 pk.
Proof. induction l1 as [| i l1 IH]; simpl; [done |]. rewrite IH. lia. Qed.

Lemma stock_reduced_by_nil st : stock_reduced_by [] st st.
Proof. intros pk p Hp. exists p. split; [done |]. simpl. lia. Qed.

Lemma stock_reduced_by_app l1 l2 st st1 st' :
  stock_reduced_by l1 st st1 → stock_reduced_by l2 st1 st' →
  stock_reduced_by (l1 ++ l2) st st'.
Proof.
  intros H1 H2 pk p Hp.
  destruct (H1 pk p Hp) as (p1 & Hp1 & Hs1).
  destruct (H2 pk p1 Hp1) as (p' & Hp' & Hs').
  exists p'. split; [done |]. rewrite sold_app. lia.
Qed.


(** What a reduction leaves behind can be read backwards: a product of [st']
    is a product of [st], with the stock it had less what [items] took. *)
Lemma stock_reduced_by_back items st st' pk p' :
  stock_reduced_by items st st' →
  dom (products st') ⊆ dom (products st) →
  products st' !! pk = Some p' →
  ∃ p, products st !! pk = Some p
       ∧ Product.stock p' = Product.stock p - sold items pk.
Proof.
  intros Hred Hdom Hp'.
  assert (pk ∈ dom (products st)) as [p Hp]%elem_of_dom
    by (apply Hdom, elem_of_dom; eauto).
  destruct (Hred pk p Hp) as (q & Hq & Hstock).
  exists p. split; [done |]. congruence.
Qed.

Lemma sufficed_nil st : sufficed [] st.
Proof. intros pre i post Hsplit. by destruct pre. Qed.

Lemma sufficed_one item st p :
  products st !! SaleItem.product item = Some p →
  Z.of_N (SaleItem.quantity item) ≤ Product.stock p →
  sufficed [item] st.
Proof.
  intros Hp Hle pre i post Hsplit.
  destruct pre as [| x pre]; [| by destruct pre].
  injection Hsplit as <- _. exists p. split; [done |]. simpl. lia.
Qed.

(** The items [l1] sufficed from [st] and took their quantities; the items
    [l2] sufficed from what was left. *)
Lemma sufficed_app l1 l2 st st1 :
  sufficed l1 st →
  stock_reduced_by l1 st st1 →
  dom (products st1) ⊆ dom (products st) →
  sufficed l2 st1 →
  sufficed (l1 ++ l2) st.
Proof.
  intros H1 Hred Hdom H2 pre i post Hsplit.
  apply app_eq_app in Hsplit as [l [[-> Hl] | [-> Hl]]].
  - destruct l as [| x l]; simpl in Hl.
    + rewrite app_nil_r in Hred.
      destruct (H2 [] i post) as (p1 & Hp1 & Hle); [done |].
      destruct (stock_reduced_by_back _ _ _ _ _ Hred Hdom Hp1)
        as (p & Hp & Hstock).
      exists p. split; [done |]. simpl in Hle. lia.
    + injection Hl as <- ->. by apply (H1 pre i l).
  - destruct (H2 l i post) as (p1 & Hp1 & Hle); [done |].
    destruct (stock_reduced_by_back _ _ _ _ _ Hred Hdom Hp1)
      as (p & Hp & Hstock).
    exists p. split; [done |]. rewrite sold_app. lia.
Qed.

(** One successful pass through the body of the approval loop. *)
Lemma approve_step item inst st st' inst' :
  products st !! SaleItem.product item = Some inst.2 →
  inst.1 = SaleItem.product item →
  Product_save
    (inst.1, Product.with_stock
               (Product.stock inst.2 - Z.of_N (SaleItem.quantity item)) inst.2) st
  = (st', inr inst') →
  sales st' = sales st ∧ sale_items st' = sale_items st
  ∧ dom (products st') ⊆ dom (products st)
  ∧ stock_reduced_by [item] st st'.
Proof.
  intros Hp Hpk (lid & -> & ->)%Product_save_inv. simpl.
  split; [done |]. split; [done |]. split.
  { rewrite dom_insert, Hpk. apply union_subseteq. split; [| done].
    apply singleton_subseteq_l, elem_of_dom. eauto. }
  intros pk p0 Hp0. simpl.
  destruct (N.eqb_spec (SaleItem.product item) pk) as [<- | Hne].
  - rewrite Hpk, lookup_insert_eq. eexists. split; [done |]. simpl.
    rewrite Hp in Hp0. injection Hp0 as <-. lia.
  - rewrite Hpk, lookup_insert_ne by done. exists p0. split; [done | lia].
Qed.

Lemma approve_items_first_shortage items st st' early :
  approve_items items st = (st', inr early) →
  sales st' = sales st ∧ sale_items st' = sale_items st
  ∧ dom (products st') ⊆ dom (products st)
  ∧ match early with
    | None => stock_reduced_by items st st' ∧ sufficed items st
    | Some response =>
        ∃ pre item post p,
          items = pre ++ item :: post
          ∧ sufficed pre st
          ∧ stock_reduced_by pre st st'
          ∧ products st' !! SaleItem.product item = Some p
          ∧ Product.stock p < Z.of_N (SaleItem.quantity item)
          ∧ response
            = Resp 400 (Error ("Stock insuficiente para " +:+ Product.name p))
    end.
Proof.
  revert st. induction items as [| item items IH]; intros st; simpl.
  - intros [= <- <-]. split; [done |]. split; [done |]. split; [done |].
    split; [apply stock_reduced_by_nil | apply sufficed_nil].
  - intros (st1 & inst & Hget & Hrest)%bind_inv_inr.
    apply Product_by_pk_inv in Hget as (-> & Hpk & Hp).
    destruct (Z.leb_spec (Z.of_N (SaleItem.quantity item)) (Product.stock inst.2))
      as [Hle | Hlt].
    + apply bind_inv_inr in Hrest as (st2 & inst' & Hsave & Hrest).
      destruct (approve_step _ _ _ _ _ Hp Hpk Hsave) as (Hs & Hi & Hdom & Hred).
      destruct (IH _ Hrest) as (Hs' & Hi' & Hdom' & Hearly).
      pose proof (sufficed_one item st inst.2 Hp Hle) as Hone.
      split; [congruence |]. split; [congruence |].
      split; [by etrans |].
      destruct early as [response |].
      * destruct Hearly as (pre & it & post & p & -> & Hsuf & Hpre & Hfail).
        exists (item :: pre), it, post, p. split; [done |].
        split; [by apply (sufficed_app [item] pre st st2) |].
        split; [| done].
        by apply (stock_reduced_by_app [item] pre st st2 st').
      * destruct Hearly as [Hall Hsuf].
        split; [by apply (stock_reduced_by_app [item] items st st2 st') |].
        by apply (sufficed_app [item] items st st2).
    + injection Hrest as <- <-. split; [done |]. split; [done |].
      split; [done |].
      exists [], item, items, inst.2. split; [done |].
      split; [apply sufficed_nil |].
      split; [apply stock_reduced_by_nil |]. done.
Qed.

(** The same loop, for those who ask only what it did to the store. *)
Lemma approve_items_inv items st st' early :
  approve_items items st = (st', inr early) →
  sales st' = sales st ∧ sale_items st' = sale_items st
  ∧ match early with
    | None => stock_reduced_by items st st'
    | Some response =>
        ∃ pre item post p,
          items = pre ++ item :: post
          ∧ stock_reduced_by pre st st'
          ∧ products st' !! SaleItem.product item = Some p
          ∧ Product.stock p < Z.of_N (SaleItem.quantity item)
          ∧ response
            = Resp 400 (Error ("Stock insuficiente para " +:+ Product.name p))
    end.
Proof.
  intros (Hs & Hi & _ & Hearly)%approve_items_first_shortage.
  split; [done |]. split; [done |].
  destruct early as [response |]; [| by destruct Hearly].
  destruct Hearly as (pre & item & post & p & ? & _ & ?).
  by exists pre, item, post, p.
Qed.

(** C1. When the approval of a sale answers that an item lacks stock, the
    sale is a pending, active sale of the business and the approval has
    stopped at its first item that lacked stock: every item before it found
    enough stock when its turn came, the product of that item has less stock
    than the item asks, and nothing is rolled back -- every product has lost
    exactly the quantities of the items before that item.  The sale is still
    pending: the sale and line-item tables are untouched. *)
Theorem approve_stops_at_first_shortage (request : Request) (uuid : N)
    (st : Store) (msg : string) :
  (ApproveSaleView_post request uuid st).2 = Resp 400 (Error msg) →
  let st' := (ApproveSaleView_post request uuid st).1 in
  sales st' = sales st
  ∧ sale_items st' = sale_items st
  ∧ (∃ business s, get_business_for_request request = Some business
                   ∧ sales st !! uuid = Some s ∧ is_pending business s = true)
  ∧ ∃ pre item post p,
      Sale_items_all uuid st = pre ++ item :: post
      ∧ sufficed pre st
      ∧ stock_reduced_by pre st st'
      ∧ products st' !! SaleItem.product item = Some p
      ∧ Product.stock p < Z.of_N (SaleItem.quantity item)
      ∧ msg = "Stock insuficiente para " +:+ Product.name p.
Proof.
  unfold ApproveSaleView_post, dispatch.
  destruct (IsInBusiness request && IsAdmin request); [| done].
  destruct (get_business_for_request request) as [business |]; [| done].
  erewrite bind_inr; [| apply try_run, Sale_objects_get_run].
  destruct (sales st !! uuid) as [s |] eqn:Hs; [| done].
  destruct (is_pending business s) eqn:Hpending; [| done].
  erewrite bind_inr; [| reflexivity]. simpl.
  destruct (approve_items (Sale_items_all uuid st) st) as [st1 [e | early]] eqn:Hloop.
  - erewrite bind_inl; [| exact Hloop]. done.
  - erewrite bind_inr; [| exact Hloop].
    destruct (approve_items_first_shortage _ _ _ _ Hloop)
      as (Hsales & Hitems & _ & Hearly).
    destruct early as [response |].
    + simpl. intros ->. simpl in Hearly.
      destruct Hearly
        as (pre & item & post & p & Hsplit & Hsuf & Hred & Hp & Hlt & [= ->]).
      split; [done |]. split; [done |]. split; [by exists business, s |].
      by exists pre, item, post, p.
    + erewrite bind_inr; [| apply Sale_save_result]. done.
Qed.

(** ** Bulk approval *)


Lemma items_of_sales_frame l st st' :
  sale_items st' = sale_items st → items_of_sales l st' = items_of_sales l st.
Proof. intros H. unfold items_of_sales, Sale_items_all. by rewrite H. Qed.


Lemma approve_all_stock_first_shortage l st st' early :
  approve_all_stock l st = (st', inr early) →
  sales st' = sales st ∧ sale_items st' = sale_items st
  ∧ dom (products st') ⊆ dom (products st)
  ∧ match early with
    | None =>
        stock_reduced_by (items_of_sales l st) st st'
        ∧ sufficed (items_of_sales l st) st
    | Some response =>
        ∃ pre item post p,
          items_of_sales l st = pre ++ item :: post
          ∧ sufficed pre st
          ∧ stock_reduced_by pre st st'
          ∧ products st' !! SaleItem.product item = Some p
          ∧ Product.stock p < Z.of_N (SaleItem.quantity item)
          ∧ response
            = Resp 400 (Error ("Stock insuficiente para " +:+ Product.name p))
    end.
Proof.
  revert st. induction l as [| sale l IH]; intros st; simpl.
  - intros [= <- <-]. split; [done |]. split; [done |]. split; [done |].
    split; [apply stock_reduced_by_nil | apply sufficed_nil].
  - intros (st0 & items & [= <- <-] & Hrest)%bind_inv_inr.
    apply bind_inv_inr in Hrest as (st1 & first & Hfirst & Hrest).
    destruct (approve_items_first_shortage _ _ _ _ Hfirst)
      as (Hs1 & Hi1 & Hd1 & Hfirst').
    unfold items_of_sales. simpl. fold (items_of_sales l st).
    destruct first as [response |].
    + injection Hrest as <- <-. split; [done |]. split; [done |].
      split; [done |].
      destruct Hfirst' as (pre & item & post & p & Hsplit & Hrest).
      exists pre, item, (post ++ items_of_sales l st), p.
      split; [| done]. rewrite Hsplit. by rewrite <- app_assoc.
    + destruct Hfirst' as [Hred1 Hsuf1].
      destruct (IH _ Hrest) as (Hs' & Hi' & Hd' & Hearly).
      rewrite (items_of_sales_frame l st st1 Hi1) in Hearly.
      split; [congruence |]. split; [congruence |]. split; [by etrans |].
      destruct early as [response |].
      * destruct Hearly as (pre & item & post & p & Hsplit & Hsuf & Hpre & Hfail).
        exists (Sale_items_all sale.1 st ++ pre), item, post, p.
        split; [by rewrite Hsplit, <- app_assoc |].
        split; [by eapply sufficed_app |]. split; [| done].
        by eapply stock_reduced_by_app.
      * destruct Hearly as [Hred Hsuf].
        split; [by eapply stock_reduced_by_app | by eapply sufficed_app].
Qed.

Lemma approve_all_stock_inv l st st' early :
  approve_all_stock l st = (st', inr early) →
  sales st' = sales st ∧ sale_items st' = sale_items st
  ∧ match early with
    | None => stock_reduced_by (items_of_sales l st) st st'
    | Some response =>
        ∃ pre item post p,
          items_of_sales l st = pre ++ item :: post
          ∧ stock_reduced_by pre st st'
          ∧ products st' !! SaleItem.product item = Some p
          ∧ Product.stock p < Z.of_N (SaleItem.quantity item)
          ∧ response
            = Resp 400 (Error ("Stock insuficiente para " +:+ Product.name p))
    end.
Proof.
  intros (Hs & Hi & _ & Hearly)%approve_all_stock_first_shortage.
  split; [done |]. split; [done |].
  destruct early as [response |]; [| by destruct Hearly].
  destruct Hearly as (pre & item & post & p & ? & _ & ?).
  by exists pre, item, post, p.
Qed.

(** *** The order of a sale query *)


Lemma insert_desc_perm r l : insert_desc r l ≡ₚ r :: l.
Proof.
  induction l as [| x l IH]; simpl; [done |].
  destruct (Sale.created_at x.2 <? Sale.created_at r.2); [done |].
  rewrite IH. apply Permutation_swap.
Qed.

Lemma order_by_created_at_desc_perm l : order_by_created_at_desc l ≡ₚ l.
Proof.
  induction l as [| x l IH]; simpl; [done |].
  by rewrite insert_desc_perm, IH.
Qed.

Lemma insert_desc_sorted r l :
  StronglySorted newer_or_equal l →
  StronglySorted newer_or_equal (insert_desc r l).
Proof.
  induction l as [| x l IH]; simpl; intros Hl.
  - repeat constructor.
  - apply StronglySorted_cons in Hl as [Hx Hl].
    destruct (Z.ltb_spec (Sale.created_at x.2) (Sale.created_at r.2)) as [Hlt | Hge].
    + apply StronglySorted_cons. split.
      * constructor; [unfold newer_or_equal; lia |].
        eapply Forall_impl; [exact Hx |]. unfold newer_or_equal. intros. lia.
      * by apply StronglySorted_cons.
    + apply StronglySorted_cons. split; [| by apply IH].
      rewrite insert_desc_perm. by constructor.
Qed.

Lemma order_by_created_at_desc_sorted l :
  StronglySorted newer_or_equal (order_by_created_at_desc l).
Proof.
  induction l as [| x l IH]; simpl; [constructor |].
  by apply insert_desc_sorted.
Qed.

Lemma Sale_objects_filter_NoDup f st : NoDup (Sale_objects_filter f st).*1.
Proof.
  unfold Sale_objects_filter. rewrite order_by_created_at_desc_perm.
  assert (Hsub : sublist (List.filter f (map_to_list (sales st)))
                         (map_to_list (sales st))).
  { induction (map_to_list (sales st)) as [| x l IH]; simpl; [done |].
    destruct (f x); by constructor. }
  apply (sublist_NoDup _ (map_to_list (sales st)).*1);
    [apply NoDup_fst_map_to_list | by apply fmap_sublist].
Qed.


(** C4. When the bulk approval answers that an item lacks stock, it has
    visited the pending sales of the business, each once and newest first,
    and has stopped at the first item that lacked stock: every item visited
    before it found enough stock when its turn came, and the answer names the
    product of that item.  No sale of the batch is approved -- the sale table
    is untouched -- and nothing is rolled back: every product has lost
    exactly the quantities of the items visited before that item. *)
Theorem approve_all_stops_at_first_shortage (request : Request) (st : Store)
    (msg : string) :
  (ApproveAllPendingView_post request st).2 = Resp 400 (Error msg) →
  let st' := (ApproveAllPendingView_post request st).1 in
  sales st' = sales st
  ∧ sale_items st' = sale_items st
  ∧ ∃ business visited pre item post p,
      get_business_for_request request = Some business
      ∧ (∀ uuid s, (uuid, s) ∈ visited
                   ↔ sales st !! uuid = Some s ∧ is_pending business s = true)
      ∧ NoDup visited.*1
      ∧ StronglySorted newer_or_equal visited
      ∧ items_of_sales visited st = pre ++ item :: post
      ∧ sufficed pre st
      ∧ stock_reduced_by pre st st'
      ∧ products st' !! SaleItem.product item = Some p
      ∧ Product.stock p < Z.of_N (SaleItem.quantity item)
      ∧ msg = "Stock insuficiente para " +:+ Product.name p.
Proof.
  unfold ApproveAllPendingView_post, dispatch.
  destruct (IsInBusiness request && IsAdmin request); [| done].
  destruct (get_business_for_request request) as [business |]; [| done].
  erewrite bind_inr; [| reflexivity].
  set (pending := Sale_objects_filter _ st).
  destruct (approve_all_stock pending st) as [st1 [e | early]] eqn:Hloop.
  - erewrite bind_inl; [| exact Hloop]. done.
  - erewrite bind_inr; [| exact Hloop].
    destruct (approve_all_stock_first_shortage _ _ _ _ Hloop)
      as (Hsales & Hitems & _ & Hearly).
    destruct early as [response |].
    + simpl. intros ->.
      destruct Hearly
        as (pre & item & post & p & Hsplit & Hsuf & Hred & Hp & Hlt & [= ->]).
      split; [done |]. split; [done |].
      exists business, pending, pre, item, post, p.
      split; [done |].
      split; [intros uuid s; apply elem_of_Sale_objects_filter |].
      split; [apply Sale_objects_filter_NoDup |].
      split; [apply order_by_created_at_desc_sorted |]. done.
    + destruct (approve_all_flags pending st1) as [st2 [e | []]] eqn:Hflags.
      * erewrite bind_inl; [| exact Hflags]. done.
      * erewrite bind_inr; [| exact Hflags]. done.
Qed.

(** ** Counterexamples to the rollback *)


(** C1 fails as stated: the approval of the pending [big_sale] is refused for
    lack of stock of its second item, and yet the stock of the product of its
    first item went from 5 to 3. *)
Lemma approve_rollback_counterexample :
  let run := ApproveSaleView_post admin_request 77 shop_pending in
  run.2 = Resp 400 (Error "Stock insuficiente para sal")
  ∧ Product.stock <$> products shop_pending !! 10%N = Some 5
  ∧ Product.stock <$> products run.1 !! 10%N = Some 3
  ∧ ¬ (∀ pk, Product.stock <$> products run.1 !! pk
             = Product.stock <$> products shop_pending !! pk).
Proof.
  repeat split; try (vm_compute; reflexivity).
  intros H. specialize (H 10%N). vm_compute in H. discriminate.
Qed.

(** C4 fails as stated: the bulk approval is refused for lack of stock, no
    sale is approved, and yet the stock of product 1 went from 5 to 3. *)
Lemma approve_all_rollback_counterexample :
  let run := ApproveAllPendingView_post admin_request shop_pending in
  run.2 = Resp 400 (Error "Stock insuficiente para sal")
  ∧ Sale.pending_approval <$> sales run.1 !! 77%N = Some true
  ∧ ¬ (∀ pk, Product.stock <$> products run.1 !! pk
             = Product.stock <$> products shop_pending !! pk).
Proof.
  repeat split; try (vm_compute; reflexivity).
  intros H. specialize (H 10%N). vm_compute in H. discriminate.
Qed.
(** * Further properties of the views *)

(** ** Permissions and tenant isolation *)

Lemma get_business_for_request_profile request business :
  get_business_for_request request = Some business →
  ∃ profile, request_profile request = Some profile
             ∧ UserProfile.business_id profile = business.
Proof.
  unfold get_business_for_request.
  destruct (request_profile request) as [profile |]; [| done].
  intros [= <-]. eauto.
Qed.

Lemma IsInBusiness_false request :
  request_profile request = None → IsInBusiness request = false.
Proof.
  intros H. unfold IsInBusiness. rewrite H. apply bool_decide_eq_false.
  by intros [? ?].
Qed.

Lemma has_role_no_profile r request :
  request_profile request = None → has_role r request = false.
Proof. intros H. unfold has_role. by rewrite H. Qed.

Section Refusals.
Variable b64decode : string → option string.

(** X1. A request whose user is anonymous or has no profile is refused by the
    permission classes of every view, and the store is not touched. *)
Theorem request_without_profile_is_refused (op : Op) (request : Request)
    (st : Store) :
  op_request op = Some request →
  request_profile request = None →
  run b64decode op st = (st, Forbidden).
Proof.
  intros Hop Hnone. pose proof (IsInBusiness_false _ Hnone) as Hperm.
  destruct op; simpl in Hop; try discriminate; injection Hop as ->; simpl;
    unfold ProductSyncView_post, SaleSyncView_post, ApproveSaleView_post,
      ApproveAllPendingView_post, RejectSaleView_post,
      RejectAllPendingView_post, SaleViewSet_destroy, SaleViewSet_reactivate,
      dispatch; by rewrite Hperm.
Qed.

(** X2. The operations of the approval workflow -- approve, approve all,
    reject, reject all, reactivate -- requested by a user who is not an admin
    are refused, and the store is not touched. *)
Theorem moderation_requires_admin (op : Op) (request : Request) (st : Store) :
  op_request op = Some request →
  is_moderation op = true →
  has_role "admin" request = false →
  (run b64decode op st).1 = st ∧ is_refusal (run b64decode op st).2 = true.
Proof.
  intros Hop Hmod Hadmin.
  destruct op; simpl in Hop, Hmod; try discriminate; injection Hop as ->; simpl;
    unfold ApproveSaleView_post, ApproveAllPendingView_post,
      RejectSaleView_post, RejectAllPendingView_post, SaleViewSet_reactivate,
      dispatch, IsAdmin; rewrite Hadmin, ?andb_false_r; try done.
  by destruct (IsInBusiness request).
Qed.

(** X3. Approve, reject, destroy and reactivate find a sale only inside the
    business of the requesting user: named with the uuid of a sale of another
    business, or with a uuid that no sale has, they refuse and the store is
    not touched. *)
Theorem sale_outside_business_is_not_found (op : Op) (request : Request)
    (uuid : N) (st : Store) :
  op_request op = Some request →
  op_sale op = Some uuid →
  Sale.business <$> sales st !! uuid ≠ get_business_for_request request →
  (run b64decode op st).1 = st ∧ is_refusal (run b64decode op st).2 = true.
Proof.
  intros Hop Hsale Hforeign.
  assert (Hmiss : ∀ business f,
            get_business_for_request request = Some business →
            (∀ s, f s = true → Sale.business s = business) →
            try (Sale_objects_get uuid f) st = (st, inr (inl DoesNotExist))).
  { intros business f Hb Hf. apply try_run. rewrite Sale_objects_get_run.
    destruct (sales st !! uuid) as [s |] eqn:Hs; [| done].
    destruct (f s) eqn:Hfs; [| done]. exfalso. apply Hforeign.
    simpl. by rewrite Hb, (Hf s Hfs). }
  assert (Hpending : ∀ business s,
            is_pending business s = true → Sale.business s = business).
  { unfold is_pending. intros business s [[_ H%Z.eqb_eq]%andb_prop _]%andb_prop.
    exact H. }
  destruct op; simpl in Hop, Hsale; try discriminate;
    injection Hop as ->; injection Hsale as ->; simpl.
  - unfold ApproveSaleView_post, dispatch.
    destruct (IsInBusiness request && IsAdmin request); [| done].
    destruct (get_business_for_request request) as [business |] eqn:Hb; [| done].
    erewrite bind_inr; [| by eapply Hmiss; [| apply Hpending]]. done.
  - unfold RejectSaleView_post, dispatch.
    destruct (IsInBusiness request && IsAdmin request); [| done].
    destruct (get_business_for_request request) as [business |] eqn:Hb; [| done].
    erewrite bind_inr; [| by eapply Hmiss; [| apply Hpending]]. done.
  - unfold SaleViewSet_destroy, dispatch.
    destruct (IsInBusiness request); [| done].
    assert (Hrun : try (Sale_objects_get uuid
                          (SaleViewSet_get_queryset request include_inactive)) st
                   = (st, inr (inl DoesNotExist))).
    { destruct (get_business_for_request request) as [business |] eqn:Hb.
      - eapply Hmiss; [done |]. intros s. unfold SaleViewSet_get_queryset.
        rewrite Hb. intros [[[H%Z.eqb_eq _]%andb_prop _]%andb_prop _]%andb_prop.
        exact H.
      - apply try_run. rewrite Sale_objects_get_run.
        unfold SaleViewSet_get_queryset. rewrite Hb.
        by destruct (sales st !! uuid). }
    erewrite bind_inr; [| exact Hrun]. done.
  - unfold SaleViewSet_reactivate, dispatch.
    destruct (IsInBusiness request); [| done].
    destruct (has_role "admin" request); [| done]. simpl.
    assert (Hrun : try (Sale_objects_get uuid
                          (λ s, bool_decide (Some (Sale.business s)
                                             = get_business_for_request request)))
                     st = (st, inr (inl DoesNotExist))).
    { apply try_run. rewrite Sale_objects_get_run.
      destruct (sales st !! uuid) as [s |] eqn:Hs; [| done].
      case_bool_decide as Heq; [| done]. exfalso. apply Hforeign. done. }
    erewrite bind_inr; [| exact Hrun]. done.
Qed.
End Refusals.

(** ** What a listing of sales shows *)

(** X5. What [SaleViewSet.get_queryset] shows: only sales of the business of
    the requesting user, never a sale that is pending approval, an inactive
    sale only to an admin who asks for inactive sales, and to a worker only
    the sales that the worker created. *)
Theorem sale_listing_visibility (request : Request) (include_inactive : bool)
    (st : Store) (uuid : N) (s : Sale.t) :
  (uuid, s) ∈ SaleViewSet_queryset request include_inactive st →
  sales st !! uuid = Some s
  ∧ get_business_for_request request = Some (Sale.business s)
  ∧ Sale.pending_approval s = false
  ∧ (Sale.active s = false →
     include_inactive = true ∧ has_role "admin" request = true)
  ∧ (has_role "worker" request = true →
     Sale.created_by s = User.pk <$> user request).
Proof.
  unfold SaleViewSet_queryset. intros [Hs Hf]%elem_of_Sale_objects_filter.
  simpl in Hf. unfold SaleViewSet_get_queryset in Hf.
  destruct (get_business_for_request request) as [business |]; [| done].
  apply andb_prop in Hf as [[[Hb%Z.eqb_eq Hp%negb_true_iff]%andb_prop Ha]%andb_prop Hw].
  split; [done |]. split; [by rewrite Hb |]. split; [done |]. split.
  - intros Hinactive. rewrite Hinactive in Ha.
    destruct include_inactive, (has_role "admin" request); done.
  - intros Hworker. rewrite Hworker in Hw. by apply bool_decide_eq_true in Hw.
Qed.

(** ** Rejection *)

Lemma IsAdmin_IsInBusiness request :
  IsAdmin request = true → IsInBusiness request && IsAdmin request = true.
Proof.
  intros H. rewrite H, andb_true_r. by apply (has_role_IsInBusiness "admin").
Qed.

(** X6. Rejecting a sale never changes a product or a line item.  When the
    answer is 204, the sale was an active pending sale of the admin's
    business and the only change is that it is stored inactive (with the time
    of the save); with any other answer the store is untouched.  An admin who
    rejects an active pending sale of the business gets 204. *)
Theorem reject_only_deactivates_the_sale (request : Request) (uuid : N)
    (st : Store) :
  let run := RejectSaleView_post request uuid st in
  products run.1 = products st
  ∧ sale_items run.1 = sale_items st
  ∧ (run.2 = Resp 204 NoBody →
     ∃ business s,
       get_business_for_request request = Some business
       ∧ sales st !! uuid = Some s
       ∧ is_pending business s = true
       ∧ sales run.1
         = <[uuid := Sale.with_updated_at (now st) (Sale.with_active false s)]>
             (sales st))
  ∧ (run.2 ≠ Resp 204 NoBody → run.1 = st)
  ∧ (∀ business s,
       IsAdmin request = true →
       get_business_for_request request = Some business →
       sales st !! uuid = Some s →
       is_pending business s = true →
       run.2 = Resp 204 NoBody).
Proof.
  unfold RejectSaleView_post, dispatch.
  destruct (IsInBusiness request && IsAdmin request) eqn:Hperm.
  2: { simpl. repeat split; try done.
       intros business s Hadmin. apply IsAdmin_IsInBusiness in Hadmin. congruence. }
  destruct (get_business_for_request request) as [business |] eqn:Hb.
  2: { simpl. repeat split; done. }
  erewrite bind_inr; [| apply try_run, Sale_objects_get_run].
  destruct (sales st !! uuid) as [s |] eqn:Hs.
  2: { simpl. repeat split; done. }
  destruct (is_pending business s) eqn:Hpending.
  2: { simpl. repeat split; try done. intros ? ? _ [= <-] [= <-]. congruence. }
  erewrite bind_inr; [| apply Sale_save_result]. simpl. rewrite Hs.
  repeat split; try done. intros _. by exists business, s.
Qed.

(** ** Bulk rejection *)

(** X7. For an admin, rejecting all pending sales changes no product and no
    line item; it stores every active pending sale of the business inactive
    and leaves every other sale as it was, so that afterwards the business has
    no pending sale; and it reports exactly the uuids of the sales it
    rejected, each once. *)
Theorem reject_all_deactivates_the_pending_sales (request : Request)
    (business : Z) (st : Store) :
  IsAdmin request = true →
  get_business_for_request request = Some business →
  let run := RejectAllPendingView_post request st in
  products run.1 = products st
  ∧ sale_items run.1 = sale_items st
  ∧ (∀ uuid,
       sales run.1 !! uuid
       = (λ s, if is_pending business s then Sale.with_active false s else s)
           <$> sales st !! uuid)
  ∧ (∀ uuid s, sales run.1 !! uuid = Some s → is_pending business s = false)
  ∧ ∃ rejected_uuids,
      run.2 = Resp 200 (RejectedCount (List.length rejected_uuids) rejected_uuids)
      ∧ NoDup rejected_uuids
      ∧ ∀ uuid, uuid ∈ rejected_uuids
                ↔ ∃ s, sales st !! uuid = Some s ∧ is_pending business s = true.
Proof.
  intros Hadmin Hb. unfold RejectAllPendingView_post, dispatch.
  rewrite (IsAdmin_IsInBusiness _ Hadmin), Hb. simpl.
  unfold bind, read, write, ret. simpl.
  split; [done |]. split; [done |]. split; [intros uuid; apply lookup_fmap |].
  split.
  - intros uuid s'. rewrite lookup_fmap.
    destruct (sales st !! uuid) as [s |]; [| done]. simpl. intros [= <-].
    destruct (is_pending business s) eqn:Hp; [| done].
    unfold is_pending. simpl. done.
  - eexists. split; [by rewrite length_map |].
    split; [apply Sale_objects_filter_NoDup |].
    intros uuid. rewrite list_elem_of_fmap. split.
    + intros ([u s] & -> & [Hs Hp]%elem_of_Sale_objects_filter). eauto.
    + intros (s & Hs & Hp). exists (uuid, s). split; [done |].
      by apply elem_of_Sale_objects_filter.
Qed.

(** ** Successful approval *)

Lemma preserves_Product_save_blind I inst :
  products_blind I → preserves I (Product_save inst).
Proof.
  intros HI st Hst.
  destruct (Product_save_result inst st) as [[e ->] | [lid ->]]; simpl;
    [done | by apply HI].
Qed.

Lemma preserves_approve_items_blind I items :
  products_blind I → preserves I (approve_items items).
Proof.
  intros HI. induction items; simpl; pres;
    auto using preserves_Product_by_pk, preserves_Product_save_blind.
Qed.

Lemma approve_items_now items st : now (approve_items items st).1 = now st.
Proof.
  apply (preserves_approve_items_blind (λ s, now s = now st) items);
    [by intros ? ? ? | done].
Qed.

Lemma preserves_approve_all_stock_blind I l :
  products_blind I → preserves I (approve_all_stock l).
Proof.
  intros HI. induction l; simpl; pres; auto using preserves_approve_items_blind.
Qed.

Lemma ApproveSaleView_post_success request uuid st :
  (ApproveSaleView_post request uuid st).2 = Resp 200 Success →
  ∃ business s st1,
    get_business_for_request request = Some business
    ∧ sales st !! uuid = Some s
    ∧ is_pending business s = true
    ∧ approve_items (Sale_items_all uuid st) st = (st1, inr None)
    ∧ (ApproveSaleView_post request uuid st).1
      = set_sales
          (<[uuid := Sale.with_updated_at (now st1)
                       (Sale.with_pending_approval false s)]> (sales st1)) st1.
Proof.
  unfold ApproveSaleView_post, dispatch.
  destruct (IsInBusiness request && IsAdmin request); [| done].
  destruct (get_business_for_request request) as [business |]; [| done].
  erewrite bind_inr; [| apply try_run, Sale_objects_get_run].
  destruct (sales st !! uuid) as [s |] eqn:Hs; [| done].
  destruct (is_pending business s) eqn:Hpending; [| done].
  erewrite bind_inr; [| reflexivity]. simpl.
  destruct (approve_items (Sale_items_all uuid st) st) as [st1 [e | early]] eqn:Hloop.
  - erewrite bind_inl; [| exact Hloop]. done.
  - erewrite bind_inr; [| exact Hloop].
    destruct (approve_items_inv _ _ _ _ Hloop) as (Hsales & _ & Hearly).
    destruct early as [response |]; simpl in Hearly.
    + destruct Hearly as (? & ? & ? & ? & _ & _ & _ & _ & ->). done.
    + erewrite bind_inr; [| apply Sale_save_result]. simpl. intros _.
      rewrite Hsales, Hs. exists business, s, st1. rewrite Hsales.
      by repeat split.
Qed.

(** X8. When the approval of a sale answers success, the sale was an active
    pending sale of the admin's business; it is now stored approved
    ([pending_approval = false]), no line item changed, and every product has
    lost exactly the quantities of the line items of the sale. *)
Theorem approve_success_reduces_stock (request : Request) (uuid : N)
    (st : Store) :
  (ApproveSaleView_post request uuid st).2 = Resp 200 Success →
  let st' := (ApproveSaleView_post request uuid st).1 in
  ∃ business s,
    get_business_for_request request = Some business
    ∧ sales st !! uuid = Some s
    ∧ is_pending business s = true
    ∧ sales st'
      = <[uuid := Sale.with_updated_at (now st)
                    (Sale.with_pending_approval false s)]> (sales st)
    ∧ sale_items st' = sale_items st
    ∧ stock_reduced_by (Sale_items_all uuid st) st st'.
Proof.
  intros Hok. simpl.
  destruct (ApproveSaleView_post_success _ _ _ Hok)
    as (business & s & st1 & Hb & Hs & Hpending & Hloop & ->).
  destruct (approve_items_inv _ _ _ _ Hloop) as (Hsales & Hitems & Hreduced).
  pose proof (approve_items_now (Sale_items_all uuid st) st) as Hnow.
  rewrite Hloop in Hnow. simpl in Hnow, Hreduced.
  exists business, s. simpl. rewrite Hsales, Hnow. repeat split; done.
Qed.

Lemma ApproveSaleView_post_not_pending request uuid st :
  (∀ s, sales st !! uuid = Some s →
        Sale.pending_approval s = false ∨ Sale.active s = false) →
  (ApproveSaleView_post request uuid st).1 = st
  ∧ is_refusal (ApproveSaleView_post request uuid st).2 = true.
Proof.
  intros Hnot. unfold ApproveSaleView_post, dispatch.
  destruct (IsInBusiness request && IsAdmin request); [| done].
  destruct (get_business_for_request request) as [business |]; [| done].
  erewrite bind_inr; [| apply try_run, Sale_objects_get_run].
  destruct (sales st !! uuid) as [s |] eqn:Hs; [| done].
  assert (Hpending : is_pending business s = false).
  { unfold is_pending. destruct (Hnot s eq_refl) as [-> | ->];
      [by rewrite andb_false_r | done]. }
  by rewrite Hpending.
Qed.

(** X9. An approval cannot be repeated: after a successful approval of a
    sale, another approval of the same sale, by whomever, is refused and
    leaves the store -- and so every stock -- as the first approval left
    it. *)
Theorem approve_is_not_repeatable (request again : Request) (uuid : N)
    (st : Store) :
  (ApproveSaleView_post request uuid st).2 = Resp 200 Success →
  let st' := (ApproveSaleView_post request uuid st).1 in
  (ApproveSaleView_post again uuid st').1 = st'
  ∧ is_refusal (ApproveSaleView_post again uuid st').2 = true.
Proof.
  intros Hok. simpl.
  destruct (ApproveSaleView_post_success _ _ _ Hok)
    as (business & s & st1 & _ & _ & _ & _ & ->).
  apply ApproveSaleView_post_not_pending. intros s'. simpl.
  rewrite lookup_insert_eq. intros [= <-]. by left.
Qed.

(** ** Successful bulk approval *)

Lemma approve_all_flags_run l st :
  (∀ r, r ∈ l → sales st !! r.1 = Some r.2) →
  NoDup l.*1 →
  ∃ st',
    approve_all_flags l st = (st', inr tt)
    ∧ products st' = products st
    ∧ sale_items st' = sale_items st
    ∧ ∀ uuid,
        sales st' !! uuid
        = (λ s, if bool_decide (uuid ∈ l.*1)
                then Sale.with_updated_at (now st)
                       (Sale.with_pending_approval false s)
                else s) <$> sales st !! uuid.
Proof.
  revert st. induction l as [| r l IH]; intros st Hin Hnodup.
  - exists st. split; [done |]. split; [done |]. split; [done |].
    intros uuid. simpl. by destruct (sales st !! uuid).
  - apply NoDup_cons in Hnodup as [Hfresh Hnodup]. simpl.
    pose proof (Sale_save_result (r.1, Sale.with_pending_approval false r.2) st)
      as Hsave.
    simpl in Hsave. rewrite (Hin r) in Hsave by apply list_elem_of_here.
    set (s1 := Sale.with_updated_at (now st) (Sale.with_pending_approval false r.2))
      in Hsave.
    set (st1 := set_sales (<[r.1 := s1]> (sales st)) st) in Hsave.
    destruct (IH st1) as (st' & Hrun & Hp & Hi & Hs); [| done |].
    { intros r' Hr'. simpl. rewrite lookup_insert_ne; [by apply Hin; right |].
      intros Heq. apply Hfresh. rewrite Heq.
      apply list_elem_of_fmap. by exists r'. }
    exists st'. split; [by erewrite bind_inr; [| exact Hsave] |].
    split; [done |]. split; [done |].
    intros uuid. rewrite Hs. simpl.
    destruct (decide (r.1 = uuid)) as [<- | Hne].
    + rewrite lookup_insert_eq, (Hin r) by apply list_elem_of_here. simpl.
      rewrite bool_decide_eq_false_2 by done.
      rewrite bool_decide_eq_true_2 by apply list_elem_of_here. done.
    + rewrite lookup_insert_ne by done.
      destruct (sales st !! uuid) as [s |]; [| done]. simpl. f_equal.
      destruct (bool_decide (uuid ∈ l.*1)) eqn:Hl.
      * apply bool_decide_eq_true in Hl.
        rewrite bool_decide_eq_true_2; [done |]. by right.
      * apply bool_decide_eq_false in Hl.
        rewrite bool_decide_eq_false_2; [done |].
        intros [Heq | Hin']%elem_of_cons; [by apply Hne | by apply Hl].
Qed.

Lemma ApproveAllPendingView_post_success request st approved_count :
  (ApproveAllPendingView_post request st).2
  = Resp 200 (ApprovedCount approved_count) →
  ∃ business st1,
    IsInBusiness request && IsAdmin request = true
    ∧ get_business_for_request request = Some business
    ∧ approved_count
      = List.length (Sale_objects_filter (λ r, is_pending business r.2) st)
    ∧ approve_all_stock (Sale_objects_filter (λ r, is_pending business r.2) st) st
      = (st1, inr None)
    ∧ approve_all_flags (Sale_objects_filter (λ r, is_pending business r.2) st) st1
      = ((ApproveAllPendingView_post request st).1, inr tt).
Proof.
  unfold ApproveAllPendingView_post, dispatch.
  destruct (IsInBusiness request && IsAdmin request); [| done].
  destruct (get_business_for_request request) as [business |]; [| done].
  erewrite bind_inr; [| reflexivity].
  set (pending := Sale_objects_filter _ st).
  destruct (approve_all_stock pending st) as [st1 [e | early]] eqn:Hloop.
  - erewrite bind_inl; [| exact Hloop]. done.
  - erewrite bind_inr; [| exact Hloop].
    destruct (approve_all_stock_inv _ _ _ _ Hloop) as (_ & _ & Hearly).
    destruct early as [response |]; simpl in Hearly.
    + destruct Hearly as (? & ? & ? & ? & _ & _ & _ & _ & ->). done.
    + destruct (approve_all_flags pending st1) as [st2 [e | []]] eqn:Hflags.
      * erewrite bind_inl; [| exact Hflags]. done.
      * erewrite bind_inr; [| exact Hflags]. simpl. intros [= <-].
        by exists business, st1.
Qed.

Lemma approve_all_flags_pending business st st1 st2 :
  sales st1 = sales st →
  now st1 = now st →
  approve_all_flags (Sale_objects_filter (λ r, is_pending business r.2) st) st1
  = (st2, inr tt) →
  products st2 = products st1
  ∧ sale_items st2 = sale_items st1
  ∧ ∀ uuid,
      sales st2 !! uuid
      = (λ s, if is_pending business s
              then Sale.with_updated_at (now st)
                     (Sale.with_pending_approval false s)
              else s) <$> sales st !! uuid.
Proof.
  intros Hsales Hnow Hrun.
  destruct (approve_all_flags_run
              (Sale_objects_filter (λ r, is_pending business r.2) st) st1)
    as (st2' & Hflags & Hp2 & Hi2 & Hs2).
  { intros [u s] [Hs _]%elem_of_Sale_objects_filter. by rewrite Hsales. }
  { apply Sale_objects_filter_NoDup. }
  rewrite Hflags in Hrun. injection Hrun as <-.
  split; [done |]. split; [done |].
  intros uuid. rewrite Hs2, Hsales, Hnow.
  destruct (sales st !! uuid) as [s |] eqn:Hs; [| done]. simpl. f_equal.
  destruct (is_pending business s) eqn:Hpending.
  - rewrite bool_decide_eq_true_2; [done |].
    apply list_elem_of_fmap. exists (uuid, s). split; [done |].
    by apply elem_of_Sale_objects_filter.
  - rewrite bool_decide_eq_false_2; [done |].
    intros ([u s'] & -> & [Hs' Hp']%elem_of_Sale_objects_filter)%list_elem_of_fmap.
    simpl in *. congruence.
Qed.

(** X10. When the bulk approval answers success, it has approved exactly the
    active pending sales of the admin's business, as many as it reports: each
    of them is stored with [pending_approval = false], every other sale is as
    it was, no line item changed, and every product has lost exactly the
    quantities of the line items of the approved sales. *)
Theorem approve_all_success_reduces_stock (request : Request) (st : Store)
    (approved_count : nat) :
  (ApproveAllPendingView_post request st).2
  = Resp 200 (ApprovedCount approved_count) →
  let st' := (ApproveAllPendingView_post request st).1 in
  ∃ business,
    get_business_for_request request = Some business
    ∧ approved_count
      = List.length (Sale_objects_filter (λ r, is_pending business r.2) st)
    ∧ (∀ uuid,
         sales st' !! uuid
         = (λ s, if is_pending business s
                 then Sale.with_updated_at (now st)
                        (Sale.with_pending_approval false s)
                 else s) <$> sales st !! uuid)
    ∧ sale_items st' = sale_items st
    ∧ stock_reduced_by
        (items_of_sales (Sale_objects_filter (λ r, is_pending business r.2) st) st)
        st st'.
Proof.
  intros Hok. simpl.
  destruct (ApproveAllPendingView_post_success _ _ _ Hok)
    as (business & st1 & _ & Hb & Hcount & Hloop & Hflags).
  destruct (approve_all_stock_inv _ _ _ _ Hloop) as (Hsales & Hitems & Hreduced).
  pose proof (preserves_approve_all_stock_blind (λ s, now s = now st)
                (Sale_objects_filter (λ r, is_pending business r.2) st)
                (λ _ _ H, H) st eq_refl) as Hnow.
  rewrite Hloop in Hnow. simpl in Hnow, Hreduced.
  destruct (approve_all_flags_pending _ _ _ _ Hsales Hnow Hflags)
    as (Hp2 & Hi2 & Hs2).
  exists business. split; [done |]. split; [done |]. split; [done |].
  split; [congruence |].
  intros pk p Hpk. destruct (Hreduced pk p Hpk) as (p' & Hp' & Hstock).
  exists p'. split; [by rewrite Hp2 |]. exact Hstock.
Qed.

Lemma Sale_objects_filter_nil f st :
  (∀ uuid s, sales st !! uuid = Some s → f (uuid, s) = false) →
  Sale_objects_filter f st = [].
Proof.
  intros Hnone. destruct (Sale_objects_filter f st) as [| [u s] l] eqn:Hl; [done |].
  assert (Hin : (u, s) ∈ Sale_objects_filter f st) by (rewrite Hl; left).
  apply elem_of_Sale_objects_filter in Hin as [Hs Hf].
  rewrite (Hnone u s Hs) in Hf. done.
Qed.

(** X11. After a successful bulk approval nothing is left to approve: a
    second bulk approval by the same admin reports zero approved sales and
    leaves the store -- and so every stock -- as the first one left it. *)
Theorem approve_all_is_not_repeatable (request : Request) (st : Store)
    (approved_count : nat) :
  (ApproveAllPendingView_post request st).2
  = Resp 200 (ApprovedCount approved_count) →
  let st' := (ApproveAllPendingView_post request st).1 in
  ApproveAllPendingView_post request st' = (st', Resp 200 (ApprovedCount 0)).
Proof.
  intros Hok. simpl.
  destruct (ApproveAllPendingView_post_success _ _ _ Hok)
    as (business & st1 & Hperm & Hb & _ & Hloop & Hflags).
  destruct (approve_all_stock_inv _ _ _ _ Hloop) as (Hsales & _ & _).
  pose proof (preserves_approve_all_stock_blind (λ s, now s = now st)
                (Sale_objects_filter (λ r, is_pending business r.2) st)
                (λ _ _ H, H) st eq_refl) as Hnow.
  rewrite Hloop in Hnow. simpl in Hnow.
  destruct (approve_all_flags_pending _ _ _ _ Hsales Hnow Hflags)
    as (_ & _ & Hs2).
  set (st' := (ApproveAllPendingView_post request st).1) in *.
  unfold ApproveAllPendingView_post, dispatch. rewrite Hperm, Hb.
  erewrite bind_inr; [| reflexivity].
  rewrite Sale_objects_filter_nil; [done |].
  intros uuid s'. rewrite Hs2. simpl.
  destruct (sales st !! uuid) as [s |]; [| done]. simpl. intros [= <-].
  destruct (is_pending business s) eqn:Hp; [| done].
  unfold is_pending. simpl. by rewrite andb_false_r.
Qed.

(** ** Destroying a sale *)

Lemma stock_restored_by_nil st : stock_restored_by [] st st.
Proof. intros pk p Hp. exists p. split; [done |]. simpl. lia. Qed.

Lemma stock_restored_by_app l1 l2 st st1 st' :
  stock_restored_by l1 st st1 → stock_restored_by l2 st1 st' →
  stock_restored_by (l1 ++ l2) st st'.
Proof.
  intros H1 H2 pk p Hp.
  destruct (H1 pk p Hp) as (p1 & Hp1 & Hs1).
  destruct (H2 pk p1 Hp1) as (p' & Hp' & Hs').
  exists p'. split; [done |]. rewrite sold_app. lia.
Qed.

Lemma restore_stock_inv items st st' :
  restore_stock items st = (st', inr tt) →
  sales st' = sales st ∧ sale_items st' = sale_items st ∧ now st' = now st
  ∧ stock_restored_by items st st'.
Proof.
  revert st. induction items as [| item items IH]; intros st; simpl.
  - intros [= <-]. repeat split; try done. apply stock_restored_by_nil.
  - intros (st0 & inst & Hget & Hrest)%bind_inv_inr.
    apply Product_by_pk_inv in Hget as (-> & Hpk & Hp).
    apply bind_inv_inr in Hrest as (st1 & inst' & Hsave & Hrest).
    apply Product_save_inv in Hsave as (lid & -> & ->).
    destruct (IH _ Hrest) as (Hs & Hi & Hn & Hrestored).
    split; [done |]. split; [done |]. split; [done |].
    apply (stock_restored_by_app [item] items st
             (set_products
                (<[inst.1 := Product.with_id lid
                               (Product.with_updated_at (now st)
                                  (Product.with_stock
                                     (Product.stock inst.2
                                      + Z.of_N (SaleItem.quantity item)) inst.2))]>
                   (products st)) st)); [| exact Hrestored].
    intros pk p0 Hp0. simpl.
    destruct (N.eqb_spec (SaleItem.product item) pk) as [<- | Hne].
    + rewrite Hpk, lookup_insert_eq. eexists. split; [done |]. simpl.
      rewrite Hp in Hp0. injection Hp0 as <-. lia.
    + rewrite Hpk, lookup_insert_ne by done. exists p0. split; [done | lia].
Qed.

Lemma SaleViewSet_destroy_success request include_inactive uuid st :
  (SaleViewSet_destroy request include_inactive uuid st).2 = Resp 204 NoBody →
  ∃ s st1,
    sales st !! uuid = Some s
    ∧ SaleViewSet_get_queryset request include_inactive s = true
    ∧ restore_stock (Sale_items_all uuid st) st = (st1, inr tt)
    ∧ (SaleViewSet_destroy request include_inactive uuid st).1
      = set_sales
          (<[uuid := Sale.with_updated_at (now st1) (Sale.with_active false s)]>
             (sales st1)) st1.
Proof.
  unfold SaleViewSet_destroy, dispatch.
  destruct (IsInBusiness request); [| done].
  erewrite bind_inr; [| apply try_run, Sale_objects_get_run].
  destruct (sales st !! uuid) as [s |] eqn:Hs; [| done].
  destruct (SaleViewSet_get_queryset request include_inactive s) eqn:Hq; [| done].
  erewrite bind_inr; [| reflexivity]. simpl.
  destruct (restore_stock (Sale_items_all uuid st) st) as [st1 [e | []]] eqn:Hloop.
  - erewrite bind_inl; [| exact Hloop]. done.
  - erewrite bind_inr; [| exact Hloop].
    destruct (restore_stock_inv _ _ _ Hloop) as (Hsales & _).
    erewrite bind_inr; [| apply Sale_save_result]. simpl. intros _.
    rewrite Hsales, Hs. exists s, st1. rewrite Hsales. by repeat split.
Qed.

(** X12. When the destroy of a sale answers 204, the sale was one that
    [get_queryset] shows to the requesting user; it is now stored inactive, no
    line item changed, and every product has gained exactly the quantities of
    the line items of the sale -- whether or not the sale was active
    before. *)
Theorem destroy_success_restores_stock (request : Request)
    (include_inactive : bool) (uuid : N) (st : Store) :
  (SaleViewSet_destroy request include_inactive uuid st).2 = Resp 204 NoBody →
  let st' := (SaleViewSet_destroy request include_inactive uuid st).1 in
  ∃ s,
    (uuid, s) ∈ SaleViewSet_queryset request include_inactive st
    ∧ sales st'
      = <[uuid := Sale.with_updated_at (now st) (Sale.with_active false s)]>
          (sales st)
    ∧ sale_items st' = sale_items st
    ∧ stock_restored_by (Sale_items_all uuid st) st st'.
Proof.
  intros Hok. simpl.
  destruct (SaleViewSet_destroy_success _ _ _ _ Hok)
    as (s & st1 & Hs & Hq & Hloop & ->).
  destruct (restore_stock_inv _ _ _ Hloop) as (Hsales & Hitems & Hnow & Hrestored).
  exists s. simpl. rewrite Hsales, Hnow. split; [| by repeat split].
  by apply elem_of_Sale_objects_filter.
Qed.

(** X13. Destroy reaches only the sales that [get_queryset] shows: for a sale
    that is pending approval, for a sale that a worker did not create, and
    for an inactive sale unless an admin asks for inactive sales, the answer
    is a refusal and the store -- and so every stock -- is untouched. *)
Theorem destroy_reaches_only_listed_sales (request : Request)
    (include_inactive : bool) (uuid : N) (s : Sale.t) (st : Store) :
  sales st !! uuid = Some s →
  Sale.pending_approval s = true
  ∨ (has_role "worker" request = true
     ∧ Sale.created_by s ≠ User.pk <$> user request)
  ∨ (Sale.active s = false
     ∧ (include_inactive = false ∨ has_role "admin" request = false)) →
  (SaleViewSet_destroy request include_inactive uuid st).1 = st
  ∧ is_refusal (SaleViewSet_destroy request include_inactive uuid st).2 = true.
Proof.
  intros Hs Hhidden.
  assert (Hq : SaleViewSet_get_queryset request include_inactive s = false).
  { unfold SaleViewSet_get_queryset.
    destruct (get_business_for_request request) as [business |]; [| done].
    destruct Hhidden as [Hp | [[Hw Hother] | [Ha Hflag]]].
    - rewrite Hp. simpl. by rewrite andb_false_r.
    - rewrite Hw, bool_decide_eq_false_2 by done. by rewrite andb_false_r.
    - assert (Hgate : include_inactive && has_role "admin" request = false)
        by (destruct Hflag as [-> | ->]; [done | by rewrite andb_false_r]).
      rewrite Hgate, Ha. simpl. by rewrite andb_false_r. }
  unfold SaleViewSet_destroy, dispatch.
  destruct (IsInBusiness request); [| done].
  erewrite bind_inr; [| apply try_run, Sale_objects_get_run].
  by rewrite Hs, Hq.
Qed.

Lemma SaleViewSet_reactivate_run request uuid s st :
  has_role "admin" request = true →
  sales st !! uuid = Some s →
  get_business_for_request request = Some (Sale.business s) →
  Sale.active s = false →
  SaleViewSet_reactivate request uuid st
  = (set_sales
       (<[uuid := Sale.with_updated_at (now st) (Sale.with_active true s)]>
          (sales st)) st,
     Resp 200
       (SaleData (uuid, Sale.with_updated_at (now st) (Sale.with_active true s)))).
Proof.
  intros Hadmin Hs Hb Hinactive. unfold SaleViewSet_reactivate, dispatch.
  rewrite (has_role_IsInBusiness _ _ Hadmin), Hadmin. simpl.
  erewrite bind_inr; [| apply try_run, Sale_objects_get_run].
  rewrite Hs, Hb, bool_decide_eq_true_2 by done. simpl. rewrite Hinactive.
  erewrite bind_inr; [| apply Sale_save_result]. simpl. by rewrite Hs.
Qed.

(** X14. Destroy and reactivate are not inverse to each other: after a
    destroy answered with 204, the reactivation of the sale by an admin of
    the business stores the sale active again but reduces no stock, so every
    product keeps what the destroy gave back. *)
Theorem destroy_then_reactivate_keeps_restored_stock (request admin : Request)
    (include_inactive : bool) (uuid : N) (st : Store) :
  (SaleViewSet_destroy request include_inactive uuid st).2 = Resp 204 NoBody →
  has_role "admin" admin = true →
  get_business_for_request admin = get_business_for_request request →
  let st1 := (SaleViewSet_destroy request include_inactive uuid st).1 in
  let st2 := (SaleViewSet_reactivate admin uuid st1).1 in
  stock_restored_by (Sale_items_all uuid st) st st2
  ∧ sale_items st2 = sale_items st
  ∧ ∃ s s2, sales st !! uuid = Some s
            ∧ sales st2 !! uuid = Some s2
            ∧ Sale.active s2 = true
            ∧ Sale.pending_approval s2 = Sale.pending_approval s
            ∧ Sale.total s2 = Sale.total s.
Proof.
  intros Hok Hadmin Hsame. simpl.
  destruct (SaleViewSet_destroy_success _ _ _ _ Hok)
    as (s & st1 & Hs & Hq & Hloop & ->).
  destruct (restore_stock_inv _ _ _ Hloop) as (Hsales & Hitems & Hnow & Hrestored).
  assert (Hb : get_business_for_request admin
               = Some (Sale.business (Sale.with_updated_at (now st1)
                                        (Sale.with_active false s)))).
  { rewrite Hsame. revert Hq. unfold SaleViewSet_get_queryset.
    destruct (get_business_for_request request) as [business |]; [| done].
    intros [[[H%Z.eqb_eq _]%andb_prop _]%andb_prop _]%andb_prop. simpl.
    by rewrite H. }
  erewrite SaleViewSet_reactivate_run;
    [| exact Hadmin | apply lookup_insert_eq | exact Hb | done].
  simpl. split; [exact Hrestored |]. split; [exact Hitems |].
  eexists s, _. split; [done |]. split; [apply lookup_insert_eq |]. done.
Qed.

(** ** Invariants of every view *)

Lemma hoare_conj {A} (P1 P2 : Store → Prop) (m : Db A)
    (Q1 Q2 : Exception + A → Store → Prop) :
  hoare P1 m Q1 → hoare P2 m Q2 →
  hoare (λ st, P1 st ∧ P2 st) m (λ r st, Q1 r st ∧ Q2 r st).
Proof. intros H1 H2 st [HP1 HP2]. split; [by apply H1 | by apply H2]. Qed.

(** The row that a query with keywords returns is a stored row. *)
Lemma Product_objects_get_by_stored kwargs :
  hoare (λ _, True) (Product_objects_get_by kwargs)
    (λ r st, ∀ inst, r = inr inst → products st !! inst.1 = Some inst.2).
Proof.
  intros st _ inst Hr.
  destruct (Product_objects_get_by kwargs st) as [st' r] eqn:Hrun.
  simpl in *. subst r. unfold Product_objects_get_by in Hrun.
  apply bind_inv_inr in Hrun as (st1 & test & Hlookups & Hrun).
  pose proof (preserves_all_unchanged (Product_lookups kwargs) st
                (λ I, preserves_Product_lookups I kwargs)) as Hsame.
  rewrite Hlookups in Hsame. simpl in Hsame. subst st1.
  erewrite bind_inr in Hrun; [| reflexivity].
  destruct (List.filter test (map_to_list (products st)))
    as [| r [| ? ?]] eqn:Hrows; try done.
  injection Hrun as <- <-. destruct r as [pk p].
  assert (Hin : In (pk, p) (List.filter test (map_to_list (products st))))
    by (rewrite Hrows; by left).
  apply filter_In in Hin as [Hin _].
  by apply elem_of_map_to_list, list_elem_of_In.
Qed.

(** Every view keeps an invariant that every [Product.save] keeps, that
    survives the growth of the sale table and the passing of time, and that
    the creation of a line item of a stored sale and a stored product
    keeps. *)
Section EveryView.
Variable b64decode : string → option string.
Variable I : Store → Prop.
Hypothesis Hproduct : ∀ inst, preserves I (Product_save inst).
Hypothesis Hsales : sales_growing I.
Hypothesis Hclock : clock_blind I.
Hypothesis Hitem : ∀ sale product quantity total_price,
  hoare (λ st, I st ∧ is_Some (sales st !! sale)
               ∧ is_Some (products st !! product))
        (SaleItem_objects_create sale product quantity total_price)
        (λ _, I).

Lemma every_Sale_save force_insert inst : preserves I (Sale_save force_insert inst).
Proof.
  intros st Hst. unfold Sale_save, bind, timezone_now, read, write, ret, raise.
  simpl.
  destruct (sales st !! inst.1), force_insert; simpl; try done;
    (apply Hsales; [rewrite dom_insert_L; set_solver | done]).
Qed.

Lemma every_approve_items items : preserves I (approve_items items).
Proof.
  induction items; simpl; pres; auto using preserves_Product_by_pk.
Qed.

Lemma every_approve_all_stock l : preserves I (approve_all_stock l).
Proof. induction l; simpl; pres; auto using every_approve_items. Qed.

Lemma every_approve_all_flags l : preserves I (approve_all_flags l).
Proof. induction l; simpl; pres; auto using every_Sale_save. Qed.

Lemma every_restore_stock items : preserves I (restore_stock items).
Proof.
  induction items; simpl; pres; auto using preserves_Product_by_pk.
Qed.

Lemma every_SaleSync_reduce_stock items :
  preserves I (SaleSync_reduce_stock items).
Proof.
  induction items; simpl; pres; auto using preserves_Product_by_pk.
Qed.

Lemma every_Product_objects_update_or_create kwargs d :
  preserves I (Product_objects_update_or_create kwargs d).
Proof.
  eapply hoare_weaken;
    [apply (Product_objects_update_or_create_hoare I (λ _ _, True)) | done |].
  - intros pk p st Hst. split; [by apply Hproduct | done].
  - by intros r st [Hst _].
Qed.

Lemma every_ProductSync_loop business_id items :
  preserves I (ProductSync_loop b64decode business_id items).
Proof.
  induction items; simpl; pres; [| done].
  unfold ProductSync_item. pres;
    auto using every_Product_objects_update_or_create.
Qed.

(** The upsert of a sale keeps the invariant, and the sale it returns is
    stored. *)
Lemma every_Sale_objects_update_or_create uuid business_id d :
  hoare I (Sale_objects_update_or_create uuid business_id d)
    (λ r st, I st ∧ ∀ inst c, r = inr (inst, c) → is_Some (sales st !! inst.1)).
Proof.
  intros st Hst.
  assert (Hgrow : ∀ s, I (set_sales (<[uuid := s]> (sales st)) st)).
  { intros s. apply Hsales; [| done]. rewrite dom_insert. set_solver. }
  destruct (sales st !! uuid) as [s |] eqn:Hs.
  - destruct (decide (Sale.business s = business_id)) as [Hb | Hb].
    + rewrite (Sale_objects_update_or_create_existing _ _ d _ _ Hs Hb). simpl.
      split; [apply Hgrow |]. intros ? ? [= <- <-]. simpl.
      rewrite lookup_insert_eq. eauto.
    + rewrite (Sale_objects_update_or_create_foreign _ _ d _ _ Hs Hb). simpl.
      split; [done | intros ? ? [=]].
  - rewrite (Sale_objects_update_or_create_new _ business_id d _ Hs). simpl.
    split; [apply Hgrow |]. intros ? ? [= <- <-]. simpl.
    rewrite lookup_insert_eq. eauto.
Qed.

Lemma every_SaleSync_create_items sale business_id items_data :
  hoare (λ st, I st ∧ is_Some (sales st !! sale))
        (SaleSync_create_items sale business_id items_data)
        (λ _, I).
Proof.
  induction items_data as [| item_data items_data IH]; simpl.
  - by intros st [Hst _].
  - eapply hoare_bind with
      (Q := λ r st, (I st ∧ is_Some (sales st !! sale))
                    ∧ ∀ inst, r = inr inst → products st !! inst.1 = Some inst.2).
    + eapply hoare_pre; [apply hoare_conj;
                           [apply preserves_Product_objects_get_by
                           | apply Product_objects_get_by_stored] |].
      intros st Hst. by split.
    + intros product.
      eapply hoare_bind with (Q := λ _ st, I st ∧ is_Some (sales st !! sale)).
      * eapply hoare_pre; [apply hoare_conj;
                             [apply Hitem
                             | apply (preserves_SaleItem_objects_create
                                        (λ st, is_Some (sales st !! sale)));
                               by intros ? ? ?] |].
        intros st [[Hst Hsale] Hprod]. rewrite (Hprod product eq_refl).
        repeat split; eauto.
      * intros _. exact IH.
      * by intros e st [Hst _].
    + by intros e st [[Hst _] _].
Qed.

Lemma every_SaleSync_sale request_user business_id is_worker sale_data :
  preserves I (SaleSync_sale request_user business_id is_worker sale_data).
Proof.
  unfold SaleSync_sale.
  eapply hoare_bind; [apply every_Sale_objects_update_or_create | |
                      by intros e st [Hst _]].
  intros [sale created] st [Hst Hsale]. specialize (Hsale sale created eq_refl).
  revert st Hst Hsale.
  assert (Hbody : hoare (λ st, I st ∧ is_Some (sales st !! sale.1))
            ((if created
              then SaleSync_create_items sale.1 business_id
                     (SaleSyncItem.items_data sale_data);;
                   if negb is_worker
                   then do items <- read (Sale_items_all sale.1);
                        SaleSync_reduce_stock items
                   else ret tt
              else ret tt);; ret sale)
            (λ _, I)).
  { eapply hoare_bind with (Q := λ _, I); [| intros; apply preserves_ret | done].
    destruct created; [| by intros st [Hst _]].
    eapply hoare_bind with (Q := λ _, I);
      [apply every_SaleSync_create_items | | done].
    intros _. destruct is_worker; simpl; pres.
    apply every_SaleSync_reduce_stock. }
  intros st Hst Hsale. by apply Hbody.
Qed.

Lemma every_SaleSync_loop request_user business_id is_worker sales_data :
  preserves I (SaleSync_loop request_user business_id is_worker sales_data).
Proof.
  induction sales_data; simpl; pres; auto using every_SaleSync_sale.
Qed.

Lemma every_run op st : I st → I (run b64decode op st).1.
Proof.
  destruct op; simpl.
  - unfold ProductSyncView_post. apply preserves_dispatch.
    destruct (negb (ProductSyncSerializer_is_valid data)); pres.
    unfold ProductSyncSerializer_create. pres. apply every_ProductSync_loop.
  - unfold SaleSyncView_post. apply preserves_dispatch.
    pres; auto using preserves_SaleSyncSerializer_is_valid.
    unfold SaleSyncSerializer_create. pres. apply every_SaleSync_loop.
  - unfold ApproveSaleView_post. apply preserves_dispatch.
    pres; auto using preserves_Sale_objects_get, every_approve_items,
                     every_Sale_save.
  - unfold ApproveAllPendingView_post. apply preserves_dispatch.
    pres; auto using every_approve_all_stock, every_approve_all_flags.
  - unfold RejectSaleView_post. apply preserves_dispatch.
    pres; auto using preserves_Sale_objects_get, every_Sale_save.
  - unfold RejectAllPendingView_post. apply preserves_dispatch.
    pres. apply preserves_write. intros st' Hst'. apply Hsales; [| done].
    simpl. by rewrite dom_fmap.
  - unfold SaleViewSet_destroy. apply preserves_dispatch.
    pres; auto using preserves_Sale_objects_get, every_restore_stock,
                     every_Sale_save.
  - unfold SaleViewSet_reactivate. apply preserves_dispatch.
    pres; auto using preserves_Sale_objects_get, every_Sale_save.
  - apply Hclock.
Qed.

Lemma every_history st ops : I st → Forall I (history b64decode st ops).
Proof.
  revert st. induction ops as [| op ops IH]; intros st Hst; simpl.
  - constructor.
  - constructor; [| apply IH]; by apply every_run.
Qed.
End EveryView.
(** ** The invariants of the store *)

Lemma SaleItem_objects_create_inv sale product quantity total_price st st' item :
  SaleItem_objects_create sale product quantity total_price st = (st', inr item) →
  item = SaleItem.mk sale product (Z.to_N quantity) total_price
  ∧ st' = set_sale_items (sale_items st ++ [item]) st
  ∧ 0 < quantity
  ∧ Forall (λ i, SaleItem.product i ≠ product) (Sale_items_all sale st).
Proof.
  unfold SaleItem_objects_create. erewrite bind_inr; [| reflexivity].
  destruct (negb (decimal_10_2 total_price)); [done |].
  destruct (Z.leb_spec quantity 0); [done |].
  destruct (total_price <=? 0); [done |].
  destruct (existsb _ _) eqn:Hdup; [done |].
  unfold bind, write, ret. simpl. intros [= <- <-].
  split; [done |]. split; [done |]. split; [done |].
  apply Forall_forall. intros i Hi%list_elem_of_In Heq.
  assert (existsb (λ i, (SaleItem.product i =? product)%N)
            (Sale_items_all sale st) = true) as Hex; [| congruence].
  apply existsb_exists. exists i. split; [done |]. by apply N.eqb_eq.
Qed.

Lemma Sale_items_all_app uuid st l :
  Sale_items_all uuid (set_sale_items (sale_items st ++ l) st)
  = Sale_items_all uuid st ++ List.filter (λ i, (SaleItem.sale i =? uuid)%N) l.
Proof. unfold Sale_items_all. simpl. apply List.filter_app. Qed.

Lemma SaleItem_objects_create_result sale product quantity total_price st :
  (∃ e, SaleItem_objects_create sale product quantity total_price st = (st, inl e))
  ∨ (SaleItem_objects_create sale product quantity total_price st
     = (set_sale_items
          (sale_items st
           ++ [SaleItem.mk sale product (Z.to_N quantity) total_price]) st,
        inr (SaleItem.mk sale product (Z.to_N quantity) total_price))
     ∧ 0 < quantity
     ∧ Forall (λ i, SaleItem.product i ≠ product) (Sale_items_all sale st)).
Proof.
  destruct (SaleItem_objects_create sale product quantity total_price st)
    as [st' [e | item]] eqn:Hrun.
  - left. exists e. revert Hrun. unfold SaleItem_objects_create.
    erewrite bind_inr; [| reflexivity].
    repeat match goal with
           | |- context [if ?b then _ else _] => destruct b
           end; by intros [= <- <-].
  - right. apply SaleItem_objects_create_inv in Hrun as (-> & -> & Hq & Hfresh).
    done.
Qed.

Lemma keeps_rows_refl st : keeps_rows st st.
Proof. by repeat split. Qed.

Section Invariants.
Variable b64decode : string → option string.

Lemma Product_save_items_refer inst : preserves items_refer (Product_save inst).
Proof.
  intros st Hst.
  destruct (Product_save_result inst st) as [[e ->] | [lid ->]]; [done |].
  unfold items_refer in *. simpl. eapply Forall_impl; [exact Hst |].
  intros i [Hsale Hprod]. split; [done |].
  apply lookup_insert_is_Some. destruct (decide (inst.1 = SaleItem.product i)); eauto.
Qed.

(** X15. Referential integrity is an invariant: if the sale and the product
    of every line item are stored, they still are after every operation of
    any sequence. *)
Theorem references_stay_valid (st : Store) (ops : list Op) :
  items_refer st → Forall items_refer (history b64decode st ops).
Proof.
  apply every_history.
  - apply Product_save_items_refer.
  - intros st' v Hdom Hst. unfold items_refer in *. simpl.
    eapply Forall_impl; [exact Hst |]. intros i [Hsale Hprod]. split; [| done].
    apply elem_of_dom. apply Hdom. by apply elem_of_dom.
  - by intros st' t Hst.
  - intros sale product quantity total_price st' (Hst & Hsale & Hprod).
    destruct (SaleItem_objects_create_result sale product quantity total_price st')
      as [[e ->] | [-> _]]; [done |].
    unfold items_refer in *. simpl. apply Forall_app. split; [done |].
    by repeat constructor.
Qed.


Lemma same_qr_sym a b : same_qr a b = same_qr b a.
Proof.
  destruct a, b; simpl; try done.
  by destruct (decide (s = s0)) as [-> | ?];
    [rewrite !bool_decide_eq_true_2 | rewrite !bool_decide_eq_false_2].
Qed.

Lemma product_conflict_sym pk1 p1 pk2 p2 :
  product_conflict pk1 p1 (pk2, p2) = product_conflict pk2 p2 (pk1, p1).
Proof.
  unfold product_conflict. simpl.
  rewrite (N.eqb_sym pk2 pk1), (Z.eqb_sym (Product.business p2)),
    (N.eqb_sym (Product.id p2)), (same_qr_sym (Product.qr_code p2)).
  done.
Qed.

Lemma Product_save_checked inst st st' inst' :
  Product_save inst st = (st', inr inst') →
  product_unique inst'.1 inst'.2 (products st) = true
  ∧ st' = set_products (<[inst'.1 := inst'.2]> (products st)) st.
Proof.
  unfold Product_save. erewrite bind_inr; [| reflexivity].
  intros (st1 & p & Hp & Hsuper)%bind_inv_inr.
  assert (st1 = st) as ->.
  { revert Hp. destruct (Product.id _ =? 0)%N; [| by intros [= <-]].
    erewrite bind_inr; [| reflexivity]. by intros [= <-]. }
  revert Hsuper. unfold Product_super_save.
  erewrite bind_inr; [| reflexivity]. simpl.
  destruct (product_unique inst.1 p (products st)) eqn:Hu; [| done].
  unfold bind, write, ret. simpl. by intros [= <- <-].
Qed.

Lemma Product_save_products_unique inst :
  preserves products_unique (Product_save inst).
Proof.
  intros st Hst.
  destruct (Product_save inst st) as [st' [e | inst']] eqn:Hrun; simpl.
  - by destruct (Product_save_result inst st) as [[e' He] | [lid He]];
      rewrite He in Hrun; injection Hrun as <-.
  - apply Product_save_checked in Hrun as [Hchecked ->].
    assert (Hnew : ∀ pk p, products st !! pk = Some p →
              product_conflict inst'.1 inst'.2 (pk, p) = false).
    { intros pk p Hp. unfold product_unique in Hchecked.
      rewrite forallb_forall in Hchecked.
      apply negb_true_iff, Hchecked, list_elem_of_In, elem_of_map_to_list, Hp. }
    assert (Hself : ∀ pk p p', product_conflict pk p (pk, p') = false).
    { intros. unfold product_conflict. simpl. by rewrite N.eqb_refl. }
    intros pk1 p1 pk2 p2. simpl.
    destruct (decide (inst'.1 = pk1)) as [<- | Hne1];
      destruct (decide (inst'.1 = pk2)) as [<- | Hne2];
      rewrite ?lookup_insert_eq, ?lookup_insert_ne by done.
    + intros [= <-] [= <-]. apply Hself.
    + intros [= <-] Hp2. by apply Hnew.
    + intros Hp1 [= <-]. rewrite product_conflict_sym. by apply Hnew.
    + apply Hst.
Qed.


(** X18. Nothing is ever deleted: after every operation of any sequence,
    every sale and every product of the initial store is still stored, and
    the line items of the initial store are still there, unchanged and in
    their order, before the ones added since. *)
Theorem rows_are_never_deleted (st : Store) (ops : list Op) :
  Forall (keeps_rows st) (history b64decode st ops).
Proof.
  apply every_history; [| | | | apply keeps_rows_refl].
  - intros inst st' (Hs & Hp & Hi).
    destruct (Product_save_result inst st') as [[e ->] | [lid ->]]; [done |].
    split; [done |]. split; [| done]. simpl. rewrite dom_insert_L. set_solver.
  - intros st' v Hdom (Hs & Hp & Hi). split; [| done]. simpl. set_solver.
  - by intros st' t Hst.
  - intros sale product quantity total_price st' ((Hs & Hp & Hi) & _ & _).
    destruct (SaleItem_objects_create_result sale product quantity total_price st')
      as [[e ->] | [-> _]]; [done |].
    split; [done |]. split; [done |]. simpl.
    by apply prefix_app_r.
Qed.
End Invariants.

(** ** Validation comes before any write *)

(** X19. A sale push is validated as a whole before anything is written: if
    the push changed the store at all, then it was not empty and every one of
    its sales passed the validation, which a sale only does with a positive
    total of at most ten digits and without line items. *)
Theorem sale_sync_writes_only_after_validation (request : Request)
    (data : list SaleSyncItem.t) (st : Store) :
  (SaleSyncView_post request data st).1 ≠ st →
  data ≠ []
  ∧ Forall (λ sale_data,
              SaleSyncItem.items_data sale_data = []
              ∧ 0 < SaleSyncItem.total sale_data < 10 ^ 10) data.
Proof.
  unfold SaleSyncView_post, dispatch.
  destruct (IsInBusiness request); [| done].
  unfold bind at 1. rewrite SaleSyncSerializer_is_valid_run.
  destruct (has_business request && _); [done |].
  destruct (forallb bare_record data && _) eqn:Hvalid; [| done].
  intros _. apply andb_prop in Hvalid as [Hall Hne].
  split.
  - apply negb_true_iff, bool_decide_eq_false in Hne. exact Hne.
  - apply Forall_forall. intros sale_data Hin%list_elem_of_In.
    rewrite forallb_forall in Hall. specialize (Hall _ Hin).
    unfold bare_record, decimal_10_2 in Hall.
    apply andb_prop in Hall as [[Hnil%bool_decide_eq_true Hpos%Z.ltb_lt]%andb_prop
                                  Hdigits%Z.ltb_lt].
    split; [done |]. lia.
Qed.

(** X22. A sale push in which some sale has a line item stores nothing and
    ends in [FieldError], whoever of a business sends it and whatever else
    the push holds: [validate_product_id] queries [Product] by [local_id],
    which is no field of the model, and [is_valid] runs outside the [try] of
    the view. *)
Theorem sale_sync_with_item_raises_field_error (request : Request)
    (profile : UserProfile.t) (data : list SaleSyncItem.t)
    (sale_data : SaleSyncItem.t) (st : Store) :
  request_profile request = Some profile →
  UserProfile.business_id profile ≠ 0 →
  sale_data ∈ data →
  SaleSyncItem.items_data sale_data ≠ [] →
  SaleSyncView_post request data st = (st, Unhandled FieldError).
Proof.
  intros Hprofile Hbusiness Hin Hitems.
  apply SaleSyncView_post_with_item.
  - apply has_business_profile. eauto.
  - apply existsb_exists. exists sale_data.
    split; [by apply list_elem_of_In |].
    unfold has_item. by rewrite bool_decide_eq_false_2.
Qed.

(** X31. A push of sales without line items is an upsert.  When every sale
    of the push has a positive total of at most ten digits and no line item,
    the uuids are distinct, and each is free or the key of a sale of the
    sender's business, the push is answered [201] with the stored rows; a
    new uuid gets a new row of the business, created at the time of the
    push, and a known uuid keeps its row and its date of creation; either
    row takes the pushed total, is active, carries the sender as its creator
    and is pending exactly when the sender is a worker.  Every other sale,
    every product and every line item is as it was. *)
Theorem sale_sync_without_items_upserts (request : Request)
    (profile : UserProfile.t) (data : list SaleSyncItem.t) (st : Store) :
  request_profile request = Some profile →
  UserProfile.business_id profile ≠ 0 →
  sale_items_fk st →
  data ≠ [] →
  Forall (λ sale_data, bare_record sale_data = true) data →
  NoDup (SaleSyncItem.uuid <$> data) →
  Forall (λ sale_data,
            uuid_available (UserProfile.business_id profile) st
              (SaleSyncItem.uuid sale_data)) data →
  let row sale_data :=
    upserted (User.pk <$> user request) (UserProfile.business_id profile)
      (has_role "worker" request) (now st) sale_data
      (sales st !! SaleSyncItem.uuid sale_data) in
  let st' := (SaleSyncView_post request data st).1 in
  (SaleSyncView_post request data st).2
  = Resp 201 (SalesSynced (List.length data)
                ((λ sale_data, (SaleSyncItem.uuid sale_data, row sale_data))
                   <$> data) (now st))
  ∧ (∀ sale_data, sale_data ∈ data →
       sales st' !! SaleSyncItem.uuid sale_data = Some (row sale_data))
  ∧ (∀ uuid, uuid ∉ SaleSyncItem.uuid <$> data →
       sales st' !! uuid = sales st !! uuid)
  ∧ products st' = products st
  ∧ sale_items st' = sale_items st.
Proof.
  intros Hprofile Hbusiness Hfk Hdata Hbare Hdup Hfree row.
  destruct (SaleSyncView_post_bare request profile data st)
    as (st1 & -> & (Hp & Hi & _) & Hin & Hout); done.
Qed.

(** X32. The upsert of a known sale takes its approval back.  When a worker
    pushes, without line items, a sale that the business already stores --
    approved or not --, the stored sale is afterwards pending approval,
    active, of the pushed total and created by that worker; it keeps its
    business and its date of creation. *)
Theorem worker_push_makes_known_sale_pending (request : Request)
    (profile : UserProfile.t) (sale_data : SaleSyncItem.t) (s : Sale.t)
    (st : Store) :
  request_profile request = Some profile →
  UserProfile.role profile = "worker" →
  UserProfile.business_id profile ≠ 0 →
  sale_items_fk st →
  bare_record sale_data = true →
  sales st !! SaleSyncItem.uuid sale_data = Some s →
  Sale.business s = UserProfile.business_id profile →
  sales (SaleSyncView_post request [sale_data] st).1
    !! SaleSyncItem.uuid sale_data
  = Some (Sale.mk (Sale.business s) (SaleSyncItem.total sale_data)
            (Sale.created_at s) (now st) true true
            (User.pk <$> user request) true).
Proof.
  intros Hprofile Hrole Hbusiness Hfk Hbare Hs Hb.
  destruct (SaleSyncView_post_bare request profile [sale_data] st)
    as (st1 & -> & _ & Hin & _); try done.
  - by repeat constructor.
  - repeat constructor. set_solver.
  - repeat constructor. intros s'. rewrite Hs. by intros [= <-].
  - simpl. rewrite (Hin sale_data) by apply list_elem_of_here.
    rewrite Hs. unfold upserted, Sale_setattr, Sale.with_updated_at. simpl.
    unfold has_role. rewrite Hprofile, Hrole. by rewrite bool_decide_eq_true_2.
Qed.

Section ProductSyncValidation.
Variable b64decode : string → option string.

(** X20. A product push stores nothing.  Whatever it carries and whoever
    sends it, the store after the push is the store before it, and the
    answer is never [201]: a sender without profile is refused, invalid data
    is answered [400], and valid data ends in [500] -- for a sender with a
    business with the [FieldError] of the upsert, which looks the product up
    by [local_id], a field that [Product] does not declare. *)
Theorem product_sync_stores_nothing (request : Request)
    (data : list ProductSyncItem.t) (st : Store) :
  (ProductSyncView_post b64decode request data st).1 = st
  ∧ (ProductSyncView_post b64decode request data st).2
    = if negb (IsInBusiness request) then Forbidden
      else if negb (ProductSyncSerializer_is_valid data)
           then Resp 400 InvalidData
      else if has_business request then Resp 500 (Failure FieldError)
      else Resp 500 (Failure (ValidationError "Usuario sin negocio asignado")).
Proof.
  split; [apply ProductSyncView_post_unchanged |
          apply ProductSyncView_post_answer].
Qed.
End ProductSyncValidation.

(** ** A worker's push and the stock *)




(** ** Local ids *)

Lemma elem_of_Product_objects_filter f st pk p :
  (pk, p) ∈ Product_objects_filter f st ↔ products st !! pk = Some p ∧ f p = true.
Proof.
  unfold Product_objects_filter.
  rewrite list_elem_of_In, filter_In, <- list_elem_of_In, elem_of_map_to_list.
  done.
Qed.

Lemma Product_objects_filter_NoDup f st : NoDup (Product_objects_filter f st).*1.
Proof.
  unfold Product_objects_filter.
  assert (Hsub : sublist (List.filter (λ r : N * Product.t, f r.2)
                            (map_to_list (products st)))
                         (map_to_list (products st))).
  { induction (map_to_list (products st)) as [| x l IH]; simpl; [done |].
    destruct (f x.2); by constructor. }
  apply (sublist_NoDup _ (map_to_list (products st)).*1);
    [apply NoDup_fst_map_to_list | by apply fmap_sublist].
Qed.

Lemma Product_objects_filter_singleton f st pk p :
  Product_objects_filter f st = [(pk, p)]
  ↔ products st !! pk = Some p ∧ f p = true
    ∧ ∀ pk' p', products st !! pk' = Some p' → f p' = true → pk' = pk.
Proof.
  split.
  - intros Hrows. split; [| split].
    + apply (elem_of_Product_objects_filter f). rewrite Hrows. left.
    + apply (elem_of_Product_objects_filter f st pk). rewrite Hrows. left.
    + intros pk' p' Hp' Hf.
      assert (Hin : (pk', p') ∈ Product_objects_filter f st)
        by by apply elem_of_Product_objects_filter.
      rewrite Hrows in Hin. by apply list_elem_of_singleton in Hin as [= -> _].
  - intros (Hp & Hf & Honly).
    assert (Hin : (pk, p) ∈ Product_objects_filter f st)
      by by apply elem_of_Product_objects_filter.
    pose proof (Product_objects_filter_NoDup f st) as Hnodup.
    assert (Hkeys : ∀ r, r ∈ Product_objects_filter f st → r.1 = pk).
    { intros [pk' p'] [Hp' Hf']%elem_of_Product_objects_filter. simpl. eauto. }
    destruct (Product_objects_filter f st) as [| r1 [| r2 l]].
    + by apply elem_of_nil in Hin.
    + by apply list_elem_of_singleton in Hin as ->.
    + exfalso. simpl in Hnodup. apply NoDup_cons in Hnodup as [Hfresh _].
      apply Hfresh. rewrite (Hkeys r1), <- (Hkeys r2); [left | right; left | left].
Qed.

Lemma Product_save_run inst st :
  Product_save inst st
  = let p := Product.with_updated_at (now st) inst.2 in
    let p' := if (Product.id p =? 0)%N
              then Product.with_id
                     (next_local_id (Product.business p) st) p
              else p in
    if product_unique inst.1 p' (products st)
    then (set_products (<[inst.1 := p']> (products st)) st, inr (inst.1, p'))
    else (st, inl IntegrityError).
Proof.
  destruct inst as [pk p].
  unfold Product_save, Product_super_save, next_local_id, bind, timezone_now,
    read, write, ret, raise.
  simpl. destruct (Product.id p =? 0)%N; simpl;
    by destruct (product_unique _ _ _).
Qed.

Lemma foldr_max_spec (rows : list (N * Product.t)) (d : N) :
  let m := foldr (λ x acc, N.max (Product.id x.2) acc) d rows in
  (d ≤ m)%N
  ∧ (∀ r, r ∈ rows → (Product.id r.2 ≤ m)%N)
  ∧ (m = d ∨ ∃ r, r ∈ rows ∧ Product.id r.2 = m).
Proof.
  induction rows as [| x rows (Hd & Hle & Hmax)]; simpl.
  - split; [lia |]. split; [| by left]. by intros r ?%elem_of_nil.
  - split; [lia |]. split.
    + intros r [-> | Hr]%elem_of_cons; [lia |]. specialize (Hle r Hr). lia.
    + destruct (N.max_spec (Product.id x.2)
                  (foldr (λ x acc, N.max (Product.id x.2) acc) d rows))
        as [[_ ->] | [_ ->]].
      * destruct Hmax as [-> | (r & Hr & <-)]; [by left |].
        right. exists r. split; [by right | done].
      * right. exists x. split; [left | done].
Qed.

(** The next local id of a business is positive and above the local id of
    each of its products. *)
Lemma next_local_id_spec business st :
  (0 < next_local_id business st)%N
  ∧ ∀ pk p, products st !! pk = Some p → Product.business p = business →
            (Product.id p < next_local_id business st)%N.
Proof.
  unfold next_local_id, last_local_id.
  assert (Hrows : ∀ pk p, products st !! pk = Some p →
            Product.business p = business →
            (pk, p) ∈ Product_objects_filter
                        (λ p, Product.business p =? business) st).
  { intros pk p Hp Hb. apply elem_of_Product_objects_filter.
    split; [done |]. by apply Z.eqb_eq. }
  destruct (Product_objects_filter _ st) as [| r rows].
  - split; [lia |]. intros pk p Hp Hb. by apply Hrows, elem_of_nil in Hp.
  - destruct (foldr_max_spec rows (Product.id r.2)) as (Hd & Hle & _).
    split; [lia |]. intros pk p Hp Hb.
    pose proof (Hrows _ _ Hp Hb) as [Heq | Hin]%elem_of_cons.
    + subst r. simpl in *. lia.
    + specialize (Hle _ Hin). simpl in *. lia.
Qed.

Lemma Product_save_keeps_local_id inst st st' r :
  Product.id inst.2 ≠ 0%N →
  Product_save inst st = (st', r) →
  st' = st ∧ r = inl IntegrityError
  ∨ st' = set_products
            (<[inst.1 := Product.with_updated_at (now st) inst.2]> (products st)) st
    ∧ r = inr (inst.1, Product.with_updated_at (now st) inst.2).
Proof.
  intros Hid. rewrite Product_save_run. simpl.
  apply N.eqb_neq in Hid. rewrite Hid.
  destruct (product_unique _ _ _); intros [= <- <-]; auto.
Qed.


Section LocalIds.
Variable b64decode : string → option string.


End LocalIds.

(** ** Pushed products that are known *)

Lemma same_catalogue_refl st : same_catalogue st st.
Proof. intros pk. by destruct (products st !! pk). Qed.


Section ProductSyncStores.
Variable b64decode : string → option string.

(** X24. Pushing products the business already stores adds no product: when
    every pushed product carries a local id other than 0 under which the
    sender's business stores exactly one product, the products after the
    push are the products before it, each under its key and with its
    business and local id, whatever the response. *)
Theorem product_sync_of_known_ids_adds_no_product (request : Request)
    (data : list ProductSyncItem.t) (business : Z) (st : Store) :
  get_business_for_request request = Some business →
  Forall (λ item, product_known business st item = true) data →
  same_catalogue st (ProductSyncView_post b64decode request data st).1.
Proof.
  intros _ _. rewrite ProductSyncView_post_unchanged.
  apply same_catalogue_refl.
Qed.
End ProductSyncStores.

(** ** The summary of the pending sales *)

Section PendingSalesFacts.
Variable float : Type.
Variable float_of_decimal : Z → float.
Variable float_of_int : Z → float.
Variable float_add : float → float → float.

Local Abbreviation pending_items' :=
  (pending_items float float_of_decimal float_of_int float_add).
Local Abbreviation pending_sales' :=
  (pending_sales float float_of_decimal float_of_int float_add).
Local Abbreviation add_float' := (add_float float float_of_int float_add).

(** The loop over the line items of a sale stops at the first one: its
    product has no attribute [local_id]. *)
Lemma pending_items_run items agg st :
  Forall (λ i, is_Some (products st !! SaleItem.product i)) items →
  pending_items' items agg st
  = (st, match items with [] => inr agg | _ :: _ => inl AttributeError end).
Proof.
  intros Hitems. destruct items as [| item items]; [done |].
  apply Forall_cons in Hitems as [[p Hp] _]. simpl.
  unfold bind at 1, Product_by_pk, bind, read. simpl. by rewrite Hp.
Qed.

Lemma items_refer_Sale_items_all uuid st :
  items_refer st →
  Forall (λ i, is_Some (products st !! SaleItem.product i))
         (Sale_items_all uuid st).
Proof.
  unfold items_refer, Sale_items_all. rewrite !Forall_forall.
  intros Hrefer i [Hin _]%list_elem_of_In%filter_In.
  by apply Hrefer, list_elem_of_In.
Qed.

Lemma pending_sales_run sales agg total_amount st :
  items_refer st →
  pending_sales' sales agg total_amount st
  = (st, match items_of_sales sales st with
         | [] =>
             inr (agg,
                  foldl (λ n sale,
                           add_float' n (float_of_decimal (Sale.total sale.2)))
                        total_amount sales)
         | _ :: _ => inl AttributeError
         end).
Proof.
  intros Hrefer. revert total_amount.
  induction sales as [| sale sales IH]; intros total_amount; [done |].
  simpl pending_sales. erewrite bind_inr; [| reflexivity].
  unfold items_of_sales. simpl. fold (items_of_sales sales st).
  unfold bind at 1.
  rewrite pending_items_run by by apply items_refer_Sale_items_all.
  destruct (Sale_items_all sale.1 st); [| done]. simpl. apply IH.
Qed.

(** X26. The summary of the pending sales breaks on the first line item.
    For an admin of a business, in a store whose line items refer to stored
    products, the view writes nothing; when no pending sale of the business
    has a line item, it answers with no row and the sum of the totals of
    those sales; and as soon as one of them has a line item, it ends in
    [AttributeError], because it reads [local_id] from the product of the
    item. *)
Theorem pending_summary_needs_local_id (request : Request) (business : Z)
    (st : Store) :
  IsAdmin request = true →
  get_business_for_request request = Some business →
  items_refer st →
  let pending := Sale_objects_filter (λ r, is_pending business r.2) st in
  PendingSalesView_get float float_of_decimal float_of_int float_add request st
  = (st,
     Some match items_of_sales pending st with
          | [] =>
              inr (PendingSummary.mk []
                     (foldl (λ n sale,
                               add_float' n
                                 (float_of_decimal (Sale.total sale.2)))
                            (Int 0) pending))
          | _ :: _ => inl AttributeError
          end).
Proof.
  intros Hadmin Hbusiness Hrefer. simpl.
  unfold PendingSalesView_get.
  rewrite (IsAdmin_IsInBusiness _ Hadmin), Hbusiness. simpl.
  erewrite bind_inr; [| reflexivity].
  unfold bind at 1 3. rewrite pending_sales_run by done.
  by destruct (items_of_sales _ st).
Qed.
End PendingSalesFacts.

(** ** Soft deletion of a product *)

Lemma ProductViewSet_get_queryset_run request updated_after st queryset :
  ProductViewSet_get_queryset request updated_after st = (st, inr queryset) →
  ∀ p, queryset p = true →
    Product.active p = true
    ∧ get_business_for_request request = Some (Product.business p).
Proof.
  unfold ProductViewSet_get_queryset.
  destruct (get_business_for_request request) as [business |];
    [| by intros [= <-]].
  assert (Hq : ∀ p, Product.active p && (Product.business p =? business) = true →
               Product.active p = true ∧ Some business = Some (Product.business p)).
  { intros p [? ->%Z.eqb_eq]%andb_prop. done. }
  destruct updated_after as [[[] | t] |]; intros [= <-] p Hp;
    try (by apply Hq). apply andb_prop in Hp as [Hp _]. by apply Hq.
Qed.

Lemma ProductViewSet_get_queryset_unchanged request updated_after st :
  (ProductViewSet_get_queryset request updated_after st).1 = st.
Proof.
  unfold ProductViewSet_get_queryset.
  destruct (get_business_for_request request); [| done].
  by destruct updated_after as [[[] | t] |].
Qed.

Lemma ProductViewSet_destroy_inv request updated_after id st st' :
  ProductViewSet_destroy request updated_after id st = (st', Resp 204 NoBody) →
  ∃ queryset pk p inst,
    ProductViewSet_get_queryset request updated_after st = (st, inr queryset)
    ∧ Product_objects_filter
        (λ p, queryset p && (Z.of_N (Product.id p) =? id)) st = [(pk, p)]
    ∧ Product_save (pk, Product_with_active false p) st = (st', inr inst).
Proof.
  unfold ProductViewSet_destroy, dispatch.
  destruct (IsInBusiness request); [| done].
  pose proof (ProductViewSet_get_queryset_unchanged request updated_after st)
    as Hsame.
  unfold bind at 1.
  destruct (ProductViewSet_get_queryset request updated_after st)
    as [st0 [e | queryset]]; simpl in Hsame; subst st0; [done |].
  erewrite bind_inr; [| apply try_run, Product_objects_get_run].
  destruct (Product_objects_filter _ st) as [| [pk p] [| r rows]] eqn:Hrows;
    [done | | done].
  simpl. unfold bind at 1.
  destruct (Product_save (pk, Product_with_active false p) st)
    as [st1 [e | inst]] eqn:Hsave; [done |].
  intros [= <-]. by exists queryset, pk, p, inst.
Qed.

(** X27. Deleting a product is a soft delete.  When [ProductViewSet.destroy]
    answers 204 for a local id other than 0, one active product of the
    sender's business carried that local id, and the only change of the
    store is that this product is now stored inactive, with the time of the
    request: its stock, its other fields, every other product, the sales and
    the line items are as they were. *)
Theorem product_destroy_deactivates (request : Request)
    (updated_after : option (Exception + Z)) (id : Z) (st st' : Store) :
  id ≠ 0 →
  ProductViewSet_destroy request updated_after id st = (st', Resp 204 NoBody) →
  ∃ pk p,
    products st !! pk = Some p
    ∧ Product.active p = true
    ∧ get_business_for_request request = Some (Product.business p)
    ∧ Z.of_N (Product.id p) = id
    ∧ st' = set_products
              (<[pk := Product.with_updated_at (now st)
                         (Product_with_active false p)]> (products st)) st.
Proof.
  intros Hid (queryset & pk & p & inst & Hqs & Hrows & Hsave)
    %ProductViewSet_destroy_inv.
  apply Product_objects_filter_singleton in Hrows as (Hp & Hf & _).
  apply andb_prop in Hf as [Hq Hl%Z.eqb_eq].
  destruct (ProductViewSet_get_queryset_run _ _ _ _ Hqs p Hq) as [Hactive Hb].
  exists pk, p. repeat (split; [by subst |]).
  apply Product_save_keeps_local_id in Hsave as [[_ [=]] | [-> _]]; [done |].
  simpl. intros H0. rewrite H0 in Hl. simpl in Hl. by apply Hid.
Qed.

(** Once deleted, the local id names no active product of the business. *)
Lemma destroyed_product_is_inactive request updated_after id st st' business :
  products_unique st →
  id ≠ 0 →
  get_business_for_request request = Some business →
  ProductViewSet_destroy request updated_after id st = (st', Resp 204 NoBody) →
  products_unique st'
  ∧ ∀ pk p, products st' !! pk = Some p →
            Z.of_N (Product.id p) = id →
            Product.business p = business →
            Product.active p = false.
Proof.
  intros Hunique Hid Hbusiness
    (queryset & pk & p & inst & Hqs & Hrows & Hsave)%ProductViewSet_destroy_inv.
  split.
  { pose proof (Product_save_products_unique
                  (pk, Product_with_active false p) st Hunique) as H.
    by rewrite Hsave in H. }
  apply Product_objects_filter_singleton in Hrows as (Hp & Hf & _).
  apply andb_prop in Hf as [Hq Hl%Z.eqb_eq].
  destruct (ProductViewSet_get_queryset_run _ _ _ _ Hqs p Hq) as [Hactive Hb].
  rewrite Hbusiness in Hb. injection Hb as Hb.
  apply Product_save_keeps_local_id in Hsave as [[_ [=]] | [-> _]];
    [| simpl; intros H0; rewrite H0 in Hl; simpl in Hl; by apply Hid].
  intros pk' p' Hp' Hl' Hb'. simpl in Hp'.
  destruct (decide (pk = pk')) as [<- | Hne].
  - rewrite lookup_insert_eq in Hp'. by injection Hp' as <-.
  - rewrite lookup_insert_ne in Hp' by done. exfalso.
    pose proof (Hunique _ _ _ _ Hp Hp') as Hconflict.
    unfold product_conflict in Hconflict. simpl in Hconflict.
    assert (Product.id p' = Product.id p) as Hsame by lia.
    rewrite Hsame, N.eqb_refl, Hb', <- Hb, Z.eqb_refl in Hconflict.
    simpl in Hconflict. rewrite !andb_true_r in Hconflict.
    by apply negb_false_iff, N.eqb_eq in Hconflict.
Qed.

Lemma get_business_for_request_IsInBusiness request business :
  get_business_for_request request = Some business →
  IsInBusiness request = true.
Proof.
  intros (profile & Hprofile & _)%get_business_for_request_profile.
  unfold IsInBusiness. rewrite Hprofile. apply bool_decide_eq_true. eauto.
Qed.

Lemma ProductViewSet_destroy_business request updated_after id st st' :
  ProductViewSet_destroy request updated_after id st = (st', Resp 204 NoBody) →
  ∃ business, get_business_for_request request = Some business.
Proof.
  unfold ProductViewSet_destroy, dispatch, IsInBusiness,
    get_business_for_request.
  destruct (request_profile request) as [profile |]; [by eauto |].
  by rewrite bool_decide_eq_false_2 by by intros [? ?].
Qed.


(** X29. Deleting a product is not repeatable: after
    [ProductViewSet.destroy] answered 204 in a store of unique products, the
    same request of any member of the business writes nothing and is
    answered 404 -- unless its [updated_after] makes the parser raise an
    exception other than [ValueError] and [TypeError], which then leaves the
    view. *)
Theorem product_destroy_is_not_repeatable (request request' : Request)
    (updated_after updated_after' : option (Exception + Z)) (id : Z)
    (st st' : Store) :
  products_unique st →
  id ≠ 0 →
  ProductViewSet_destroy request updated_after id st = (st', Resp 204 NoBody) →
  get_business_for_request request' = get_business_for_request request →
  ProductViewSet_destroy request' updated_after' id st'
  = (st', match updated_after' with
          | Some (inl e) =>
              if parses updated_after' then Resp 404 NoBody else Unhandled e
          | _ => Resp 404 NoBody
          end).
Proof.
  intros Hunique Hid Hdestroy Hsame.
  destruct (ProductViewSet_destroy_business _ _ _ _ _ Hdestroy)
    as [business Hbusiness].
  destruct (destroyed_product_is_inactive _ _ _ _ _ _ Hunique Hid
              Hbusiness Hdestroy) as [_ Hgone].
  rewrite Hbusiness in Hsame.
  unfold ProductViewSet_destroy, dispatch.
  rewrite (get_business_for_request_IsInBusiness _ _ Hsame).
  assert (Hnone : ∀ queryset : Product.t → bool,
            (∀ p, queryset p = true →
                  Product.active p = true ∧ Product.business p = business) →
            Product_objects_filter
              (λ p, queryset p && (Z.of_N (Product.id p) =? id)) st' = []).
  { intros queryset Hq.
    destruct (Product_objects_filter _ st') as [| [pk p] rows] eqn:Hrows;
      [done |]. exfalso.
    assert (Hin : (pk, p) ∈ Product_objects_filter
                    (λ p, queryset p && (Z.of_N (Product.id p) =? id)) st')
      by (rewrite Hrows; left).
    apply elem_of_Product_objects_filter in Hin as [Hp Hf].
    apply andb_prop in Hf as [[Hactive Hb]%Hq Hl%Z.eqb_eq].
    by rewrite (Hgone pk p Hp Hl Hb) in Hactive. }
  assert (Hqueryset : ∀ p, Product.active p && (Product.business p =? business)
                           = true →
                      Product.active p = true ∧ Product.business p = business).
  { by intros p [? ?%Z.eqb_eq]%andb_prop. }
  unfold ProductViewSet_get_queryset. rewrite Hsame.
  destruct updated_after' as [[[] | t] |]; try reflexivity;
    (erewrite bind_inr; [| reflexivity];
     erewrite bind_inr; [| apply try_run, Product_objects_get_run];
     rewrite Hnone; [reflexivity |]); try exact Hqueryset.
  intros p [Hp _]%andb_prop. by apply Hqueryset.
Qed.

(** ** The direct sale API *)


(** The loop of [SaleSerializer.create] is the loop of
    [SaleSyncSerializer.create]. *)
Lemma SaleSerializer_create_run request validated_data st :
  SaleSerializer_create request validated_data st
  = match request_profile request with
    | None => raise (ValidationError "Usuario sin negocio asignado")
    | Some profile =>
        let business_id := UserProfile.business_id profile in
        if business_id =? 0 then
          raise (ValidationError "Usuario sin negocio asignado")
        else
          do uuid <- read (λ st, uuid4 (dom (sales st)));
          do sale <- Sale_save true
                       (uuid, Sale.mk business_id (SaleData.total validated_data)
                                0 0 (SaleData.synced_from_device validated_data)
                                (SaleData.active validated_data) None false);
          SaleSync_create_items sale.1 business_id
            (SaleData.items_data validated_data);;
          ret sale
    end st.
Proof.
  unfold SaleSerializer_create.
  destruct (request_profile request) as [profile |]; [| done].
  destruct (UserProfile.business_id profile =? 0); [done |].
  apply bind_ext. intros uuid st1. apply bind_ext. intros sale st2.
  apply bind_ext_l.
  induction (SaleData.items_data validated_data) as [| item_data l IH]
    in st2 |- *; simpl; [done |].
  apply bind_ext. intros product st3. apply bind_ext. intros _ st4. apply IH.
Qed.

(** X30. The direct sale API never changes a product: whatever
    [SaleSerializer.create] is given and whoever calls it, the products and
    their stock are afterwards as they were.  When it returns a sale, the
    sale is stored under a key that was free, it belongs to the business of
    the caller, it is not pending, and it carries the time of the call. *)
Theorem direct_sale_keeps_products (request : Request)
    (validated_data : SaleData.t) (st : Store) :
  let run := SaleSerializer_create request validated_data st in
  products run.1 = products st
  ∧ ∀ sale, run.2 = inr sale →
      sales st !! sale.1 = None
      ∧ sales run.1 !! sale.1 = Some sale.2
      ∧ get_business_for_request request = Some (Sale.business sale.2)
      ∧ Sale.pending_approval sale.2 = false
      ∧ Sale.created_at sale.2 = now st.
Proof.
  simpl. rewrite SaleSerializer_create_run.
  unfold get_business_for_request.
  destruct (request_profile request) as [profile |]; [| by split].
  simpl. destruct (UserProfile.business_id profile =? 0); [by split |].
  erewrite bind_inr; [| reflexivity].
  set (uuid := uuid4 (dom (sales st))).
  assert (Hfree : sales st !! uuid = None) by apply not_elem_of_dom, is_fresh.
  set (s := Sale.mk _ _ _ _ _ _ _ _).
  assert (Hsave : Sale_save true (uuid, s) st
                  = (set_sales (<[uuid := Sale.with_created_at (now st)
                                            (Sale.with_updated_at (now st) s)]>
                                  (sales st)) st,
                     inr (uuid, Sale.with_created_at (now st)
                                  (Sale.with_updated_at (now st) s)))).
  { unfold Sale_save, bind, timezone_now, read, write, ret. simpl.
    by rewrite Hfree. }
  erewrite bind_inr; [| exact Hsave]. simpl.
  set (st1 := set_sales _ st).
  assert (Hitems : items_blind (λ s, products s = products st
                                     ∧ sales s = sales st1))
    by (by intros ? ? ?).
  pose proof (preserves_SaleSync_create_items _ Hitems uuid
                (UserProfile.business_id profile)
                (SaleData.items_data validated_data) st1) as Hloop.
  unfold bind.
  destruct (SaleSync_create_items _ _ _ st1) as [st2 [e | []]];
    simpl in *; destruct Hloop as [Hp Hs]; try done.
  split; [done |]. intros sale [= <-]. simpl. rewrite Hs.
  subst st1. simpl. by rewrite lookup_insert_eq.
Qed.

(** * The theorems at work on the small shop *)


Lemma reactivate_inactive_sale_witness :
  has_role "admin" admin_request = true
  ∧ sales shop_rejected !! 77%N
    = Some (Sale.mk 1 5000 1000 1000 true false (Some 2) true)
  ∧ get_business_for_request admin_request = Some 1
  ∧ products (SaleViewSet_reactivate admin_request 77 shop_rejected).1
    = products shop_rejected.
Proof.
  split; [reflexivity |]. split; [vm_compute; reflexivity |].
  split; [reflexivity |].
  apply (reactivate_inactive_sale admin_request 77
           (Sale.mk 1 5000 1000 1000 true false (Some 2) true) shop_rejected);
    [reflexivity | vm_compute; reflexivity | reflexivity].
Defined.

Lemma approve_stops_at_first_shortage_witness :
  (ApproveSaleView_post admin_request 77 shop_pending).2
  = Resp 400 (Error "Stock insuficiente para sal")
  ∧ sales (ApproveSaleView_post admin_request 77 shop_pending).1
    = sales shop_pending.
Proof.
  split; [vm_compute; reflexivity |].
  apply (approve_stops_at_first_shortage admin_request 77 shop_pending
           "Stock insuficiente para sal").
  vm_compute; reflexivity.
Defined.

Lemma approve_all_stops_at_first_shortage_witness :
  (ApproveAllPendingView_post admin_request shop_two_pending).2
  = Resp 400 (Error "Stock insuficiente para sal")
  ∧ sales (ApproveAllPendingView_post admin_request shop_two_pending).1
    = sales shop_two_pending
  ∧ Product.stock
      <$> products (ApproveAllPendingView_post admin_request shop_two_pending).1
          !! 10%N
    = Some 1.
Proof.
  split; [vm_compute; reflexivity |].
  split; [| vm_compute; reflexivity].
  apply (approve_all_stops_at_first_shortage admin_request shop_two_pending
           "Stock insuficiente para sal").
  vm_compute; reflexivity.
Defined.

Lemma sale_sync_replay_is_idempotent_witness :
  (Sale_items_all 78
     (Nat.iter 3
        (λ st, (SaleSyncView_post worker_request [small_sale; bare_sale] st).1)
        shop_approved)
   = [SaleItem.mk 78 10 2 2500]
   ∧ products
       (Nat.iter 3
          (λ st, (SaleSyncView_post worker_request [small_sale; bare_sale] st).1)
          shop_approved)
     = products shop_approved)
  ∧ (Sale_items_all 78
       (Nat.iter 3
          (λ st, (SaleSyncView_post admin_request
                    [SaleSyncItem.mk 78 2500 []; bare_sale] st).1)
          shop_approved)
     = [SaleItem.mk 78 10 2 2500]
     ∧ products
         (Nat.iter 3
            (λ st, (SaleSyncView_post admin_request
                      [SaleSyncItem.mk 78 2500 []; bare_sale] st).1)
            shop_approved)
       = products shop_approved).
Proof.
  split.
  - destruct (sale_sync_replay_is_idempotent worker_request
                [small_sale; bare_sale] small_sale shop_approved 3)
      as (Hitems & Hproducts & _);
      [compute_done | left | compute_done |].
    split; [| exact Hproducts].
    etransitivity; [exact Hitems |]. vm_compute. reflexivity.
  - destruct (sale_sync_replay_is_idempotent admin_request
                [SaleSyncItem.mk 78 2500 []; bare_sale]
                (SaleSyncItem.mk 78 2500 []) shop_approved 3)
      as (Hitems & Hproducts & _);
      [compute_done | left | compute_done |].
    split; [| exact Hproducts].
    etransitivity; [exact Hitems |]. vm_compute. reflexivity.
Defined.




(** The two invariants of the product table can be checked row by row. *)
Lemma products_unique_check st :
  forallb (λ r1, forallb (λ r2, negb (product_conflict r1.1 r1.2 r2))
                         (map_to_list (products st)))
          (map_to_list (products st)) = true →
  products_unique st.
Proof.
  intros Hcheck pk1 p1 pk2 p2 Hp1 Hp2.
  rewrite forallb_forall in Hcheck.
  specialize (Hcheck (pk1, p1)). rewrite forallb_forall in Hcheck.
  apply negb_true_iff, (Hcheck ltac:(by apply list_elem_of_In, elem_of_map_to_list)
                          (pk2, p2)).
  by apply list_elem_of_In, elem_of_map_to_list.
Qed.

Lemma local_ids_positive_check st :
  forallb (λ r : N * Product.t, negb (Product.id r.2 =? 0)%N)
          (map_to_list (products st)) = true →
  local_ids_positive st.
Proof.
  intros Hcheck pk p Hp. rewrite forallb_forall in Hcheck.
  apply N.eqb_neq, negb_true_iff, (Hcheck (pk, p)).
  by apply list_elem_of_In, elem_of_map_to_list.
Qed.

Lemma request_without_profile_is_refused_witness :
  run no_decode (Approve anonymous_request 77) shop_pending
  = (shop_pending, Forbidden).
Proof.
  apply (request_without_profile_is_refused no_decode
           (Approve anonymous_request 77) anonymous_request shop_pending);
    reflexivity.
Defined.

Lemma moderation_requires_admin_witness :
  (run no_decode (ApproveAll worker_request) shop_pending).1 = shop_pending
  ∧ is_refusal (run no_decode (ApproveAll worker_request) shop_pending).2 = true.
Proof.
  apply (moderation_requires_admin no_decode (ApproveAll worker_request)
           worker_request shop_pending); reflexivity.
Defined.

Lemma sale_outside_business_is_not_found_witness :
  (run no_decode (Approve outsider_request 77) shop_pending).1 = shop_pending
  ∧ is_refusal (run no_decode (Approve outsider_request 77) shop_pending).2
    = true.
Proof.
  apply (sale_outside_business_is_not_found no_decode
           (Approve outsider_request 77) outsider_request 77 shop_pending);
    [reflexivity | reflexivity | vm_compute; discriminate].
Defined.

Lemma sale_listing_visibility_witness :
  (78%N, Sale.mk 1 2500 1000 1000 true true (Some 2) false)
    ∈ SaleViewSet_queryset worker_request false shop_approved
  ∧ Sale.created_by (Sale.mk 1 2500 1000 1000 true true (Some 2) false)
    = User.pk <$> user worker_request.
Proof.
  assert (Hlisted : (78%N, Sale.mk 1 2500 1000 1000 true true (Some 2) false)
                      ∈ SaleViewSet_queryset worker_request false shop_approved)
    by (vm_compute; left).
  split; [exact Hlisted |].
  apply (sale_listing_visibility worker_request false shop_approved 78 _ Hlisted).
  reflexivity.
Defined.

Lemma reject_all_deactivates_the_pending_sales_witness :
  IsAdmin admin_request = true
  ∧ get_business_for_request admin_request = Some 1
  ∧ products (RejectAllPendingView_post admin_request shop_pending).1
    = products shop_pending.
Proof.
  split; [reflexivity |]. split; [reflexivity |].
  apply (reject_all_deactivates_the_pending_sales admin_request 1 shop_pending);
    reflexivity.
Defined.

Lemma approve_success_reduces_stock_witness :
  (ApproveSaleView_post admin_request 78 shop_small_pending).2 = Resp 200 Success
  ∧ ∃ business s,
      get_business_for_request admin_request = Some business
      ∧ sales shop_small_pending !! 78%N = Some s
      ∧ is_pending business s = true
      ∧ sales shop_approved
        = <[78%N := Sale.with_updated_at (now shop_small_pending)
                      (Sale.with_pending_approval false s)]>
            (sales shop_small_pending)
      ∧ sale_items shop_approved = sale_items shop_small_pending
      ∧ stock_reduced_by (Sale_items_all 78 shop_small_pending)
          shop_small_pending shop_approved.
Proof.
  split; [vm_compute; reflexivity |].
  apply (approve_success_reduces_stock admin_request 78 shop_small_pending).
  vm_compute; reflexivity.
Defined.

Lemma approve_is_not_repeatable_witness :
  (ApproveSaleView_post admin_request 78 shop_small_pending).2 = Resp 200 Success
  ∧ (ApproveSaleView_post admin_request 78 shop_approved).1 = shop_approved
  ∧ is_refusal (ApproveSaleView_post admin_request 78 shop_approved).2 = true.
Proof.
  split; [vm_compute; reflexivity |].
  apply (approve_is_not_repeatable admin_request admin_request 78
           shop_small_pending).
  vm_compute; reflexivity.
Defined.

Lemma approve_all_success_reduces_stock_witness :
  (ApproveAllPendingView_post admin_request shop_small_pending).2
  = Resp 200 (ApprovedCount 1)
  ∧ ∃ business,
      get_business_for_request admin_request = Some business
      ∧ 1%nat
        = List.length
            (Sale_objects_filter (λ r, is_pending business r.2) shop_small_pending)
      ∧ (∀ uuid,
           sales (ApproveAllPendingView_post admin_request shop_small_pending).1
             !! uuid
           = (λ s, if is_pending business s
                   then Sale.with_updated_at (now shop_small_pending)
                          (Sale.with_pending_approval false s)
                   else s) <$> sales shop_small_pending !! uuid)
      ∧ sale_items (ApproveAllPendingView_post admin_request shop_small_pending).1
        = sale_items shop_small_pending
      ∧ stock_reduced_by
          (items_of_sales
             (Sale_objects_filter (λ r, is_pending business r.2)
                shop_small_pending)
             shop_small_pending)
          shop_small_pending
          (ApproveAllPendingView_post admin_request shop_small_pending).1.
Proof.
  split; [vm_compute; reflexivity |].
  apply (approve_all_success_reduces_stock admin_request shop_small_pending 1).
  vm_compute; reflexivity.
Defined.

Lemma approve_all_is_not_repeatable_witness :
  (ApproveAllPendingView_post admin_request shop_small_pending).2
  = Resp 200 (ApprovedCount 1)
  ∧ ApproveAllPendingView_post admin_request
      (ApproveAllPendingView_post admin_request shop_small_pending).1
    = ((ApproveAllPendingView_post admin_request shop_small_pending).1,
       Resp 200 (ApprovedCount 0)).
Proof.
  split; [vm_compute; reflexivity |].
  apply (approve_all_is_not_repeatable admin_request shop_small_pending 1).
  vm_compute; reflexivity.
Defined.

Lemma destroy_success_restores_stock_witness :
  (SaleViewSet_destroy admin_request false 78 shop_approved).2 = Resp 204 NoBody
  ∧ ∃ s,
      (78%N, s) ∈ SaleViewSet_queryset admin_request false shop_approved
      ∧ sales (SaleViewSet_destroy admin_request false 78 shop_approved).1
        = <[78%N := Sale.with_updated_at (now shop_approved)
                      (Sale.with_active false s)]> (sales shop_approved)
      ∧ sale_items (SaleViewSet_destroy admin_request false 78 shop_approved).1
        = sale_items shop_approved
      ∧ stock_restored_by (Sale_items_all 78 shop_approved) shop_approved
          (SaleViewSet_destroy admin_request false 78 shop_approved).1.
Proof.
  split; [vm_compute; reflexivity |].
  apply (destroy_success_restores_stock admin_request false 78 shop_approved).
  vm_compute; reflexivity.
Defined.

Lemma destroy_reaches_only_listed_sales_witness :
  sales shop_pending !! 77%N
  = Some (Sale.mk 1 5000 1000 1000 true true (Some 2) true)
  ∧ (SaleViewSet_destroy admin_request true 77 shop_pending).1 = shop_pending
  ∧ is_refusal (SaleViewSet_destroy admin_request true 77 shop_pending).2 = true.
Proof.
  split; [vm_compute; reflexivity |].
  apply (destroy_reaches_only_listed_sales admin_request true 77
           (Sale.mk 1 5000 1000 1000 true true (Some 2) true) shop_pending);
    [vm_compute; reflexivity | left; reflexivity].
Defined.

Lemma destroy_then_reactivate_keeps_restored_stock_witness :
  (SaleViewSet_destroy admin_request false 78 shop_approved).2 = Resp 204 NoBody
  ∧ stock_restored_by (Sale_items_all 78 shop_approved) shop_approved
      (SaleViewSet_reactivate admin_request 78
         (SaleViewSet_destroy admin_request false 78 shop_approved).1).1.
Proof.
  split; [vm_compute; reflexivity |].
  apply (destroy_then_reactivate_keeps_restored_stock admin_request
           admin_request false 78 shop_approved);
    [vm_compute; reflexivity | reflexivity | reflexivity].
Defined.

Lemma references_stay_valid_witness :
  items_refer shop_pending
  ∧ Forall items_refer
      (history no_decode shop_pending
         [Approve admin_request 77; SaleSync admin_request [small_sale];
          Destroy admin_request false 78; RejectAll admin_request;
          ProductSync worker_request [old_product]]).
Proof.
  split; [compute_done |]. apply references_stay_valid. compute_done.
Defined.





Lemma product_sync_of_known_ids_adds_no_product_witness :
  get_business_for_request worker_request = Some 1
  ∧ Forall (λ item, product_known 1 shop item = true) [old_product]
  ∧ same_catalogue shop
      (ProductSyncView_post no_decode worker_request [old_product] shop).1.
Proof.
  split; [reflexivity |]. split; [compute_done |].
  apply (product_sync_of_known_ids_adds_no_product no_decode worker_request
           [old_product] 1 shop); [reflexivity | compute_done].
Defined.

Lemma product_destroy_deactivates_witness :
  ProductViewSet_destroy admin_request None 1 shop
  = (shop_destroyed, Resp 204 NoBody)
  ∧ ∃ pk p,
      products shop !! pk = Some p
      ∧ Product.active p = true
      ∧ get_business_for_request admin_request = Some (Product.business p)
      ∧ Z.of_N (Product.id p) = 1
      ∧ shop_destroyed
        = set_products
            (<[pk := Product.with_updated_at (now shop)
                       (Product_with_active false p)]> (products shop)) shop.
Proof.
  split; [vm_compute; reflexivity |].
  apply (product_destroy_deactivates admin_request None 1 shop shop_destroyed);
    [lia | vm_compute; reflexivity].
Defined.


Lemma sale_sync_writes_only_after_validation_witness :
  (SaleSyncView_post worker_request [bare_sale] shop).1 ≠ shop
  ∧ Forall (λ sale_data,
              SaleSyncItem.items_data sale_data = []
              ∧ 0 < SaleSyncItem.total sale_data < 10 ^ 10) [bare_sale].
Proof.
  assert (Hwritten : (SaleSyncView_post worker_request [bare_sale] shop).1 ≠ shop)
    by (intros H%(f_equal (λ st, Sale.total <$> sales st !! 79%N));
        vm_compute in H; discriminate).
  split; [exact Hwritten |].
  apply (sale_sync_writes_only_after_validation worker_request [bare_sale] shop).
  exact Hwritten.
Defined.

Lemma sale_sync_with_item_raises_field_error_witness :
  SaleSyncView_post admin_request [bare_sale; big_sale] shop
  = (shop, Unhandled FieldError).
Proof.
  apply (sale_sync_with_item_raises_field_error admin_request
           (UserProfile.mk 1 "admin") [bare_sale; big_sale] big_sale shop);
    [reflexivity | done | right; left | discriminate].
Defined.

Lemma sale_sync_without_items_upserts_witness :
  (SaleSyncView_post admin_request [bare_sale] shop).2
  = Resp 201 (SalesSynced 1
                [(79%N, Sale.mk 1 10000 1000 1000 true true (Some 1) false)]
                1000)
  ∧ products (SaleSyncView_post admin_request [bare_sale] shop).1
    = products shop.
Proof.
  destruct (sale_sync_without_items_upserts admin_request
              (UserProfile.mk 1 "admin") [bare_sale] shop)
    as (Hanswer & _ & _ & Hproducts & _); try done.
  - compute_done.
  - repeat constructor.
  - repeat constructor. set_solver.
  - repeat constructor. intros s Hs. vm_compute in Hs. discriminate.
Defined.

Lemma worker_push_makes_known_sale_pending_witness :
  Sale.pending_approval <$> sales shop_approved !! 78%N = Some false
  ∧ sales (SaleSyncView_post worker_request [SaleSyncItem.mk 78 2500 []]
             shop_approved).1 !! 78%N
    = Some (Sale.mk 1 2500 1000 1000 true true (Some 2) true).
Proof.
  split; [vm_compute; reflexivity |].
  apply (worker_push_makes_known_sale_pending worker_request
           (UserProfile.mk 1 "worker") (SaleSyncItem.mk 78 2500 [])
           (Sale.mk 1 2500 1000 1000 true true (Some 2) false) shop_approved);
    try done; compute_done.
Defined.

Lemma pending_summary_needs_local_id_witness :
  PendingSalesView_get Z (λ x, x) (λ n, 100 * n) Z.add admin_request
    shop_pending
  = (shop_pending, Some (inl AttributeError))
  ∧ PendingSalesView_get Z (λ x, x) (λ n, 100 * n) Z.add admin_request shop
    = (shop, Some (inr (PendingSummary.mk [] (Int 0)))).
Proof.
  split.
  - apply (pending_summary_needs_local_id Z (λ x, x) (λ n, 100 * n) Z.add
             admin_request 1 shop_pending);
      [reflexivity | reflexivity | compute_done].
  - apply (pending_summary_needs_local_id Z (λ x, x) (λ n, 100 * n) Z.add
             admin_request 1 shop);
      [reflexivity | reflexivity | compute_done].
Defined.

Lemma product_destroy_is_not_repeatable_witness :
  products_unique shop
  ∧ ProductViewSet_destroy admin_request None 1 shop
    = (shop_destroyed, Resp 204 NoBody)
  ∧ ProductViewSet_destroy worker_request (Some (inr 0)) 1 shop_destroyed
    = (shop_destroyed, Resp 404 NoBody)
  ∧ ProductViewSet_destroy worker_request (Some (inl OverflowError)) 1
      shop_destroyed
    = (shop_destroyed, Unhandled OverflowError).
Proof.
  assert (Hunique : products_unique shop)
    by (apply products_unique_check; vm_compute; reflexivity).
  split; [exact Hunique |]. split; [vm_compute; reflexivity |]. split.
  - apply (product_destroy_is_not_repeatable admin_request worker_request None
             (Some (inr 0)) 1 shop shop_destroyed);
      [exact Hunique | lia | vm_compute; reflexivity | reflexivity].
  - apply (product_destroy_is_not_repeatable admin_request worker_request None
             (Some (inl OverflowError)) 1 shop shop_destroyed);
      [exact Hunique | lia | vm_compute; reflexivity | reflexivity].
Defined.
